(** * Treasury trading engine: pricing, edge detection, sizing, execution

    A shallow embedding of [src/lib/trading-engine.ts] (scan -> size ->
    execute -> monitor) and of the quoting arithmetic of the treasury page
    ([derived], src/unnamed/part_006), with the properties the specification
    states about them.

    Conventions of the embedding.
    - A JavaScript [number] is a real number of [R]: arithmetic is exact, the
      rounding of IEEE doubles is not represented, and neither are
      [Infinity] and [NaN], except where the source itself tests for [NaN]
      (the [Number(x) || 0] and [parseFloat(x) || 0] idioms), where the
      value is an [option R] with [None] for [NaN].  Theorems whose
      arithmetic divides carry the hypothesis that keeps the divisor away
      from zero.
    - Decimal strings sent by the venue ([price], [original_size],
      [size_matched], [balance]) are carried as what [parseFloat] reads from
      them: an [option R], with [None] for the [NaN] of a field that is
      missing or not numeric.  Sums and comparisons on them follow [NaN]:
      a sum with [NaN] is [NaN], a comparison with [NaN] is false.
    - An [await]ed external call is the outcome it settled with:
      [Returned v] or [Threw e].  The body of the balance answer, which the
      source reads outside any [try], is an [option]: [None] for [null].
      The bodies the source reads inside the [try] of their call (the list
      of open orders, the response to an order) are carried at their declared
      type: a body that throws when it is read settles the call as a throw
      does.
    - Markets, coins and signals are values of their declared types.
    - [Date.now()] stamps are left out of log entries and trade results.
    - The built-ins that turn text into values and back ([JSON.parse],
      string to number, number to string, [toFixed]) are the fields of a
      [JsRuntime] that every function using them takes. *)

From Stdlib Require Import Reals Lra Lia Psatz ZArith List String Ascii Bool DecimalString.
Import ListNotations.

#[local] Open Scope R_scope.

(** ** Outcomes of calls that may throw *)

Inductive Exn : Type :=
| Error (message : string)   (* [err instanceof Error] *)
| Thrown.                    (* any other thrown value *)

Inductive Outcome (A : Type) : Type :=
| Returned (a : A)
| Threw (e : Exn).

Arguments Returned {A} a.
Arguments Threw {A} e.

Definition bind {A B : Type} (c : Outcome A) (k : A -> Outcome B) : Outcome B :=
  match c with
  | Returned a => k a
  | Threw e => Threw e
  end.

Declare Scope outcome_scope.
Delimit Scope outcome_scope with outcome.
Notation "x <- c ;; k" := (bind c (fun x => k))
  (at level 61, c at next level, right associativity) : outcome_scope.

(** [try { body } catch { handler }] *)
Definition try_catch {A : Type} (body : Outcome A) (handler : Exn -> A) : A :=
  match body with
  | Returned a => a
  | Threw e => handler e
  end.

(** [err instanceof Error ? err.message : 'Unknown'] *)
Definition messageOf (err : Exn) : string :=
  match err with
  | Error m => m
  | Thrown => "Unknown"%string
  end.

(** ** Numbers *)

(** [Math.floor] and [Math.round] (half-way cases round up). *)
Definition Math_floor (x : R) : R := IZR (Zfloor x).
Definition Math_round (x : R) : R := IZR (Zfloor (x + 0.5)).

(** [v || 0] for a number that may be [NaN]: [NaN] and [0] both give [0]. *)
Definition or0 (v : option R) : R :=
  match v with
  | Some x => x
  | None => 0
  end.

(** Arithmetic and comparisons on numbers that may be [NaN]. *)
Definition nanAdd (a b : option R) : option R :=
  match a, b with
  | Some x, Some y => Some (x + y)
  | _, _ => None
  end.

Definition nanMul (a b : option R) : option R :=
  match a, b with
  | Some x, Some y => Some (x * y)
  | _, _ => None
  end.

Definition nanDiv (a b : option R) : option R :=
  match a, b with
  | Some x, Some y => Some (x / y)
  | _, _ => None
  end.

(** [a >= b] and [a > b] *)
Definition nanGe (a : option R) (b : R) : bool :=
  match a with
  | Some x => if Rge_dec x b then true else false
  | None => false
  end.

Definition nanGt (a : option R) (b : R) : bool :=
  match a with
  | Some x => if Rgt_dec x b then true else false
  | None => false
  end.

(** ** JSON values and the runtime *)

#[warnings="-register-all"]
Inductive JsValue : Type :=
| JNull
| JBool (b : bool)
| JNum (x : R)
| JStr (s : string)
| JArr (items : list JsValue)
| JObj (fields : list (string * JsValue)).

Record JsRuntime : Type := {
  (** [JSON.parse]: [None] when it throws a SyntaxError. *)
  JSON_parse : string -> option JsValue;
  (** string to number conversion, [None] for [NaN]. *)
  StringToNumber : string -> option R;
  (** [String(x)] for a number. *)
  NumberToString : R -> string;
  (** [x.toFixed(digits)]. *)
  toFixed : R -> nat -> string
}.

(** ** Model constants and risk limits *)

Definition SIGMA : R := 0.50.
Definition T_EXP : R := 0.0000095.
Definition R_FREE : R := 0.0433.
Definition GAMMA : R := 0.10.
Definition SIGMA_B : R := 0.328.
Definition K_DECAY : R := 1.50.
Definition EDGE_THRESHOLD : R := 3.0.
Definition KELLY_FRACTION : R := 0.25.

Definition MAX_POSITION_PCT : R := 0.05.
Definition MAX_TOTAL_EXPOSURE_PCT : R := 0.40.
Definition STOP_LOSS_PCT : R := 0.15.
Definition MAX_DRAWDOWN_PCT : R := 0.20.

(** ** Records of the engine *)

Inductive Side : Type := BUY | SELL.

Definition Side_eqb (a b : Side) : bool :=
  match a, b with
  | BUY, BUY | SELL, SELL => true
  | _, _ => false
  end.

Definition sideName (s : Side) : string :=
  match s with BUY => "BUY" | SELL => "SELL" end.

Inductive Action : Type := SCAN | TRADE | SKIP | HALT | ERROR.

Definition Action_eqb (a b : Action) : bool :=
  match a, b with
  | SCAN, SCAN | TRADE, TRADE | SKIP, SKIP | HALT, HALT | ERROR, ERROR => true
  | _, _ => false
  end.

Module CoinPrice.
Record t : Type := mk {
  id : string;
  symbol : string;
  usd : R;
  usd_24h_change : option R;
  usd_24h_vol : option R
}.
End CoinPrice.

Module PolymarketMarket.
Record t : Type := mk {
  id : string;
  question : string;
  outcomePrices : string;     (* JSON string of [yesPrice, noPrice] *)
  volume : string;
  liquidity : string;
  endDate : string;
  active : bool
}.
End PolymarketMarket.

Record CategorizedMarkets : Type := {
  crypto : list PolymarketMarket.t;
  ai : list PolymarketMarket.t;
  sports : list PolymarketMarket.t;
  politics : list PolymarketMarket.t
}.

Module EdgeSignal.
Record t : Type := mk {
  asset : string;
  market : PolymarketMarket.t;
  modelFair : R;
  mktPrice : R;
  divergence : R;
  side : Side;
  d2 : R;
  Nd2 : R
}.
End EdgeSignal.

Module SizedPosition.
Record t : Type := mk {
  signal : EdgeSignal.t;
  kellyFraction : R;
  sizeUSD : R;
  shares : R
}.
End SizedPosition.

Module TradeResult.
Record t : Type := mk {
  position : SizedPosition.t;
  orderID : string;
  status : string
}.
End TradeResult.

Module TradingLog.
Record t : Type := mk {
  action : Action;
  asset : option string;
  details : string
}.
End TradingLog.

Module ClobOrder.
Record t : Type := mk {
  tokenID : string;
  price : R;
  size : R;
  side : Side
}.
End ClobOrder.

Module ClobOrderResponse.
Record t : Type := mk {
  orderID : string;
  status : string
}.
End ClobOrderResponse.

Module OpenOrder.
Record t : Type := mk {
  id : string;
  market : string;
  asset_id : string;
  side : Side;
  price : option R;
  original_size : option R;
  size_matched : option R;
  status : string
}.
End OpenOrder.

(** The [{ balance: string }] answer of the venue; [None] when [parseFloat]
    reads [NaN] from it. *)
Record ClobBalance : Type := { balance : option R }.

(** Which of the two fetches of a scan rejected first, when both reject. *)
Inductive Fetcher : Type := PricesFetcher | MarketsFetcher.

(** [Promise.all([a, b])]: it settles with both values, or rejects with the
    first rejection. *)
Definition Promise_all {A B : Type} (firstToReject : Fetcher)
    (a : Outcome A) (b : Outcome B) : Outcome (A * B) :=
  match a, b with
  | Returned x, Returned y => Returned (x, y)
  | Threw e, Returned _ => Threw e
  | Returned _, Threw e => Threw e
  | Threw ea, Threw eb =>
      Threw (match firstToReject with PricesFetcher => ea | MarketsFetcher => eb end)
  end.

(** ** Math (identical in the engine and on the treasury page) *)

Definition normalCDF (x : R) : R :=
  let a1 := 0.254829592 in
  let a2 := -0.284496736 in
  let a3 := 1.421413741 in
  let a4 := -1.453152027 in
  let a5 := 1.061405429 in
  let p := 0.3275911 in
  let sign := if Rlt_dec x 0 then -1 else 1 in
  let z := Rabs x / sqrt 2 in
  let t := 1 / (1 + p * z) in
  let y := 1 - ((((a5 * t + a4) * t + a3) * t + a2) * t + a1) * t * exp (- z * z) in
  0.5 * (1 + sign * y).

(** The binary pricing block of [scanForEdge], with the three constants it
    reads taken as arguments. *)
Record PricingTerms : Type := {
  pt_d2 : R;
  pt_Nd2 : R;
  pt_C_bin : R;
  pt_modelFair : R
}.

Definition priceBinary (sigma T r : R) : PricingTerms :=
  let sqrtT := sqrt T in
  let d2 := (r - 0.5 * sigma * sigma) * T / (sigma * sqrtT) in
  let Nd2 := normalCDF d2 in
  let C_bin := exp (- r * T) * Nd2 in
  let modelFair := C_bin * 100 in
  {| pt_d2 := d2; pt_Nd2 := Nd2; pt_C_bin := C_bin; pt_modelFair := modelFair |}.

Definition fairValue (sigma T r : R) : R := pt_modelFair (priceBinary sigma T r).

(** ** Text helpers *)

(** [s.toLowerCase()] on the ASCII letters. *)
Definition lowerAscii (c : ascii) : ascii :=
  let n := nat_of_ascii c in
  if (Nat.leb 65 n && Nat.leb n 90)%bool then ascii_of_nat (n + 32) else c.

Fixpoint toLowerCase (s : string) : string :=
  match s with
  | EmptyString => EmptyString
  | String c rest => String (lowerAscii c) (toLowerCase rest)
  end.

(** [hay.includes(needle)] *)
Fixpoint includes (hay needle : string) : bool :=
  (prefix needle hay ||
   match hay with
   | EmptyString => false
   | String _ rest => includes rest needle
   end)%bool.

(** The decimal property key of an index. *)
Definition indexKey (i : nat) : string :=
  NilEmpty.string_of_uint (Nat.to_uint i).

(** ** Coercions of the language *)

(** [v[i]]: a TypeError on [null], [undefined] ([None]) where nothing is
    stored under [i]. *)
Definition js_index (v : JsValue) (i : nat) : Outcome (option JsValue) :=
  match v with
  | JNull => Threw (Error "Cannot read properties of null")
  | JBool _ | JNum _ => Returned None
  | JStr s =>
      Returned (match get i s with
                | Some c => Some (JStr (String c EmptyString))
                | None => None
                end)
  | JArr items => Returned (nth_error items i)
  | JObj fields =>
      Returned (match find (fun kv => String.eqb (fst kv) (indexKey i)) fields with
                | Some kv => Some (snd kv)
                | None => None
                end)
  end.

Section Engine.

Variable rt : JsRuntime.

(** [String(v)] of a parsed value; inside an array [null] prints as the empty
    string and the elements are joined by commas. *)
Fixpoint ToString (v : JsValue) : string :=
  match v with
  | JNull => "null"
  | JBool true => "true"
  | JBool false => "false"
  | JNum x => NumberToString rt x
  | JStr s => s
  | JArr items =>
      (fix join (l : list JsValue) : string :=
         match l with
         | [] => ""
         | x :: rest =>
             let here := match x with JNull => "" | _ => ToString x end in
             match rest with
             | [] => here
             | _ :: _ => here ++ "," ++ join rest
             end
         end) items
  | JObj _ => "[object Object]"
  end%string.

(** [Number(v)], with [None] for [NaN]; [v = None] is [undefined]. *)
Definition Number (v : option JsValue) : option R :=
  match v with
  | None => None
  | Some JNull => Some 0
  | Some (JBool b) => Some (if b then 1 else 0)
  | Some (JNum x) => Some x
  | Some (JStr s) => StringToNumber rt s
  | Some (JArr items) => StringToNumber rt (ToString (JArr items))
  | Some (JObj _) => None
  end.

Definition JSON_parse_call (raw : string) : Outcome JsValue :=
  match JSON_parse rt raw with
  | Some v => Returned v
  | None => Threw (Error "Unexpected token")
  end.

(** The body of the [try] block of [parseOutcomePrices]. *)
Definition parseOutcomePrices_try (raw : string) : Outcome (R * R) :=
  (arr <- JSON_parse_call raw ;;
   a0 <- js_index arr 0 ;;
   a1 <- js_index arr 1 ;;
   Returned (or0 (Number a0), or0 (Number a1)))%outcome.

Definition parseOutcomePrices (raw : string) : R * R :=
  try_catch (parseOutcomePrices_try raw) (fun _ => (0, 0)).

(** ** Edge detection *)

Definition matchesCoin (market : PolymarketMarket.t) (p : CoinPrice.t) : bool :=
  (includes (toLowerCase (PolymarketMarket.question market))
            (toLowerCase (CoinPrice.symbol p)) ||
   includes (toLowerCase (PolymarketMarket.question market))
            (toLowerCase (CoinPrice.id p)))%bool.

Definition scanLogDetails (d2 Nd2 mktPrice modelFair : R) : string :=
  ("d2:" ++ toFixed rt d2 6 ++ " N(d2):" ++ toFixed rt Nd2 5 ++
   " sigma_b:" ++ toFixed rt SIGMA_B 3 ++ " mkt:" ++ toFixed rt mktPrice 1 ++
   "% model:" ++ toFixed rt modelFair 1 ++ "%")%string.

Definition edgeLogDetails (side : Side) (divergence modelFair mktPrice : R) : string :=
  (sideName side ++ " edge:" ++ toFixed rt (Rabs divergence) 2 ++
   "% model:" ++ toFixed rt modelFair 2 ++ "% mkt:" ++ toFixed rt mktPrice 2 ++ "%")%string.

Definition skipLogDetails (divergence : R) : string :=
  ("edge:" ++ toFixed rt (Rabs divergence) 2 ++ "% < " ++
   NumberToString rt EDGE_THRESHOLD ++ "% threshold")%string.

(** One turn of the [for] loop of [scanForEdge]: the signals and the log
    entries it pushes.  [sigma], [T] and [r] stand for the constants
    [SIGMA], [T_EXP] and [R_FREE]. *)
Definition scanMarketWith (sigma T r : R) (prices : list CoinPrice.t)
    (market : PolymarketMarket.t) : list EdgeSignal.t * list TradingLog.t :=
  let yesPrice := fst (parseOutcomePrices (PolymarketMarket.outcomePrices market)) in
  if Rle_dec yesPrice 0.02 then ([], [])
  else if Rge_dec yesPrice 0.98 then ([], [])
  else
    let mktPrice := yesPrice * 100 in
    let matchedCoin := find (matchesCoin market) prices in
    let S := match matchedCoin with Some c => CoinPrice.usd c | None => 66235 end in
    let asset := match matchedCoin with
                 | Some c => CoinPrice.symbol c
                 | None => "BTC"%string
                 end in
    let pt := priceBinary sigma T r in
    let d2 := pt_d2 pt in
    let Nd2 := pt_Nd2 pt in
    let modelFair := pt_modelFair pt in
    let divergence := modelFair - mktPrice in
    let scanLog := TradingLog.mk SCAN (Some asset)
                     (scanLogDetails d2 Nd2 mktPrice modelFair) in
    if Rge_dec (Rabs divergence) EDGE_THRESHOLD then
      let side := if Rgt_dec divergence 0 then BUY else SELL in
      ([EdgeSignal.mk asset market modelFair mktPrice divergence side d2 Nd2],
       [scanLog;
        TradingLog.mk TRADE (Some asset)
          (edgeLogDetails side divergence modelFair mktPrice)])
    else
      ([],
       [scanLog; TradingLog.mk SKIP (Some asset) (skipLogDetails divergence)]).

Definition scanMarket := scanMarketWith SIGMA T_EXP R_FREE.

Fixpoint scanLoopWith (sigma T r : R) (prices : list CoinPrice.t)
    (markets : list PolymarketMarket.t)
    (signals : list EdgeSignal.t) (logs : list TradingLog.t)
    : list EdgeSignal.t * list TradingLog.t :=
  match markets with
  | [] => (signals, logs)
  | market :: rest =>
      let '(s, l) := scanMarketWith sigma T r prices market in
      scanLoopWith sigma T r prices rest (signals ++ s) (logs ++ l)
  end.

(** [scanForEdge]: [Promise.all] rejects as soon as one of the two fetches
    does, and nothing in [scanForEdge] catches it.  [firstToReject] says
    which rejection came first when both fetches reject. *)
Definition scanForEdgeWith (sigma T r : R) (firstToReject : Fetcher)
    (fetchPrices : Outcome (list CoinPrice.t))
    (fetchCategorizedMarkets : Outcome CategorizedMarkets)
    : Outcome (list EdgeSignal.t * list TradingLog.t) :=
  (fetched <- Promise_all firstToReject fetchPrices fetchCategorizedMarkets ;;
   let '(prices, markets) := fetched in
   Returned (scanLoopWith sigma T r prices (crypto markets) [] []))%outcome.

Definition scanForEdge := scanForEdgeWith SIGMA T_EXP R_FREE.

(** ** Position sizing *)

(** [x.toFixed(digits)] for a number that may be [NaN]. *)
Definition toFixedOf (v : option R) (digits : nat) : string :=
  match v with
  | Some x => toFixed rt x digits
  | None => "NaN"%string
  end.

(** Exposure of the open orders: the first loop of [sizePositions].  One
    order whose size or price reads as [NaN] makes the total [NaN]. *)
Definition openExposure (openOrders : list OpenOrder.t) : option R :=
  fold_left
    (fun totalExposure order =>
       nanAdd totalExposure
              (nanMul (OpenOrder.original_size order) (OpenOrder.price order)))
    openOrders (Some 0).

(** Kelly fraction: f* = (p*b - q) / b where p=model prob, b=odds, q=1-p *)
Definition kellyRawOf (signal : EdgeSignal.t) : R :=
  let p := EdgeSignal.modelFair signal / 100 in
  let mktP := EdgeSignal.mktPrice signal / 100 in
  let b := match EdgeSignal.side signal with
           | BUY => 1 / mktP - 1
           | SELL => 1 / (1 - mktP) - 1
           end in
  let q := 1 - p in
  (p * b - q) / b.

Definition kellyFractionOf (signal : EdgeSignal.t) : R :=
  Rmax 0 (Rmin (kellyRawOf signal * KELLY_FRACTION) MAX_POSITION_PCT).

Definition sizeUSDOf (balance : R) (signal : EdgeSignal.t) : R :=
  Rmin (balance * kellyFractionOf signal) (balance * MAX_POSITION_PCT).

Definition executionPriceOf (signal : EdgeSignal.t) : R :=
  let mktP := EdgeSignal.mktPrice signal / 100 in
  match EdgeSignal.side signal with
  | BUY => mktP
  | SELL => 1 - mktP
  end.

Definition sharesOf (balance : R) (signal : EdgeSignal.t) : R :=
  Math_floor (sizeUSDOf balance signal / executionPriceOf signal).

Definition haltLogDetails (totalExposure : option R) (balance : R) : string :=
  ("Max exposure reached: " ++
   toFixedOf (nanMul (nanDiv totalExposure (Some balance)) (Some 100)) 1 ++ "%")%string.

(** The [for (const signal of signals)] loop of [sizePositions]; the first
    branch is its [break], the two skips are its [continue]s. *)
Fixpoint sizeLoop (balance : R) (signals : list EdgeSignal.t)
    (totalExposure : option R) (positions : list SizedPosition.t)
    (logs : list TradingLog.t)
    : list SizedPosition.t * list TradingLog.t * option R :=
  match signals with
  | [] => (positions, logs, totalExposure)
  | signal :: rest =>
      if nanGe totalExposure (balance * MAX_TOTAL_EXPOSURE_PCT) then
        (positions,
         logs ++ [TradingLog.mk HALT None (haltLogDetails totalExposure balance)],
         totalExposure)
      else
        let kellyFraction := kellyFractionOf signal in
        if Rle_dec kellyFraction 0 then
          sizeLoop balance rest totalExposure positions logs
        else
          let sizeUSD := sizeUSDOf balance signal in
          let shares := sharesOf balance signal in
          if Rle_dec shares 0 then
            sizeLoop balance rest totalExposure positions logs
          else
            sizeLoop balance rest (nanAdd totalExposure (Some sizeUSD))
              (positions ++ [SizedPosition.mk signal kellyFraction sizeUSD shares])
              logs
  end.

(** The exposure the sizing loop starts from: the open orders' when the
    lookup answers, [0] when it throws (the [catch] block is empty). *)
Definition seededExposure (getOpenOrders : Outcome (list OpenOrder.t)) : option R :=
  try_catch (openOrders <- getOpenOrders ;; Returned (openExposure openOrders))%outcome
            (fun _ => Some 0).

(** [balanceData.balance], read outside the [try] of the balance fetch: a
    TypeError when the body of the answer is [null]. *)
Definition readBalance (balanceData : option ClobBalance) : Outcome (option R) :=
  match balanceData with
  | Some data => Returned (balance data)
  | None => Threw (Error "Cannot read properties of null (reading 'balance')")
  end.

(** [sizePositions], with the running exposure it ends with as a third
    component (a local of the source, kept to state the caps). *)
Definition sizePositionsState
    (getClobBalance : Outcome (option ClobBalance))
    (getOpenOrders : Outcome (list OpenOrder.t))
    (signals : list EdgeSignal.t)
    : Outcome (list SizedPosition.t * list TradingLog.t * option R) :=
  match getClobBalance with
  | Threw _ =>
      Returned ([], [TradingLog.mk ERROR None "Failed to fetch CLOB balance"], Some 0)
  | Returned balanceData =>
      (parsed <- readBalance balanceData ;;
       let balance := or0 parsed in
       if Rle_dec balance 0 then
         Returned ([], [TradingLog.mk HALT None "Zero trading balance"], Some 0)
       else
         Returned (sizeLoop balance signals (seededExposure getOpenOrders) [] []))%outcome
  end.

Definition sizePositions
    (getClobBalance : Outcome (option ClobBalance))
    (getOpenOrders : Outcome (list OpenOrder.t))
    (signals : list EdgeSignal.t)
    : Outcome (list SizedPosition.t * list TradingLog.t) :=
  (state <- sizePositionsState getClobBalance getOpenOrders signals ;;
   Returned (fst state))%outcome.

(** ** Execution *)

Definition orderOf (pos : SizedPosition.t) : ClobOrder.t :=
  let signal := SizedPosition.signal pos in
  let yesPrice :=
    fst (parseOutcomePrices (PolymarketMarket.outcomePrices (EdgeSignal.market signal))) in
  let price := match EdgeSignal.side signal with
               | BUY => yesPrice
               | SELL => 1 - yesPrice
               end in
  ClobOrder.mk (PolymarketMarket.id (EdgeSignal.market signal))
               (Math_round (price * 100) / 100)
               (SizedPosition.shares pos)
               (EdgeSignal.side signal).

Definition tradeLogDetails (pos : SizedPosition.t) (orderID : string) : string :=
  let signal := SizedPosition.signal pos in
  let yesPrice :=
    fst (parseOutcomePrices (PolymarketMarket.outcomePrices (EdgeSignal.market signal))) in
  let price := match EdgeSignal.side signal with
               | BUY => yesPrice
               | SELL => 1 - yesPrice
               end in
  (sideName (EdgeSignal.side signal) ++ " @" ++ toFixed rt (price * 100) 0 ++
   "c $" ++ NumberToString rt (Math_round (SizedPosition.sizeUSD pos)) ++
   " edge:" ++ toFixed rt (Rabs (EdgeSignal.divergence signal)) 2 ++
   "% kelly:" ++ toFixed rt (SizedPosition.kellyFraction pos * 100) 1 ++
   "% orderID:" ++ orderID)%string.

(** The loop of [executeTrades].  [placeOrder n order] is what the [n]-th
    call of the batch settles with; [n] counts the calls made so far. *)
Fixpoint executeLoop (placeOrder : nat -> ClobOrder.t -> Outcome ClobOrderResponse.t)
    (n : nat) (positions : list SizedPosition.t)
    (results : list TradeResult.t) (logs : list TradingLog.t)
    : list TradeResult.t * list TradingLog.t :=
  match positions with
  | [] => (results, logs)
  | pos :: rest =>
      let asset := EdgeSignal.asset (SizedPosition.signal pos) in
      match placeOrder n (orderOf pos) with
      | Returned response =>
          executeLoop placeOrder (S n) rest
            (results ++ [TradeResult.mk pos (ClobOrderResponse.orderID response)
                                        (ClobOrderResponse.status response)])
            (logs ++ [TradingLog.mk TRADE (Some asset)
                        (tradeLogDetails pos (ClobOrderResponse.orderID response))])
      | Threw err =>
          executeLoop placeOrder (S n) rest results
            (logs ++ [TradingLog.mk ERROR (Some asset)
                        ("Order failed: " ++ messageOf err)%string])
      end
  end.

Definition executeTrades (placeOrder : nat -> ClobOrder.t -> Outcome ClobOrderResponse.t)
    (positions : list SizedPosition.t) : list TradeResult.t * list TradingLog.t :=
  executeLoop placeOrder 0 positions [] [].

(** ** Monitoring *)

Definition monitorLogDetails (order : OpenOrder.t) : string :=
  let entryPrice := OpenOrder.price order in
  let sizeMatched := OpenOrder.size_matched order in
  ("Monitoring " ++ OpenOrder.asset_id order ++ " " ++ sideName (OpenOrder.side order) ++
   " @" ++ toFixedOf (nanMul entryPrice (Some 100)) 0 ++
   "c matched:" ++ toFixedOf sizeMatched 0)%string.

Fixpoint monitorLoop (openOrders : list OpenOrder.t) (logs : list TradingLog.t)
    : list TradingLog.t :=
  match openOrders with
  | [] => logs
  | order :: rest =>
      if nanGt (OpenOrder.size_matched order) 0 then
        monitorLoop rest (logs ++ [TradingLog.mk SCAN None (monitorLogDetails order)])
      else monitorLoop rest logs
  end.

Definition monitorPositions (getOpenOrders : Outcome (list OpenOrder.t))
    : list TradingLog.t :=
  try_catch (openOrders <- getOpenOrders ;; Returned (monitorLoop openOrders []))%outcome
            (fun err => [TradingLog.mk ERROR None
                           ("Monitor failed: " ++ messageOf err)%string]).

(** ** Full cycle *)

(** What the external calls of one cycle settle with.  [getOpenOrders] is
    called twice in a cycle that reaches monitoring: by [sizePositions]
    first, by [monitorPositions] second.  The body of the balance answer is
    [None] when it is [null]. *)
Record World : Type := {
  fetchPrices : Outcome (list CoinPrice.t);
  fetchCategorizedMarkets : Outcome CategorizedMarkets;
  firstToReject : Fetcher;
  getClobBalance : Outcome (option ClobBalance);
  getOpenOrders : nat -> Outcome (list OpenOrder.t);
  placeOrder : nat -> ClobOrder.t -> Outcome ClobOrderResponse.t
}.

Definition runTradingCycle (w : World) : Outcome (list TradingLog.t) :=
  (scan <- scanForEdge (firstToReject w) (fetchPrices w) (fetchCategorizedMarkets w) ;;
   let '(signals, scanLogs) := scan in
   let allLogs := scanLogs in
   if Nat.eqb (List.length signals) 0%nat then
     Returned (allLogs ++ [TradingLog.mk SKIP None "No edge signals found"])
   else
     sized <- sizePositions (getClobBalance w) (getOpenOrders w 0%nat) signals ;;
     let '(positions, sizeLogs) := sized in
     let allLogs := allLogs ++ sizeLogs in
     if Nat.eqb (List.length positions) 0%nat then
       Returned (allLogs ++
                 [TradingLog.mk SKIP None
                    "No positions sized (risk limits or zero balance)"])
     else
       let '(_, execLogs) := executeTrades (placeOrder w) positions in
       let allLogs := allLogs ++ execLogs in
       let monitorLogs := monitorPositions (getOpenOrders w 1%nat) in
       Returned (allLogs ++ monitorLogs))%outcome.

End Engine.

(** ** Quoting arithmetic of the treasury page ([derived]) *)

(** Step 6-7: logit transform. *)
Definition logit (p_t : R) : R := ln (p_t / (1 - p_t)).

(** Step 8: A-S half-spread. *)
Definition delta_x (gamma sigma_b T k : R) : R :=
  gamma * sigma_b * sigma_b * T / 2 + (1 / gamma) * ln (1 + gamma / k).

(** Step 9: bid/ask probabilities. *)
Definition p_bid (x_t delta : R) : R := 1 / (1 + exp (- (x_t - delta))).
Definition p_ask (x_t delta : R) : R := 1 / (1 + exp (- (x_t + delta))).

Definition logistic (x : R) : R := 1 / (1 + exp (- x)).

(** ** Vocabulary of the statements *)

(** The pieces of [normalCDF]: its polynomial in [t], its [z] and [t], and
    the product that is subtracted from 1. *)
Definition ASpoly (t : R) : R :=
  ((((1.061405429 * t + -1.453152027) * t + 1.421413741) * t + -0.284496736) * t
   + 0.254829592) * t.
Definition ASz (x : R) : R := Rabs x / sqrt 2.
Definition ASt (x : R) : R := 1 / (1 + 0.3275911 * ASz x).
Definition AStail (x : R) : R := ASpoly (ASt x) * exp (- ASz x * ASz x).

Definition binary_d2 (sigma T r : R) : R := pt_d2 (priceBinary sigma T r).

(** The yes-price [scanForEdge] reads from a market, and the asset it
    matches it to. *)
Definition yesPriceOf (rt : JsRuntime) (market : PolymarketMarket.t) : R :=
  fst (parseOutcomePrices rt (PolymarketMarket.outcomePrices market)).

Definition assetOf (prices : list CoinPrice.t) (market : PolymarketMarket.t) : string :=
  match find (matchesCoin market) prices with
  | Some c => CoinPrice.symbol c
  | None => "BTC"%string
  end.

(** Price text that is not valid JSON, or whose two entries both convert to
    [NaN] under [Number] ([null] has no entries to read: indexing it
    throws). *)
Definition notNumbers (rt : JsRuntime) (raw : string) : Prop :=
  JSON_parse rt raw = None \/
  exists arr, JSON_parse rt raw = Some arr /\
    (arr = JNull \/
     exists a0 a1, js_index arr 0 = Returned a0 /\ js_index arr 1 = Returned a1 /\
                   Number rt a0 = None /\ Number rt a1 = None).

Definition totalSizeUSD (positions : list SizedPosition.t) : R :=
  fold_right (fun pos acc => SizedPosition.sizeUSD pos + acc) 0 positions.

(** The HALT entry of a pass that has reached the cap with the exposure
    [totalExposure], a number. *)
Definition haltLog (rt : JsRuntime) (totalExposure balance : R) : TradingLog.t :=
  TradingLog.mk HALT None
    ("Max exposure reached: " ++ toFixed rt (totalExposure / balance * 100) 1 ++ "%")%string.

(** A signal the sizing loop keeps when it goes on: a positive Kelly
    fraction and at least one share. *)
Definition sizable (balance : R) (signal : EdgeSignal.t) : bool :=
  if Rle_dec (kellyFractionOf signal) 0 then false
  else if Rle_dec (sharesOf balance signal) 0 then false else true.

(** The position the sizing loop pushes for a signal it keeps. *)
Definition positionOf (balance : R) (signal : EdgeSignal.t) : SizedPosition.t :=
  SizedPosition.mk signal (kellyFractionOf signal) (sizeUSDOf balance signal)
                   (sharesOf balance signal).

(** The Kelly rule in the words of the specification: the raw fraction
    [kelly* = (p*b - q) / b] and the clamp to an interval. *)
Definition kellyStar (side : Side) (p mktP : R) : R :=
  let b := match side with BUY => 1 / mktP - 1 | SELL => 1 / (1 - mktP) - 1 end in
  let q := 1 - p in
  (p * b - q) / b.

Definition clamp (lo hi x : R) : R :=
  if Rlt_dec x lo then lo else if Rlt_dec hi x then hi else x.

Definition isAction (a : Action) (log : TradingLog.t) : bool :=
  Action_eqb (TradingLog.action log) a.

Definition orderFailedLog (pos : SizedPosition.t) (err : Exn) : TradingLog.t :=
  TradingLog.mk ERROR (Some (EdgeSignal.asset (SizedPosition.signal pos)))
                ("Order failed: " ++ messageOf err)%string.

Definition balanceFailedLog : TradingLog.t :=
  TradingLog.mk ERROR None "Failed to fetch CLOB balance".

Definition noPositionsLog : TradingLog.t :=
  TradingLog.mk SKIP None "No positions sized (risk limits or zero balance)".

(** ** Sample data *)

(** The price text [["0.45", "0.55"]], whose two entries are strings. *)
Definition dquote : string := String "034"%char EmptyString.

Definition quotedPrices : string :=
  ("[" ++ dquote ++ "0.45" ++ dquote ++ ", " ++ dquote ++ "0.55" ++ dquote ++ "]")%string.

(** A runtime that reads the price texts of the examples, converts the two
    numeric strings among them, and prints every number as [#]. *)
Definition sampleRuntime : JsRuntime := {|
  JSON_parse := fun raw =>
    if String.eqb raw "[0.45,0.55]" then Some (JArr [JNum 0.45; JNum 0.55])
    else if String.eqb raw "[0.10,0.90]" then Some (JArr [JNum 0.10; JNum 0.90])
    else if String.eqb raw "[0.50,0.50]" then Some (JArr [JNum 0.50; JNum 0.50])
    else if String.eqb raw quotedPrices then Some (JArr [JStr "0.45"; JStr "0.55"])
    else None;
  StringToNumber := fun s =>
    if String.eqb s "0.45" then Some 0.45
    else if String.eqb s "0.55" then Some 0.55
    else None;
  NumberToString := fun _ => "#"%string;
  toFixed := fun _ _ => "#"%string
|}.

Definition exampleMarket (outcomePrices : string) : PolymarketMarket.t :=
  PolymarketMarket.mk "token-1" "Will Bitcoin close higher today?" outcomePrices
                      "1000" "500" "2026-01-01" true.

Definition exampleSignal (modelFair mktPrice : R) (side : Side) : EdgeSignal.t :=
  EdgeSignal.mk "BTC" (exampleMarket "[0.50,0.50]") modelFair mktPrice
                (modelFair - mktPrice) side 0 0.5.

(** Seven signals sized at the 5% cap, one at 4%, one more at the cap. *)
Definition nineSignals : list EdgeSignal.t :=
  repeat (exampleSignal 90 50 BUY) 7 ++
  [exampleSignal 58 50 BUY; exampleSignal 90 50 BUY].

Definition twoPositions : list SizedPosition.t :=
  [positionOf 100 (exampleSignal 90 50 BUY); positionOf 100 (exampleSignal 58 50 BUY)].

(** A venue that refuses the second order of a batch and accepts the others. *)
Definition secondOrderRefused (n : nat) (order : ClobOrder.t)
    : Outcome ClobOrderResponse.t :=
  match n with
  | 1%nat => Threw (Error "CLOB POST /order failed (400)")
  | _ => Returned (ClobOrderResponse.mk "order-1" "live")
  end.


(** * The collaborators of the engine

    The functions the engine calls ([fetchPrices], [fetchCategorizedMarkets]
    and [pickBestMarket] of src/lib/market-api.ts; [getConfig], [clobFetch],
    [placeOrder], [getOpenOrders] and [getClobBalance] of
    src/lib/polymarket-clob.ts), the route that calls it (POST
    /api/treasury/trade) with the store it writes (lib/execution-log-store)
    and the route that reads the store, and the helpers of the treasury page
    ([findBtcMarket], [computeFlowMetrics], [derived]).

    Further conventions.
    - [Date.now()] is an argument, in integer milliseconds.
    - A module-level cache is an argument and a component of the result.
    - [fetch] is what it settles with: it throws, or answers with a status
      and a body that may fail to parse.  The body is carried at the type the
      source asserts for it.
    - [RegExp.test] on the two tables of patterns of market-api.ts, the HMAC
      of the crypto module and [JSON.stringify] are parameters.
    - [Math.random()] is an argument. *)

(** [l] with some elements removed, the others in their order. *)
Inductive subsequence {A : Type} : list A -> list A -> Prop :=
| subsequence_nil : subsequence [] []
| subsequence_skip x l l' : subsequence l l' -> subsequence l (x :: l')
| subsequence_keep x l l' : subsequence l l' -> subsequence (x :: l) (x :: l').

(** [v || d] for a number that may be [NaN]: [NaN] and [0] both give [d]. *)
Definition orDefault (d : R) (v : option R) : R :=
  match v with
  | Some x => if Req_dec_T x 0 then d else x
  | None => d
  end.

(** [!s] for a string that may be [undefined] or [null]. *)
Definition falsy (s : option string) : bool :=
  match s with
  | None => true
  | Some t => String.eqb t ""
  end.

(** What [fetch] settles with. *)
Inductive Fetched (J : Type) : Type :=
| NetworkError (e : Exn)
| Response (status : Z) (json : Outcome J).

Arguments NetworkError {J} e.
Arguments Response {J} status json.

(** [res.ok] *)
Definition res_ok (status : Z) : bool := ((200 <=? status) && (status <=? 299))%Z.

Record Cache (A : Type) : Type := {
  data : A;
  ts : Z
}.

Arguments data {A} c.
Arguments ts {A} c.

Module MarketApi.

Inductive MarketCategory : Type := Crypto | AI | Sports | Politics.

Record GammaEvent : Type := {
  title : option string;
  slug : string;
  volume : string;
  markets : option (list PolymarketMarket.t)
}.

(** One entry of the CoinGecko answer, [json[id]]. *)
Record CoinQuote : Type := {
  usd : option R;
  usd_24h_change : option R;
  usd_24h_vol : option R
}.

Definition SYMBOL_MAP : list (string * string) :=
  [("bitcoin", "BTC"); ("ethereum", "ETH"); ("solana", "SOL"); ("ripple", "XRP");
   ("pax-gold", "GOLD")]%string.

Definition PER_CATEGORY : nat := 3.

Definition allCategories : list MarketCategory := [Crypto; AI; Sports; Politics].

Definition emptyResult : CategorizedMarkets :=
  {| crypto := []; ai := []; sports := []; politics := [] |}.

(** [result[cat]] and [result[cat].push(m)] *)
Definition getCategory (result : CategorizedMarkets) (cat : MarketCategory)
    : list PolymarketMarket.t :=
  match cat with
  | Crypto => crypto result
  | AI => ai result
  | Sports => sports result
  | Politics => politics result
  end.

Definition pushCategory (result : CategorizedMarkets) (cat : MarketCategory)
    (m : PolymarketMarket.t) : CategorizedMarkets :=
  match cat with
  | Crypto => {| crypto := crypto result ++ [m]; ai := ai result;
                 sports := sports result; politics := politics result |}
  | AI => {| crypto := crypto result; ai := ai result ++ [m];
             sports := sports result; politics := politics result |}
  | Sports => {| crypto := crypto result; ai := ai result;
                 sports := sports result ++ [m]; politics := politics result |}
  | Politics => {| crypto := crypto result; ai := ai result;
                   sports := sports result; politics := politics result ++ [m] |}
  end.

Section WithRuntime.

Variable rt : JsRuntime.

(** [BLOCKLIST.test(title)] and [CATEGORY_ALLOW[cat].test(title)] *)
Variable BLOCKLIST_test : string -> bool.
Variable CATEGORY_ALLOW_test : MarketCategory -> string -> bool.

(** The [try] block of [pickBestMarket]. *)
Definition pickYes_try (raw : string) : Outcome R :=
  (prices <- JSON_parse_call rt raw ;;
   p0 <- js_index prices 0 ;;
   Returned (or0 (Number rt p0)))%outcome.

(** The score of a market whose yes-price is [yes].  The volume of a market
    is carried as text; a numeric volume stands for its decimal text. *)
Definition scoreOf (yes : R) (m : PolymarketMarket.t) : R :=
  let vol := or0 (StringToNumber rt (PolymarketMarket.volume m)) in
  let balance := 1 - Rabs (yes - 0.5) * 2 in
  balance * 0.7 + Rmin (vol / 10000000) 1.0 * 0.3.

Fixpoint pickBestLoop (mkts : list PolymarketMarket.t)
    (best : option PolymarketMarket.t) (bestScore : R) : option PolymarketMarket.t :=
  match mkts with
  | [] => best
  | m :: rest =>
      match pickYes_try (PolymarketMarket.outcomePrices m) with
      | Threw _ => pickBestLoop rest best bestScore
      | Returned yes =>
          if Rle_dec yes 0.02 then pickBestLoop rest best bestScore
          else if Rge_dec yes 0.98 then pickBestLoop rest best bestScore
          else
            let score := scoreOf yes m in
            if Rgt_dec score bestScore then pickBestLoop rest (Some m) score
            else pickBestLoop rest best bestScore
      end
  end.

(** Pick the most balanced, highest-volume market from an event. Skips
    lopsided (>98 or <2). *)
Definition pickBestMarket (mkts : list PolymarketMarket.t) : option PolymarketMarket.t :=
  pickBestLoop mkts None (-1).

(** The inner [for (const cat of ...)] of [fetchCategorizedMarkets]; pushing
    a market is its [break]. *)
Fixpoint categorizeInto (cats : list MarketCategory) (title : string)
    (evtMarkets : list PolymarketMarket.t) (result : CategorizedMarkets)
    : CategorizedMarkets :=
  match cats with
  | [] => result
  | cat :: more =>
      if Nat.leb PER_CATEGORY (List.length (getCategory result cat)) then
        categorizeInto more title evtMarkets result
      else if negb (CATEGORY_ALLOW_test cat title) then
        categorizeInto more title evtMarkets result
      else
        match pickBestMarket evtMarkets with
        | Some best => pushCategory result cat best
        | None => categorizeInto more title evtMarkets result
        end
  end.

Definition titleOf (evt : GammaEvent) : string :=
  match title evt with
  | Some t => t
  | None => ""%string
  end.

Definition marketsOf (evt : GammaEvent) : list PolymarketMarket.t :=
  match markets evt with
  | Some l => l
  | None => []
  end.

(** The outer [for (const evt of events)]. *)
Fixpoint categorizeEvents (events : list GammaEvent) (result : CategorizedMarkets)
    : CategorizedMarkets :=
  match events with
  | [] => result
  | evt :: rest =>
      if BLOCKLIST_test (titleOf evt) then categorizeEvents rest result
      else categorizeEvents rest
             (categorizeInto allCategories (titleOf evt) (marketsOf evt) result)
  end.

(** The [try] block of [fetchCategorizedMarkets]: the value returned and
    the cache it leaves. *)
Definition fetchCategorizedMarkets_try
    (polyGrouped : option (Cache CategorizedMarkets)) (now : Z)
    (http : Fetched (list GammaEvent))
    : Outcome (CategorizedMarkets * option (Cache CategorizedMarkets)) :=
  match http with
  | NetworkError e => Threw e
  | Response status json =>
      match (if Z.eqb status 429 then polyGrouped else None) with
      | Some c => Returned (data c, polyGrouped)
      | None =>
          if negb (res_ok status) then
            Threw (Error ("Polymarket events " ++ NumberToString rt (IZR status))%string)
          else
            (events <- json ;;
             let result := categorizeEvents events emptyResult in
             Returned (result, Some {| data := result; ts := now |}))%outcome
      end
  end.

(** [fetchCategorizedMarkets]: [now1] is the clock at the freshness test,
    [now2] the clock when the cache is written. *)
Definition fetchCategorizedMarkets
    (polyGrouped : option (Cache CategorizedMarkets)) (now1 now2 : Z)
    (http : Fetched (list GammaEvent))
    : Outcome CategorizedMarkets * option (Cache CategorizedMarkets) :=
  match (match polyGrouped with
         | Some c => if (now1 - ts c <? 60000)%Z then Some c else None
         | None => None
         end) with
  | Some c => (Returned (data c), polyGrouped)
  | None =>
      match fetchCategorizedMarkets_try polyGrouped now2 http with
      | Returned (result, cache) => (Returned result, cache)
      | Threw err =>
          match polyGrouped with
          | Some c => (Returned (data c), polyGrouped)
          | None => (Threw err, polyGrouped)
          end
      end
  end.

(** One coin of the list [fetchPrices] builds from the answer. *)
Definition coinOf (json : string -> option CoinQuote) (entry : string * string)
    : CoinPrice.t :=
  let '(id, symbol) := entry in
  CoinPrice.mk id symbol
    (match json id with
     | Some q => match usd q with Some x => x | None => 0 end
     | None => 0
     end)
    (match json id with Some q => usd_24h_change q | None => None end)
    (match json id with Some q => usd_24h_vol q | None => None end).

(** The [try] block of [fetchPrices].  An answer that parses to [null]
    throws at [json[id]] and is carried as a body that failed to parse. *)
Definition fetchPrices_try (prices : option (Cache (list CoinPrice.t))) (now : Z)
    (http : Fetched (string -> option CoinQuote))
    : Outcome (list CoinPrice.t * option (Cache (list CoinPrice.t))) :=
  match http with
  | NetworkError e => Threw e
  | Response status json =>
      match (if Z.eqb status 429 then prices else None) with
      | Some c => Returned (data c, prices)
      | None =>
          if negb (res_ok status) then
            Threw (Error ("CoinGecko " ++ NumberToString rt (IZR status))%string)
          else
            (answer <- json ;;
             let coins := map (coinOf answer) SYMBOL_MAP in
             Returned (coins, Some {| data := coins; ts := now |}))%outcome
      end
  end.

Definition fetchPrices (prices : option (Cache (list CoinPrice.t))) (now1 now2 : Z)
    (http : Fetched (string -> option CoinQuote))
    : Outcome (list CoinPrice.t) * option (Cache (list CoinPrice.t)) :=
  match (match prices with
         | Some c => if (now1 - ts c <? 30000)%Z then Some c else None
         | None => None
         end) with
  | Some c => (Returned (data c), prices)
  | None =>
      match fetchPrices_try prices now2 http with
      | Returned (coins, cache) => (Returned coins, cache)
      | Threw err =>
          match prices with
          | Some c => (Returned (data c), prices)
          | None => (Threw err, prices)
          end
      end
  end.

End WithRuntime.

End MarketApi.

(** ** polymarket-clob.ts *)

Module Clob.

Definition CLOB_BASE_URL : string := "https://clob.polymarket.com".

(** [process.env], the four variables the client reads. *)
Record Env : Type := {
  POLYMARKET_CLOB_API_KEY : option string;
  POLYMARKET_CLOB_SECRET : option string;
  POLYMARKET_CLOB_PASSPHRASE : option string;
  POLYMARKET_PROXY_WALLET : option string
}.

Record ClobConfig : Type := {
  apiKey : string;
  secret : string;
  passphrase : string;
  proxyWallet : string
}.

Record Request : Type := {
  url : string;
  method : string;
  headers : list (string * string);
  body : option string
}.

(** The answer of the venue: [res.status], [await res.text()] and
    [res.json()]. *)
Record Answer (A : Type) : Type := {
  status : Z;
  text : string;
  json : Outcome A
}.

Arguments status {A} a.
Arguments text {A} a.
Arguments json {A} a.

(** The crypto module and [JSON.stringify]. *)
Record Platform : Type := {
  (** [createHmac('sha256', Buffer.from(secret, 'base64')).update(message).digest('base64')] *)
  hmac_sha256_base64 : string -> string -> string;
  JSON_stringify : JsValue -> string
}.

Definition missingCredentials : string :=
  "Missing Polymarket CLOB credentials. Set POLYMARKET_CLOB_API_KEY, POLYMARKET_CLOB_SECRET, POLYMARKET_CLOB_PASSPHRASE, POLYMARKET_PROXY_WALLET.".

Definition getConfig (env : Env) : Outcome ClobConfig :=
  if (falsy (POLYMARKET_CLOB_API_KEY env) || falsy (POLYMARKET_CLOB_SECRET env) ||
      falsy (POLYMARKET_CLOB_PASSPHRASE env) || falsy (POLYMARKET_PROXY_WALLET env))%bool
  then Threw (Error missingCredentials)
  else
    match POLYMARKET_CLOB_API_KEY env, POLYMARKET_CLOB_SECRET env,
          POLYMARKET_CLOB_PASSPHRASE env, POLYMARKET_PROXY_WALLET env with
    | Some k, Some s, Some p, Some w =>
        Returned {| apiKey := k; secret := s; passphrase := p; proxyWallet := w |}
    | _, _, _, _ => Threw (Error missingCredentials)
    end.

Section WithPlatform.

Variable rt : JsRuntime.
Variable platform : Platform.
Variable env : Env.

Definition createHmacSignature (secret timestamp method path body : string) : string :=
  hmac_sha256_base64 platform secret (timestamp ++ method ++ path ++ body)%string.

(** [clobFetch]: [now] is the clock, [fetch] what the network does with the
    request. *)
Definition clobFetch {A : Type} (now : Z) (fetch : Request -> Outcome (Answer A))
    (method path : string) (body : option JsValue) : Outcome (Answer A) :=
  (config <- getConfig env ;;
   let timestamp := NumberToString rt (IZR (now / 1000)) in
   let bodyStr := match body with
                  | Some b => JSON_stringify platform b
                  | None => ""%string
                  end in
   let signature := createHmacSignature (secret config) timestamp method path bodyStr in
   let headers := [("Content-Type", "application/json");
                   ("POLY-API-KEY", apiKey config);
                   ("POLY-SIGNATURE", signature);
                   ("POLY-TIMESTAMP", timestamp);
                   ("POLY-PASSPHRASE", passphrase config)]%string in
   res <- fetch {| url := (CLOB_BASE_URL ++ path)%string;
                   method := method;
                   headers := headers;
                   body := if String.eqb bodyStr "" then None else Some bodyStr |} ;;
   if negb (res_ok (status res)) then
     Threw (Error ("CLOB " ++ method ++ " " ++ path ++ " failed (" ++
                   NumberToString rt (IZR (status res)) ++ "): " ++ text res)%string)
   else Returned res)%outcome.

(** The body of the POST of [placeOrder]; an order of the engine carries no
    expiration, so [order.expiration || 0] is 0. *)
Definition orderBody (order : ClobOrder.t) : JsValue :=
  JObj [("tokenID", JStr (ClobOrder.tokenID order));
        ("price", JNum (ClobOrder.price order));
        ("size", JNum (ClobOrder.size order));
        ("side", JStr (sideName (ClobOrder.side order)));
        ("expiration", JNum 0)]%string.

Definition placeOrder (now : Z)
    (fetch : Request -> Outcome (Answer ClobOrderResponse.t)) (order : ClobOrder.t)
    : Outcome ClobOrderResponse.t :=
  (res <- clobFetch now fetch "POST" "/order" (Some (orderBody order)) ;;
   json res)%outcome.

Definition getOpenOrders (now : Z)
    (fetch : Request -> Outcome (Answer (list OpenOrder.t))) (market : option string)
    : Outcome (list OpenOrder.t) :=
  let path := match market with
              | Some m => if String.eqb m "" then "/orders" else "/orders?market=" ++ m
              | None => "/orders"
              end%string in
  (res <- clobFetch now fetch "GET" path None ;;
   json res)%outcome.

Definition getClobBalance (now : Z)
    (fetch : Request -> Outcome (Answer (option ClobBalance)))
    : Outcome (option ClobBalance) :=
  (res <- clobFetch now fetch "GET" "/balance" None ;;
   json res)%outcome.

End WithPlatform.

(** What the network does in one cycle, call by call. *)
Record Network : Type := {
  balanceClock : Z;
  balanceFetch : Request -> Outcome (Answer (option ClobBalance));
  ordersClock : nat -> Z;
  ordersFetch : nat -> Request -> Outcome (Answer (list OpenOrder.t));
  orderClock : nat -> Z;
  orderFetch : nat -> Request -> Outcome (Answer ClobOrderResponse.t)
}.

End Clob.

(** The world of a cycle that reaches the venue through the client. *)
Definition clientWorld (rt : JsRuntime) (platform : Clob.Platform) (env : Clob.Env)
    (net : Clob.Network) (firstToReject : Fetcher)
    (prices : Outcome (list CoinPrice.t)) (markets : Outcome CategorizedMarkets)
    : World := {|
  fetchPrices := prices;
  fetchCategorizedMarkets := markets;
  firstToReject := firstToReject;
  getClobBalance :=
    Clob.getClobBalance rt platform env (Clob.balanceClock net) (Clob.balanceFetch net);
  getOpenOrders := fun n =>
    Clob.getOpenOrders rt platform env (Clob.ordersClock net n) (Clob.ordersFetch net n) None;
  placeOrder := fun n order =>
    Clob.placeOrder rt platform env (Clob.orderClock net n) (Clob.orderFetch net n) order
|}.

(** ** lib/execution-log-store *)

Module ExecutionLogStore.

Record PositionEntry : Type := {
  asset : string;
  side : string;
  price : string;
  size : string;
  sizeMatched : string;
  status : string
}.

(** The two module variables of the store. *)
Record Store : Type := {
  _lastLogs : list TradingLog.t;
  _lastPositions : list PositionEntry
}.

(** The store of a process that has run no cycle. *)
Definition initial : Store := {| _lastLogs := []; _lastPositions := [] |}.

Definition setExecutionLogs (logs : list TradingLog.t) (positions : list PositionEntry)
    (store : Store) : Store :=
  {| _lastLogs := logs; _lastPositions := positions |}.

Definition getExecutionLogs (store : Store) : list TradingLog.t * list PositionEntry :=
  (_lastLogs store, _lastPositions store).

End ExecutionLogStore.

(** ** POST /api/treasury/trade and GET /api/treasury/execution-logs *)

Module TradeRoute.

Record Summary : Type := {
  trades : nat;
  skips : nat;
  errors : nat;
  totalLogs : nat
}.

Inductive Body : Type :=
| Unauthorized                                              (* { error: 'Unauthorized' } *)
| Success (summary : Summary) (logs : list TradingLog.t)    (* { success: true, ... } *)
| Failed (error : string).                                  (* { error } *)

Record Reply : Type := {
  status : Z;
  body : Body
}.

Definition countAction (a : Action) (logs : list TradingLog.t) : nat :=
  List.length (filter (isAction a) logs).

(** [POST]: the reply, and the store it leaves. *)
Definition POST (rt : JsRuntime) (authorization : option string)
    (CRON_SECRET : option string) (w : World) (store : ExecutionLogStore.Store)
    : Reply * ExecutionLogStore.Store :=
  let refused :=
    match CRON_SECRET with
    | None => true
    | Some cronSecret =>
        (String.eqb cronSecret "" ||
         match authorization with
         | Some authHeader => negb (String.eqb authHeader ("Bearer " ++ cronSecret))
         | None => true
         end)%bool
    end in
  if refused then ({| status := 401; body := Unauthorized |}, store)
  else
    match runTradingCycle rt w with
    | Returned logs =>
        let store := ExecutionLogStore.setExecutionLogs logs [] store in
        ({| status := 200;
            body := Success {| trades := countAction TRADE logs;
                               skips := countAction SKIP logs;
                               errors := countAction ERROR logs;
                               totalLogs := List.length logs |} logs |},
         store)
    | Threw err =>
        ({| status := 500;
            body := Failed (match err with
                            | Error message => message
                            | Thrown => "Trading cycle failed"%string
                            end) |},
         store)
    end.

(** [GET] of the execution-logs route: the body of its reply. *)
Definition GET (store : ExecutionLogStore.Store)
    : list TradingLog.t * list ExecutionLogStore.PositionEntry :=
  ExecutionLogStore.getExecutionLogs store.

End TradeRoute.

(** ** The treasury page *)

Module TreasuryPage.

Definition FALLBACK_MKT_PRICE : R := 53.78.

(** A trade of the feed; [price] and [size] are what [Number] reads from
    them, [None] for [NaN]. *)
Record PolymarketTrade : Type := {
  price : option R;
  size : option R;
  side : Side;
  timestamp : R;
  title : string;
  slug : string;
  outcome : string
}.

Inductive FlowDirection : Type := BULLISH | BEARISH | NEUTRAL.

Record RecentTrade : Type := {
  rt_price : option R;
  rt_size : option R;
  rt_side : string;
  rt_ts : string
}.

Record OrderFlowMetrics : Type := {
  takerBuyCount : nat;
  takerSellCount : nat;
  takerBuyVolume : R;
  takerSellVolume : R;
  totalTrades : nat;
  takerBuyRatio : R;
  flowDirection : FlowDirection;
  makerEdgeEstimate : R;
  recentTrades : list RecentTrade
}.

(** [/btc|bitcoin/i.test(question)] *)
Definition isBtcQuestion (question : string) : bool :=
  (includes (toLowerCase question) "btc" || includes (toLowerCase question) "bitcoin")%bool.

(** The [for (const t of trades)] loop of [computeFlowMetrics]. *)
Fixpoint flowLoop (trades : list PolymarketTrade)
    (takerBuyCount takerSellCount : nat) (takerBuyVolume takerSellVolume : R)
    : nat * nat * R * R :=
  match trades with
  | [] => (takerBuyCount, takerSellCount, takerBuyVolume, takerSellVolume)
  | t :: rest =>
      let size := or0 (size t) in
      match side t with
      | BUY => flowLoop rest (S takerBuyCount) takerSellCount
                        (takerBuyVolume + size) takerSellVolume
      | SELL => flowLoop rest takerBuyCount (S takerSellCount)
                         takerBuyVolume (takerSellVolume + size)
      end
  end.

Section WithRuntime.

Variable rt : JsRuntime.

(** Find a BTC-related Polymarket question, return Yes price as % *)
Definition findBtcMarket (markets : option CategorizedMarkets) : option R :=
  match markets with
  | None => None
  | Some m =>
      match find (fun mk => isBtcQuestion (PolymarketMarket.question mk)) (crypto m) with
      | None => None
      | Some found =>
          let yes := fst (parseOutcomePrices rt (PolymarketMarket.outcomePrices found)) in
          if Rgt_dec yes 0 then Some (yes * 100) else None
      end
  end.

(** Compute OrderFlowMetrics from raw trades *)
Definition computeFlowMetrics (trades : list PolymarketTrade) : OrderFlowMetrics :=
  let '(takerBuyCount, takerSellCount, takerBuyVolume, takerSellVolume) :=
    flowLoop trades 0%nat 0%nat 0 0 in
  let totalVolume := takerBuyVolume + takerSellVolume in
  let takerBuyRatio :=
    if Rgt_dec totalVolume 0 then takerBuyVolume / totalVolume else 0.5 in
  let flowDirection :=
    if Rgt_dec takerBuyRatio 0.55 then BULLISH
    else if Rlt_dec takerBuyRatio 0.45 then BEARISH else NEUTRAL in
  let avgPrice :=
    if Nat.ltb 0 (List.length trades) then
      fold_left (fun s t => s + orDefault 0.5 (price t)) trades 0
      / INR (List.length trades)
    else 0.5 in
  let distFrom50 := Rabs (avgPrice - 0.5) in
  let makerEdgeEstimate := 0.77 + (distFrom50 / 0.5) * (1.25 - 0.77) in
  let recentTrades :=
    map (fun t => {| rt_price := price t; rt_size := size t;
                     rt_side := sideName (side t);
                     rt_ts := NumberToString rt (timestamp t) |})
        (firstn 8 trades) in
  {| takerBuyCount := takerBuyCount;
     takerSellCount := takerSellCount;
     takerBuyVolume := takerBuyVolume;
     takerSellVolume := takerSellVolume;
     totalTrades := List.length trades;
     takerBuyRatio := takerBuyRatio;
     flowDirection := flowDirection;
     makerEdgeEstimate := makerEdgeEstimate;
     recentTrades := recentTrades |}.

(** The six [Math.random()] draws of one evaluation of [derived], in the
    order they are made. *)
Record Draws : Type := {
  u_sigma : R;
  u_sigma_b : R;
  u_lambda_jump : R;
  u_mu_J : R;
  u_q_inv : R;
  u_S : R
}.

(** Micro-noise for live visualization *)
Definition jitter (u base scale : R) : R := base + (u - 0.5) * 2 * scale.

Record Derived : Type := {
  d_S : R; d_K : R; d_d2 : R; d_Nd2 : R; d_C_bin : R; d_p_t : R; d_x_t : R;
  d_delta_x : R; d_p_bid : R; d_p_ask : R; d_model_fair : R; d_mkt_price : R;
  d_divergence : R; d_signal : Action; d_fee : R;
  d_sigma : R; d_sigma_b : R; d_lambda_jump : R; d_mu_J : R; d_q_inv : R
}.

(** The body of the [useMemo] of [derived]. *)
Definition derived (draws : Draws) (prices : option (list CoinPrice.t))
    (polymarkets : option CategorizedMarkets) : Derived :=
  let sigma := jitter (u_sigma draws) SIGMA 0.005 in
  let sigma_b := jitter (u_sigma_b draws) SIGMA_B 0.003 in
  let lambda_jump := jitter (u_lambda_jump draws) 2.46 0.05 in
  let mu_J := jitter (u_mu_J draws) 0.071 0.003 in
  let q_inv := Math_round (jitter (u_q_inv draws) (-1187) 15) in
  let btc := match prices with
             | Some l => find (fun c => String.eqb (CoinPrice.symbol c) "BTC") l
             | None => None
             end in
  let S := jitter (u_S draws)
             (match btc with Some c => CoinPrice.usd c | None => 66235 end) 8 in
  let K := S in
  let sqrtT := sqrt T_EXP in
  let d2 := (R_FREE - 0.5 * sigma * sigma) * T_EXP / (sigma * sqrtT) in
  let Nd2 := normalCDF d2 in
  let C_bin := exp (- R_FREE * T_EXP) * Nd2 in
  let p_t := C_bin in
  let x_t := ln (p_t / (1 - p_t)) in
  let delta_x := GAMMA * sigma_b * sigma_b * T_EXP / 2
                 + (1 / GAMMA) * ln (1 + GAMMA / K_DECAY) in
  let p_bid := 1 / (1 + exp (- (x_t - delta_x))) in
  let p_ask := 1 / (1 + exp (- (x_t + delta_x))) in
  let model_fair := C_bin * 100 in
  let mkt_price := match findBtcMarket polymarkets with
                   | Some yes => yes
                   | None => FALLBACK_MKT_PRICE
                   end in
  let divergence := model_fair - mkt_price in
  let signal := if Rgt_dec (Rabs divergence) EDGE_THRESHOLD then TRADE else SKIP in
  let fee := (p_t * (1 - p_t) + 0.0625) * 100 in
  {| d_S := S; d_K := K; d_d2 := d2; d_Nd2 := Nd2; d_C_bin := C_bin; d_p_t := p_t;
     d_x_t := x_t; d_delta_x := delta_x; d_p_bid := p_bid; d_p_ask := p_ask;
     d_model_fair := model_fair; d_mkt_price := mkt_price;
     d_divergence := divergence; d_signal := signal; d_fee := fee;
     d_sigma := sigma; d_sigma_b := sigma_b; d_lambda_jump := lambda_jump;
     d_mu_J := mu_J; d_q_inv := q_inv |}.

End WithRuntime.

End TreasuryPage.

(** ** Vocabulary of the further statements *)

(** The markets a scan prices: those that pass the yes-price filter. *)
Definition isPriced (rt : JsRuntime) (market : PolymarketMarket.t) : bool :=
  if Rle_dec (yesPriceOf rt market) 0.02 then false
  else if Rge_dec (yesPriceOf rt market) 0.98 then false else true.

Definition scannedMarkets (rt : JsRuntime) (markets : list PolymarketMarket.t)
    : list PolymarketMarket.t :=
  filter (isPriced rt) markets.

(** The priced markets whose divergence reaches the threshold. *)
Definition hasEdge (rt : JsRuntime) (market : PolymarketMarket.t) : bool :=
  if Rge_dec (Rabs (fairValue SIGMA T_EXP R_FREE - yesPriceOf rt market * 100))
             EDGE_THRESHOLD
  then true else false.

(** The action and the asset of the two entries a priced market adds to the
    log of a scan. *)
Definition scanEntries (rt : JsRuntime) (prices : list CoinPrice.t)
    (market : PolymarketMarket.t) : list (Action * option string) :=
  [(SCAN, Some (assetOf prices market));
   (if hasEdge rt market then TRADE else SKIP, Some (assetOf prices market))].

Definition entryOf (log : TradingLog.t) : Action * option string :=
  (TradingLog.action log, TradingLog.asset log).

(** The edge rule in the words of the specification.  The divergence of a
    market is the fair value minus its market price, in percentage points;
    a market with an edge gives one signal, BUY when the divergence is
    positive and SELL otherwise; a priced market without one gives the SKIP
    entry that records the edge found and the threshold it missed. *)
Definition divergenceOf (rt : JsRuntime) (market : PolymarketMarket.t) : R :=
  fairValue SIGMA T_EXP R_FREE - yesPriceOf rt market * 100.

Definition expectedSignal (rt : JsRuntime) (prices : list CoinPrice.t)
    (market : PolymarketMarket.t) : EdgeSignal.t :=
  EdgeSignal.mk (assetOf prices market) market
                (fairValue SIGMA T_EXP R_FREE) (yesPriceOf rt market * 100)
                (divergenceOf rt market)
                (if Rgt_dec (divergenceOf rt market) 0 then BUY else SELL)
                (binary_d2 SIGMA T_EXP R_FREE)
                (normalCDF (binary_d2 SIGMA T_EXP R_FREE)).

Definition subThresholdLog (rt : JsRuntime) (prices : list CoinPrice.t)
    (market : PolymarketMarket.t) : TradingLog.t :=
  TradingLog.mk SKIP (Some (assetOf prices market))
    ("edge:" ++ toFixed rt (Rabs (divergenceOf rt market)) 2 ++ "% < " ++
     NumberToString rt 3 ++ "% threshold")%string.

(** The positions of a batch, each with the number of its call to the
    venue, and what an order that is accepted or refused leaves behind. *)
Definition numbered {A : Type} (l : list A) : list (nat * A) :=
  combine (seq 0 (List.length l)) l.

Definition acceptedResult (rt : JsRuntime)
    (placeOrder : nat -> ClobOrder.t -> Outcome ClobOrderResponse.t)
    (call : nat * SizedPosition.t) : list TradeResult.t :=
  match placeOrder (fst call) (orderOf rt (snd call)) with
  | Returned response =>
      [TradeResult.mk (snd call) (ClobOrderResponse.orderID response)
                      (ClobOrderResponse.status response)]
  | Threw _ => []
  end.

(** A market [pickBestMarket] may pick: its yes-price reads as [yes], strictly
    inside (0.02, 0.98). *)
Definition eligible (rt : JsRuntime) (m : PolymarketMarket.t) (yes : R) : Prop :=
  MarketApi.pickYes_try rt (PolymarketMarket.outcomePrices m) = Returned yes /\
  0.02 < yes < 0.98.

(** A market listed under [cat] comes from an event of the answer: one whose
    title is not blocked and matches the category, of which it is the best
    market. *)
Definition sourcedFrom (rt : JsRuntime) (BLOCKLIST_test : string -> bool)
    (CATEGORY_ALLOW_test : MarketApi.MarketCategory -> string -> bool)
    (events : list MarketApi.GammaEvent) (cat : MarketApi.MarketCategory)
    (m : PolymarketMarket.t) : Prop :=
  exists evt,
    In evt events /\
    BLOCKLIST_test (MarketApi.titleOf evt) = false /\
    CATEGORY_ALLOW_test cat (MarketApi.titleOf evt) = true /\
    MarketApi.pickBestMarket rt (MarketApi.marketsOf evt) = Some m.

Definition totalListed (result : CategorizedMarkets) : nat :=
  (List.length (crypto result) + List.length (ai result) +
   List.length (sports result) + List.length (politics result))%nat.

(** The price [executeTrades] asks for a position, before rounding. *)
Definition askedPrice (rt : JsRuntime) (pos : SizedPosition.t) : R :=
  let signal := SizedPosition.signal pos in
  match EdgeSignal.side signal with
  | BUY => yesPriceOf rt (EdgeSignal.market signal)
  | SELL => 1 - yesPriceOf rt (EdgeSignal.market signal)
  end.

(** The log entry of one order: for an accepted order a TRADE entry that
    quotes the side, the price asked in cents, the size in whole USD, the
    edge, the Kelly fraction and the order id the venue answered with; for a
    refused one an ERROR entry with the message of the error. *)
Definition orderLog (rt : JsRuntime)
    (placeOrder : nat -> ClobOrder.t -> Outcome ClobOrderResponse.t)
    (call : nat * SizedPosition.t) : TradingLog.t :=
  let pos := snd call in
  let signal := SizedPosition.signal pos in
  match placeOrder (fst call) (orderOf rt pos) with
  | Returned response =>
      TradingLog.mk TRADE (Some (EdgeSignal.asset signal))
        (sideName (EdgeSignal.side signal) ++ " @" ++
         toFixed rt (askedPrice rt pos * 100) 0 ++ "c $" ++
         NumberToString rt (Math_round (SizedPosition.sizeUSD pos)) ++ " edge:" ++
         toFixed rt (Rabs (EdgeSignal.divergence signal)) 2 ++ "% kelly:" ++
         toFixed rt (SizedPosition.kellyFraction pos * 100) 1 ++ "% orderID:" ++
         ClobOrderResponse.orderID response)%string
  | Threw err =>
      TradingLog.mk ERROR (Some (EdgeSignal.asset signal))
                    ("Order failed: " ++ messageOf err)%string
  end.

(** What a signal of the edge detector satisfies. *)
Definition wellFormedSignal (signal : EdgeSignal.t) : Prop :=
  2 < EdgeSignal.mktPrice signal < 98 /\
  EdgeSignal.modelFair signal = fairValue SIGMA T_EXP R_FREE /\
  EdgeSignal.divergence signal = EdgeSignal.modelFair signal - EdgeSignal.mktPrice signal /\
  EDGE_THRESHOLD <= Rabs (EdgeSignal.divergence signal) /\
  EdgeSignal.side signal = (if Rgt_dec (EdgeSignal.divergence signal) 0 then BUY else SELL).

(** What a sized position satisfies on a balance. *)
Definition wellSizedPosition (balance : R) (pos : SizedPosition.t) : Prop :=
  let signal := SizedPosition.signal pos in
  0 < SizedPosition.kellyFraction pos <= MAX_POSITION_PCT /\
  SizedPosition.sizeUSD pos = balance * SizedPosition.kellyFraction pos /\
  (exists n : Z, (1 <= n)%Z /\ SizedPosition.shares pos = IZR n) /\
  SizedPosition.shares pos * executionPriceOf signal <= SizedPosition.sizeUSD pos /\
  SizedPosition.sizeUSD pos < (SizedPosition.shares pos + 1) * executionPriceOf signal.

(** An open order with a matched size, as [monitorPositions] tests it. *)
Definition isMatched (order : OpenOrder.t) : bool :=
  nanGt (OpenOrder.size_matched order) 0.

Definition noSignalsLog : TradingLog.t :=
  TradingLog.mk SKIP None "No edge signals found".

Definition zeroBalanceLog : TradingLog.t :=
  TradingLog.mk HALT None "Zero trading balance".

Definition monitorFailedLog (err : Exn) : TradingLog.t :=
  TradingLog.mk ERROR None ("Monitor failed: " ++ messageOf err)%string.

(** Sample data of the further statements. *)

(** A runtime that reads every price text as the pair [[yes, no]]. *)
Definition constantRuntime (yes no : R) : JsRuntime := {|
  JSON_parse := fun _ => Some (JArr [JNum yes; JNum no]);
  StringToNumber := fun _ => None;
  NumberToString := fun _ => "#"%string;
  toFixed := fun _ _ => "#"%string
|}.

(** A cycle whose only market is quoted at the model's fair value, and whose
    venue is down. *)
Definition quietWorld : World := {|
  fetchPrices := Returned [];
  fetchCategorizedMarkets :=
    Returned {| crypto := [exampleMarket "[0.50,0.50]"]; ai := []; sports := [];
                politics := [] |};
  firstToReject := PricesFetcher;
  getClobBalance := Threw (Error "CLOB GET /balance failed (503): ");
  getOpenOrders := fun _ => Threw (Error "CLOB GET /orders failed (503): ");
  placeOrder := fun _ _ => Threw (Error "CLOB POST /order failed (503): ")
|}.

(** A cycle whose only market is quoted at 0.45, and whose venue is down. *)
Definition edgeWorld : World := {|
  fetchPrices := Returned [];
  fetchCategorizedMarkets :=
    Returned {| crypto := [exampleMarket "[0.45,0.55]"]; ai := []; sports := [];
                politics := [] |};
  firstToReject := PricesFetcher;
  getClobBalance := Threw (Error "CLOB GET /balance failed (503): ");
  getOpenOrders := fun _ => Threw (Error "CLOB GET /orders failed (503): ");
  placeOrder := fun _ _ => Threw (Error "CLOB POST /order failed (503): ")
|}.

Definition fullCredentials : Clob.Env := {|
  Clob.POLYMARKET_CLOB_API_KEY := Some "key"%string;
  Clob.POLYMARKET_CLOB_SECRET := Some "c2VjcmV0"%string;
  Clob.POLYMARKET_CLOB_PASSPHRASE := Some "pass"%string;
  Clob.POLYMARKET_PROXY_WALLET := Some "0xabc"%string
|}.

(** A venue that accepts every order. *)
Definition acceptingFetch (req : Clob.Request)
    : Outcome (Clob.Answer ClobOrderResponse.t) :=
  Returned {| Clob.status := 200; Clob.text := "";
              Clob.json := Returned (ClobOrderResponse.mk "order-1" "live") |}.

Definition noCredentials : Clob.Env := {|
  Clob.POLYMARKET_CLOB_API_KEY := None;
  Clob.POLYMARKET_CLOB_SECRET := Some "c2VjcmV0"%string;
  Clob.POLYMARKET_CLOB_PASSPHRASE := Some "pass"%string;
  Clob.POLYMARKET_PROXY_WALLET := Some "0xabc"%string
|}.

Definition samplePlatform : Clob.Platform := {|
  Clob.hmac_sha256_base64 := fun _ _ => "sig"%string;
  Clob.JSON_stringify := fun _ => "{}"%string
|}.

Definition sampleNetwork : Clob.Network := {|
  Clob.balanceClock := 0%Z;
  Clob.balanceFetch := fun _ => Threw Thrown;
  Clob.ordersClock := fun _ => 0%Z;
  Clob.ordersFetch := fun _ _ => Threw Thrown;
  Clob.orderClock := fun _ => 0%Z;
  Clob.orderFetch := fun _ _ => Threw Thrown
|}.

Definition sampleTrades : list TreasuryPage.PolymarketTrade := [
  {| TreasuryPage.price := Some 0.6; TreasuryPage.size := Some 10;
     TreasuryPage.side := BUY; TreasuryPage.timestamp := 1700000000;
     TreasuryPage.title := "Will Bitcoin close higher today?";
     TreasuryPage.slug := "btc-up"; TreasuryPage.outcome := "Yes" |};
  {| TreasuryPage.price := None; TreasuryPage.size := Some 30;
     TreasuryPage.side := SELL; TreasuryPage.timestamp := 1700000060;
     TreasuryPage.title := "Will Bitcoin close higher today?";
     TreasuryPage.slug := "btc-up"; TreasuryPage.outcome := "Yes" |}
]%string.

Definition evenDraws : TreasuryPage.Draws := {|
  TreasuryPage.u_sigma := 0.5; TreasuryPage.u_sigma_b := 0.5;
  TreasuryPage.u_lambda_jump := 0.5; TreasuryPage.u_mu_J := 0.5;
  TreasuryPage.u_q_inv := 0.5; TreasuryPage.u_S := 0.5
|}.

(** * Properties *)

(** Splits on the first real-number test the goal branches on, closing the
    branch that contradicts the hypotheses. *)
Ltac split_guard :=
  match goal with
  | |- context [if ?c then _ else _] => destruct c; try lra
  end.

(** ** The normal CDF approximation *)

Section NormalCDF.

Lemma ASpoly_nonneg t : 0 <= t -> 0 <= ASpoly t.
Proof.
  intros Ht. unfold ASpoly.
  apply Rmult_le_pos; [|assumption].
  nra.
Qed.

(** [1 - ASpoly t] factors as [1e-9 + (1 - t) * R t] with [R] positive on
    the unit interval. *)
Lemma ASpoly_le_1 t : 0 <= t <= 1 -> ASpoly t <= 1.
Proof.
  intros [H0 H1]. unfold ASpoly.
  set (R4 := 0.999999999 + 0.745170407 * t
             + t * t * (1.029667143 - 0.391746598 * t) + 1.061405429 * (t * t * t * t)).
  assert (E : 1 - ((((1.061405429 * t + -1.453152027) * t + 1.421413741) * t
                    + -0.284496736) * t + 0.254829592) * t
              = 0.000000001 + (1 - t) * R4) by (unfold R4; nra).
  assert (0 <= t * t) by nra.
  assert (0 <= t * t * t * t) by nra.
  assert (0 <= t * t * (1.029667143 - 0.391746598 * t)) by (apply Rmult_le_pos; lra).
  assert (0 <= (1 - t) * R4) by (apply Rmult_le_pos; unfold R4; lra).
  lra.
Qed.

(** The divided difference of [ASpoly] is positive on the unit square. *)
Lemma ASpoly_mono s t : 0 <= s -> s <= t -> t <= 1 -> ASpoly s <= ASpoly t.
Proof.
  intros Hs Hst Ht. unfold ASpoly.
  set (G := 0.254829592 + -0.284496736 * (t + s) + 1.421413741 * (t * t + t * s + s * s)
            + -1.453152027 * ((t + s) * (t * t + s * s))
            + 1.061405429 * (t * t * t * t + t * t * t * s + t * t * s * s
                             + t * s * s * s + s * s * s * s)).
  assert (E : ((((1.061405429 * t + -1.453152027) * t + 1.421413741) * t
                + -0.284496736) * t + 0.254829592) * t
              - ((((1.061405429 * s + -1.453152027) * s + 1.421413741) * s
                  + -0.284496736) * s + 0.254829592) * s
              = (t - s) * G) by (unfold G; nra).
  assert (HG : 0 <= G) by (unfold G; nra).
  assert (0 <= (t - s) * G) by (apply Rmult_le_pos; lra).
  lra.
Qed.

Lemma sqrt2_pos : 0 < sqrt 2.
Proof. apply sqrt_lt_R0; lra. Qed.

Lemma sqrt2_ge_1 : 1 <= sqrt 2.
Proof. rewrite <- sqrt_1 at 1. apply sqrt_le_1; lra. Qed.

Lemma ASz_nonneg x : 0 <= ASz x.
Proof.
  unfold ASz. apply Rmult_le_pos; [apply Rabs_pos|].
  left; apply Rinv_0_lt_compat, sqrt2_pos.
Qed.

Lemma ASz_sqr x : ASz x * ASz x = x * x / 2.
Proof.
  unfold ASz.
  assert (H2 := sqrt_sqrt 2 ltac:(lra)).
  assert (Hp := sqrt2_pos).
  assert (Ha : Rabs x * Rabs x = x * x).
  { unfold Rabs; destruct (Rcase_abs x); lra. }
  replace (Rabs x / sqrt 2 * (Rabs x / sqrt 2))
    with ((Rabs x * Rabs x) / (sqrt 2 * sqrt 2)) by (field; lra).
  rewrite Ha, H2. reflexivity.
Qed.

Lemma ASz_le x y : Rabs x <= Rabs y -> ASz x <= ASz y.
Proof.
  intros H. unfold ASz.
  apply Rmult_le_compat_r; [|assumption].
  left; apply Rinv_0_lt_compat, sqrt2_pos.
Qed.

Lemma ASt_range x : 0 < ASt x <= 1.
Proof.
  unfold ASt. assert (Hz := ASz_nonneg x).
  assert (Hd : 1 <= 1 + 0.3275911 * ASz x) by nra.
  split.
  - apply Rdiv_lt_0_compat; lra.
  - assert (H : / (1 + 0.3275911 * ASz x) <= / 1) by (apply Rinv_le_contravar; lra).
    rewrite Rinv_1 in H. unfold Rdiv. lra.
Qed.

Lemma ASt_antitone x y : ASz x <= ASz y -> ASt y <= ASt x.
Proof.
  intros H. unfold ASt.
  assert (Hx := ASz_nonneg x).
  unfold Rdiv. rewrite !Rmult_1_l.
  apply Rinv_le_contravar; nra.
Qed.

Lemma exp_le_1 u : u <= 0 -> exp u <= 1.
Proof.
  intros [Hu | ->]; [|rewrite exp_0; lra].
  left. rewrite <- exp_0. apply exp_increasing; assumption.
Qed.

Lemma exp_le_mono u v : u <= v -> exp u <= exp v.
Proof.
  intros [H | ->]; [left; apply exp_increasing; assumption | lra].
Qed.

Lemma AStail_range x : 0 <= AStail x <= exp (- (x * x / 2)).
Proof.
  unfold AStail.
  destruct (ASt_range x) as [Ht0 Ht1].
  assert (Hp0 := ASpoly_nonneg (ASt x) ltac:(lra)).
  assert (Hp1 := ASpoly_le_1 (ASt x) ltac:(lra)).
  replace (- ASz x * ASz x) with (- (x * x / 2)) by (rewrite <- ASz_sqr; lra).
  assert (He := exp_pos (- (x * x / 2))).
  split; nra.
Qed.

Lemma AStail_le_1 x : AStail x <= 1.
Proof.
  destruct (AStail_range x) as [_ H].
  eapply Rle_trans; [exact H|]. apply exp_le_1. nra.
Qed.

Lemma AStail_antitone x y : Rabs x <= Rabs y -> AStail y <= AStail x.
Proof.
  intros H. unfold AStail.
  assert (Hz := ASz_le _ _ H).
  assert (Hx := ASz_nonneg x).
  destruct (ASt_range y) as [Hy0 Hy1]. destruct (ASt_range x) as [Hx0 Hx1].
  assert (Ht := ASt_antitone _ _ Hz).
  assert (Hp := ASpoly_mono (ASt y) (ASt x) ltac:(lra) Ht Hx1).
  assert (Hpy := ASpoly_nonneg (ASt y) ltac:(lra)).
  assert (He : exp (- ASz y * ASz y) <= exp (- ASz x * ASz x)) by (apply exp_le_mono; nra).
  assert (He0 := exp_pos (- ASz y * ASz y)).
  apply Rmult_le_compat; lra.
Qed.

(** Close to the origin the subtracted product is close to 1. *)
Lemma AStail_near_0 d : Rabs d <= 0.001 -> 0.996 <= AStail d.
Proof.
  intros Hd. unfold AStail.
  assert (Hz0 := ASz_nonneg d).
  assert (Hz : ASz d <= 0.001).
  { unfold ASz. assert (H2 := sqrt2_ge_1).
    assert (Hi : / sqrt 2 <= / 1) by (apply Rinv_le_contravar; lra).
    rewrite Rinv_1 in Hi. assert (Ha := Rabs_pos d). unfold Rdiv. nra. }
  destruct (ASt_range d) as [Ht0 Ht1].
  assert (Ht : 0.999 <= ASt d).
  { unfold ASt.
    assert (H : / (1 + 0.3275911 * 0.001) <= / (1 + 0.3275911 * ASz d))
      by (apply Rinv_le_contravar; nra).
    assert (H' : 0.999 <= / (1 + 0.3275911 * 0.001)).
    { assert (Hp : 0 < 1 + 0.3275911 * 0.001) by lra.
      assert (Hi := Rinv_r (1 + 0.3275911 * 0.001) ltac:(lra)).
      assert (Hip := Rinv_0_lt_compat _ Hp).
      nra. }
    unfold Rdiv. lra. }
  assert (Hp := ASpoly_mono 0.999 (ASt d) ltac:(lra) Ht Ht1).
  assert (Hp9 : 0.9965 <= ASpoly 0.999) by (unfold ASpoly; lra).
  assert (He := exp_ineq1_le (- ASz d * ASz d)).
  assert (He1 : exp (- ASz d * ASz d) <= 1) by (apply exp_le_1; nra).
  assert (He9 : 0.999999 <= exp (- ASz d * ASz d)) by nra.
  assert (Hp1 := ASpoly_le_1 (ASt d) ltac:(lra)).
  nra.
Qed.

Lemma normalCDF_neg x : x < 0 -> normalCDF x = 0.5 * AStail x.
Proof.
  intros Hx. unfold normalCDF, AStail, ASpoly, ASt, ASz.
  destruct (Rlt_dec x 0); [|contradiction]. lra.
Qed.

Lemma normalCDF_nonneg x : 0 <= x -> normalCDF x = 1 - 0.5 * AStail x.
Proof.
  intros Hx. unfold normalCDF, AStail, ASpoly, ASt, ASz.
  destruct (Rlt_dec x 0); lra.
Qed.

Lemma normalCDF_range x : 0 <= normalCDF x <= 1.
Proof.
  destruct (AStail_range x) as [H0 _]. assert (H1 := AStail_le_1 x).
  destruct (Rlt_dec x 0) as [Hx | Hx].
  - rewrite normalCDF_neg by assumption. lra.
  - rewrite normalCDF_nonneg by lra. lra.
Qed.

Lemma normalCDF_mono x y : x <= y -> normalCDF x <= normalCDF y.
Proof.
  intros Hxy.
  destruct (Rlt_dec x 0) as [Hx | Hx]; destruct (Rlt_dec y 0) as [Hy | Hy].
  - rewrite !normalCDF_neg by assumption.
    assert (H := AStail_antitone y x).
    rewrite !Rabs_left in H by assumption. lra.
  - rewrite normalCDF_neg by assumption. rewrite normalCDF_nonneg by lra.
    assert (H1 := AStail_le_1 x). assert (H2 := AStail_le_1 y). lra.
  - lra.
  - rewrite !normalCDF_nonneg by lra.
    assert (H := AStail_antitone x y).
    rewrite !Rabs_right in H by lra. lra.
Qed.

End NormalCDF.

(** ** Binary pricing *)

Section Pricing.

Lemma fairValue_eq sigma T r :
  fairValue sigma T r = exp (- r * T) * normalCDF (binary_d2 sigma T r) * 100.
Proof. reflexivity. Qed.

Lemma binary_d2_eq sigma T r :
  binary_d2 sigma T r = (r - 0.5 * sigma * sigma) * T / (sigma * sqrt T).
Proof. reflexivity. Qed.

Lemma d2_scale_pos sigma T : 0 < sigma -> 0 < T -> 0 < T / (sigma * sqrt T).
Proof.
  intros Hs HT. assert (Hq := sqrt_lt_R0 T HT).
  apply Rdiv_lt_0_compat; nra.
Qed.

Lemma binary_d2_mono sigma T r1 r2 :
  0 < sigma -> 0 < T -> r1 <= r2 -> binary_d2 sigma T r1 <= binary_d2 sigma T r2.
Proof.
  intros Hs HT Hr. rewrite !binary_d2_eq.
  assert (Hk := d2_scale_pos sigma T Hs HT).
  unfold Rdiv in *. rewrite !Rmult_assoc.
  apply Rmult_le_compat_r; lra.
Qed.

Lemma d2_sqr_aux (a sigma s : R) :
  0 < sigma -> 0 < s ->
  a * (s * s) / (sigma * s) * (a * (s * s) / (sigma * s)) * (sigma * sigma)
  = a * a * (s * s).
Proof. intros Hs Hq. field. lra. Qed.

Lemma binary_d2_sqr sigma T r :
  0 < sigma -> 0 < T ->
  binary_d2 sigma T r * binary_d2 sigma T r * (sigma * sigma)
  = (r - 0.5 * sigma * sigma) * (r - 0.5 * sigma * sigma) * T.
Proof.
  intros Hs HT. rewrite binary_d2_eq.
  assert (Hq := sqrt_lt_R0 T HT).
  assert (Hqq := sqrt_sqrt T ltac:(lra)).
  set (s := sqrt T) in *. clearbody s.
  assert (HT' : T = s * s) by lra. rewrite HT'.
  apply d2_sqr_aux; assumption.
Qed.

(** For [r >= 0] the discount is at most 1.  For [r < 0] the drift is
    negative, and the Gaussian factor [exp (- d2^2 / 2)] of the lower tail
    outweighs the discount [exp (- r T)], because
    [(r - sigma^2/2)^2 >= - 2 r sigma^2]. *)
Lemma fairValue_range sigma T r :
  0 < sigma -> 0 < T -> 0 <= fairValue sigma T r <= 100.
Proof.
  intros Hs HT. rewrite fairValue_eq.
  set (d := binary_d2 sigma T r).
  assert (He := exp_pos (- r * T)).
  destruct (normalCDF_range d) as [HN0 HN1].
  split; [nra|].
  destruct (Rle_dec 0 r) as [Hr | Hr].
  - assert (He1 : exp (- r * T) <= 1) by (apply exp_le_1; nra).
    nra.
  - assert (Hr' : r < 0) by lra.
    assert (Hd : d < 0).
    { unfold d. rewrite binary_d2_eq.
      assert (Hk := d2_scale_pos sigma T Hs HT).
      unfold Rdiv in *. rewrite Rmult_assoc. nra. }
    rewrite (normalCDF_neg d Hd).
    destruct (AStail_range d) as [Ht0 Ht1].
    assert (Hsq := binary_d2_sqr sigma T r Hs HT). fold d in Hsq.
    assert (Hdd : - r * T - d * d / 2 <= 0).
    { assert (- 2 * r * T * (sigma * sigma) <= d * d * (sigma * sigma)).
      { rewrite Hsq.
        assert (Hq := Rle_0_sqr (r + 0.5 * sigma * sigma)). unfold Rsqr in Hq.
        assert (0 <= (r + 0.5 * sigma * sigma) * (r + 0.5 * sigma * sigma) * T)
          by (apply Rmult_le_pos; lra).
        nra. }
      assert (0 < sigma * sigma) by nra.
      assert (- 2 * r * T <= d * d) by nra. lra. }
    assert (Hprod : exp (- r * T) * exp (- (d * d / 2)) <= 1).
    { rewrite <- exp_plus. apply exp_le_1. lra. }
    nra.
Qed.

(** With volatility 0.5 and a one-year horizon, raising the rate from 0.125
    (where [d2 = 0]) to 5 lowers the fair value: the discount falls below
    [exp (-5)] while [N(d2)] cannot exceed 1. *)
Lemma fairValue_drop : fairValue SIGMA 1 5 < fairValue SIGMA 1 0.125.
Proof.
  rewrite !fairValue_eq.
  assert (Hd : binary_d2 SIGMA 1 0.125 = 0).
  { rewrite binary_d2_eq, sqrt_1. unfold SIGMA. lra. }
  rewrite Hd.
  assert (HN : 0.5 <= normalCDF 0).
  { rewrite normalCDF_nonneg by lra. assert (H := AStail_le_1 0). lra. }
  destruct (normalCDF_range (binary_d2 SIGMA 1 5)) as [_ HN5].
  assert (He : exp (- (5) * 1) = exp (- (0.125) * 1) * exp (- (4.875))).
  { rewrite <- exp_plus. f_equal. lra. }
  rewrite He.
  assert (Hp := exp_pos (- (0.125) * 1)).
  assert (Hq : exp (- (4.875)) < 0.5).
  { rewrite exp_Ropp. assert (H1 := exp_ineq1 4.875 ltac:(lra)).
    assert (/ exp 4.875 < / 2) by (apply Rinv_lt_contravar; nra). lra. }
  assert (Hq0 := exp_pos (- (4.875))).
  set (a := exp (- (0.125) * 1)) in *. set (b := exp (- (4.875))) in *.
  set (n5 := normalCDF (binary_d2 SIGMA 1 5)) in *. set (n0 := normalCDF 0) in *.
  clearbody a b n5 n0.
  assert (Hab : 0 < a * b) by (apply Rmult_lt_0_compat; lra).
  assert (a * b * n5 <= a * b * 1) by (apply Rmult_le_compat_l; lra).
  assert (a * b < a * 0.5) by (apply Rmult_lt_compat_l; lra).
  assert (a * 0.5 <= a * n0) by (apply Rmult_le_compat_l; lra).
  lra.
Qed.

Lemma sqrt_T_EXP_bound : 0 < sqrt T_EXP <= 0.0031.
Proof.
  split.
  - apply sqrt_lt_R0. unfold T_EXP. lra.
  - rewrite <- (sqrt_square 0.0031) by lra.
    apply sqrt_le_1; unfold T_EXP; lra.
Qed.

Lemma discount_shipped : 0.9999995 <= exp (- R_FREE * T_EXP) <= 1.
Proof.
  split.
  - assert (H := exp_ineq1_le (- R_FREE * T_EXP)). unfold R_FREE, T_EXP in *. lra.
  - apply exp_le_1. unfold R_FREE, T_EXP. lra.
Qed.

Lemma binary_d2_shipped : -0.001 <= binary_d2 SIGMA T_EXP R_FREE < 0.
Proof.
  rewrite binary_d2_eq.
  destruct sqrt_T_EXP_bound as [Hq0 Hq1].
  assert (Hqq := sqrt_sqrt T_EXP ltac:(unfold T_EXP; lra)).
  set (s := sqrt T_EXP) in *. clearbody s.
  rewrite <- Hqq.
  replace ((R_FREE - 0.5 * SIGMA * SIGMA) * (s * s) / (SIGMA * s))
    with ((R_FREE - 0.5 * SIGMA * SIGMA) / SIGMA * s).
  2:{ unfold SIGMA. set (a := R_FREE - _). field. lra. }
  unfold R_FREE, SIGMA.
  replace ((0.0433 - 0.5 * 0.50 * 0.50) / 0.50) with (-0.1634) by lra.
  nra.
Qed.

(** The fair value the engine computes from its constants. *)
Lemma fairValue_shipped : 49.7 <= fairValue SIGMA T_EXP R_FREE <= 50.
Proof.
  rewrite fairValue_eq.
  destruct binary_d2_shipped as [Hd0 Hd1].
  rewrite normalCDF_neg by assumption.
  assert (Ht := AStail_near_0 (binary_d2 SIGMA T_EXP R_FREE)
                  ltac:(rewrite Rabs_left by assumption; lra)).
  assert (Ht1 := AStail_le_1 (binary_d2 SIGMA T_EXP R_FREE)).
  destruct discount_shipped as [He0 He1].
  nra.
Qed.

End Pricing.

(** C5, as amended. For all sigma > 0, T > 0 and every r the fair value
    [exp (- r T) * N(d2) * 100] lies in [0, 100]; for fixed sigma and T the
    drift term [d2] and the probability [N(d2)] are non-decreasing in [r].
    (The fair value itself is not: see [fair_value_not_monotone].) *)
Theorem fair_value_range_and_drift sigma T r :
  0 < sigma -> 0 < T ->
  0 <= fairValue sigma T r <= 100 /\
  forall r', r <= r' ->
    binary_d2 sigma T r <= binary_d2 sigma T r' /\
    normalCDF (binary_d2 sigma T r) <= normalCDF (binary_d2 sigma T r').
Proof.
  intros Hs HT. split; [apply fairValue_range; assumption|].
  intros r' Hr.
  assert (Hd := binary_d2_mono sigma T r r' Hs HT Hr).
  split; [exact Hd | apply normalCDF_mono; exact Hd].
Qed.

(** C5, instance: the constants of the engine. *)
Lemma fair_value_witness :
  (0 < SIGMA /\ 0 < T_EXP) /\ 0 <= fairValue SIGMA T_EXP R_FREE <= 100.
Proof.
  assert (H : 0 < SIGMA /\ 0 < T_EXP) by (unfold SIGMA, T_EXP; lra).
  split; [exact H|]. destruct H as [H1 H2].
  exact (proj1 (fair_value_range_and_drift SIGMA T_EXP R_FREE H1 H2)).
Defined.

(** C5, as stated, fails: with sigma = 0.5 and T = 1 the fair value at
    r = 5 is strictly below the fair value at r = 0.125. *)
Lemma fair_value_not_monotone :
  0 < SIGMA /\ 0 < 1 /\ 0.125 <= 5 /\ fairValue SIGMA 1 5 < fairValue SIGMA 1 0.125.
Proof. repeat split; try (unfold SIGMA; lra). apply fairValue_drop. Qed.

(** ** Quoting *)

Section Quoting.

Lemma delta_x_pos gamma sigma_b T k :
  0 < gamma -> 0 < k -> 0 <= T -> 0 < delta_x gamma sigma_b T k.
Proof.
  intros Hg Hk HT. unfold delta_x.
  assert (H1 : 0 <= gamma * sigma_b * sigma_b * T / 2).
  { assert (0 <= sigma_b * sigma_b) by nra.
    assert (0 <= gamma * (sigma_b * sigma_b)) by (apply Rmult_le_pos; lra).
    assert (0 <= gamma * (sigma_b * sigma_b) * T) by (apply Rmult_le_pos; lra).
    lra. }
  assert (Hr : 0 < gamma / k) by (apply Rdiv_lt_0_compat; assumption).
  assert (Hl : 0 < ln (1 + gamma / k)).
  { rewrite <- ln_1. apply ln_increasing; lra. }
  assert (Hi : 0 < 1 / gamma) by (apply Rdiv_lt_0_compat; lra).
  assert (0 < 1 / gamma * ln (1 + gamma / k)) by (apply Rmult_lt_0_compat; assumption).
  lra.
Qed.

Lemma logistic_range x : 0 < logistic x < 1.
Proof.
  unfold logistic. assert (He := exp_pos (- x)).
  split.
  - apply Rdiv_lt_0_compat; lra.
  - assert (H : / (1 + exp (- x)) < / 1) by (apply Rinv_lt_contravar; lra).
    rewrite Rinv_1 in H. unfold Rdiv. lra.
Qed.

Lemma logistic_increasing x y : x < y -> logistic x < logistic y.
Proof.
  intros Hxy. unfold logistic.
  assert (Hx := exp_pos (- x)). assert (Hy := exp_pos (- y)).
  assert (He : exp (- y) < exp (- x)) by (apply exp_increasing; lra).
  unfold Rdiv. rewrite !Rmult_1_l.
  apply Rinv_lt_contravar; [|lra].
  apply Rmult_lt_0_compat; lra.
Qed.

Lemma logistic_logit p : 0 < p < 1 -> logistic (logit p) = p.
Proof.
  intros [H0 H1]. unfold logistic, logit.
  assert (Hq : 0 < p / (1 - p)) by (apply Rdiv_lt_0_compat; lra).
  rewrite exp_Ropp, exp_ln by assumption.
  field. split; lra.
Qed.

End Quoting.

(** C9. For every fair-value probability p strictly between 0 and 1 and
    every gamma > 0, k > 0, sigma_b and T >= 0, the half-spread
    [delta = gamma sigma_b^2 T / 2 + (1/gamma) ln (1 + gamma/k)] is strictly
    positive and the quotes at the logit of p shifted by -delta and +delta
    satisfy [0 < p_bid < p < p_ask < 1]. *)
Theorem quotes_bracket_fair_value (p gamma k sigma_b T : R) :
  0 < p < 1 -> 0 < gamma -> 0 < k -> 0 <= T ->
  let delta := delta_x gamma sigma_b T k in
  let x_t := logit p in
  0 < delta /\
  0 < p_bid x_t delta /\ p_bid x_t delta < p /\
  p < p_ask x_t delta /\ p_ask x_t delta < 1.
Proof.
  intros Hp Hg Hk HT delta x_t.
  assert (Hd : 0 < delta) by (apply delta_x_pos; assumption).
  assert (Hb : p_bid x_t delta = logistic (x_t - delta)) by reflexivity.
  assert (Ha : p_ask x_t delta = logistic (x_t + delta)) by reflexivity.
  assert (Hpp : logistic x_t = p) by (apply logistic_logit; assumption).
  rewrite Hb, Ha.
  destruct (logistic_range (x_t - delta)) as [Hb0 _].
  destruct (logistic_range (x_t + delta)) as [_ Ha1].
  assert (H1 := logistic_increasing (x_t - delta) x_t ltac:(lra)).
  assert (H2 := logistic_increasing x_t (x_t + delta) ltac:(lra)).
  rewrite Hpp in H1, H2. tauto.
Qed.

(** C9, instance: an even fair value quoted with the constants of the page. *)
Lemma quotes_witness :
  (0 < 0.5 < 1 /\ 0 < GAMMA /\ 0 < K_DECAY /\ 0 <= T_EXP) /\
  (0 < delta_x GAMMA SIGMA_B T_EXP K_DECAY /\
   0 < p_bid (logit 0.5) (delta_x GAMMA SIGMA_B T_EXP K_DECAY) /\
   p_bid (logit 0.5) (delta_x GAMMA SIGMA_B T_EXP K_DECAY) < 0.5 /\
   0.5 < p_ask (logit 0.5) (delta_x GAMMA SIGMA_B T_EXP K_DECAY) /\
   p_ask (logit 0.5) (delta_x GAMMA SIGMA_B T_EXP K_DECAY) < 1).
Proof.
  assert (H : 0 < 0.5 < 1 /\ 0 < GAMMA /\ 0 < K_DECAY /\ 0 <= T_EXP)
    by (unfold GAMMA, K_DECAY, T_EXP; lra).
  split; [exact H|].
  destruct H as (Hp & Hg & Hk & HT).
  exact (quotes_bracket_fair_value 0.5 GAMMA K_DECAY SIGMA_B T_EXP Hp Hg Hk HT).
Defined.

(** ** Price parsing and edge detection *)

Section Scan.

Variable rt : JsRuntime.
Variables sigma T r : R.
Variable prices : list CoinPrice.t.

(** Whatever the [try] block throws, the [catch] answers [[0, 0]]. *)
Lemma parseOutcomePrices_catches raw err :
  parseOutcomePrices_try rt raw = Threw err -> parseOutcomePrices rt raw = (0, 0).
Proof. intros H. unfold parseOutcomePrices. rewrite H. reflexivity. Qed.

Lemma notNumbers_zero raw : notNumbers rt raw -> parseOutcomePrices rt raw = (0, 0).
Proof.
  unfold parseOutcomePrices, parseOutcomePrices_try, JSON_parse_call.
  intros [Hnone | (arr & Hsome & [Hnull | (a0 & a1 & H0 & H1 & N0 & N1)])].
  - rewrite Hnone. reflexivity.
  - rewrite Hsome, Hnull. reflexivity.
  - rewrite Hsome. simpl. rewrite H0. simpl. rewrite H1. simpl. rewrite N0, N1. reflexivity.
Qed.

Lemma scanMarketWith_excluded market :
  yesPriceOf rt market <= 0.02 \/ 0.98 <= yesPriceOf rt market ->
  scanMarketWith rt sigma T r prices market = ([], []).
Proof.
  intros H. unfold scanMarketWith. fold (yesPriceOf rt market).
  destruct (Rle_dec (yesPriceOf rt market) 0.02); [reflexivity|].
  destruct (Rge_dec (yesPriceOf rt market) 0.98); [reflexivity|]. lra.
Qed.

Lemma scanMarketWith_signal market :
  0.02 < yesPriceOf rt market < 0.98 ->
  let mktPrice := yesPriceOf rt market * 100 in
  let pt := priceBinary sigma T r in
  let divergence := pt_modelFair pt - mktPrice in
  let side := if Rgt_dec divergence 0 then BUY else SELL in
  EDGE_THRESHOLD <= Rabs divergence ->
  scanMarketWith rt sigma T r prices market
  = ([EdgeSignal.mk (assetOf prices market) market (pt_modelFair pt) mktPrice divergence
                    side (pt_d2 pt) (pt_Nd2 pt)],
     [TradingLog.mk SCAN (Some (assetOf prices market))
        (scanLogDetails rt (pt_d2 pt) (pt_Nd2 pt) mktPrice (pt_modelFair pt));
      TradingLog.mk TRADE (Some (assetOf prices market))
        (edgeLogDetails rt side divergence (pt_modelFair pt) mktPrice)]).
Proof.
  intros Hy mktPrice pt divergence side Hd.
  unfold scanMarketWith. fold (yesPriceOf rt market).
  fold mktPrice. fold pt. fold divergence.
  repeat split_guard; reflexivity.
Qed.

Lemma scanMarketWith_skip market :
  0.02 < yesPriceOf rt market < 0.98 ->
  let mktPrice := yesPriceOf rt market * 100 in
  let pt := priceBinary sigma T r in
  let divergence := pt_modelFair pt - mktPrice in
  Rabs divergence < EDGE_THRESHOLD ->
  scanMarketWith rt sigma T r prices market
  = ([],
     [TradingLog.mk SCAN (Some (assetOf prices market))
        (scanLogDetails rt (pt_d2 pt) (pt_Nd2 pt) mktPrice (pt_modelFair pt));
      TradingLog.mk SKIP (Some (assetOf prices market)) (skipLogDetails rt divergence)]).
Proof.
  intros Hy mktPrice pt divergence Hd.
  unfold scanMarketWith. fold (yesPriceOf rt market).
  fold mktPrice. fold pt. fold divergence.
  repeat split_guard; reflexivity.
Qed.

(** The scan is the concatenation, in market order, of what each market adds. *)
Lemma scanLoopWith_flat_map markets : forall signals logs,
  scanLoopWith rt sigma T r prices markets signals logs
  = (signals ++ flat_map (fun m => fst (scanMarketWith rt sigma T r prices m)) markets,
     logs ++ flat_map (fun m => snd (scanMarketWith rt sigma T r prices m)) markets).
Proof.
  induction markets as [|m rest IH]; intros signals logs.
  - simpl. rewrite !app_nil_r. reflexivity.
  - simpl. destruct (scanMarketWith rt sigma T r prices m) as [s l] eqn:E.
    rewrite IH. simpl. rewrite <- !app_assoc. reflexivity.
Qed.

End Scan.

Lemma sample_yes_045 : yesPriceOf sampleRuntime (exampleMarket "[0.45,0.55]") = 0.45.
Proof. reflexivity. Qed.

Lemma sample_yes_010 : yesPriceOf sampleRuntime (exampleMarket "[0.10,0.90]") = 0.10.
Proof. reflexivity. Qed.

(** C10, as amended. Parsing the outcome-price text never throws: whatever
    the [try] block throws is answered by [[0, 0]].  When the text is not
    valid JSON, or is [null], or both of its entries convert to [NaN] under
    [Number], the result is [[0, 0]]; the yes-price 0 fails the (0.02, 0.98)
    filter, so the market adds no log entry and no signal, and a scan goes
    as if the market were not in the list. *)
Theorem malformed_prices_are_skipped rt sigma T r prices market :
  notNumbers rt (PolymarketMarket.outcomePrices market) ->
  (forall raw err,
      parseOutcomePrices_try rt raw = Threw err -> parseOutcomePrices rt raw = (0, 0)) /\
  parseOutcomePrices rt (PolymarketMarket.outcomePrices market) = (0, 0) /\
  scanMarketWith rt sigma T r prices market = ([], []) /\
  forall before after signals logs,
    scanLoopWith rt sigma T r prices (before ++ market :: after) signals logs
    = scanLoopWith rt sigma T r prices (before ++ after) signals logs.
Proof.
  intros H. pose proof (notNumbers_zero rt _ H) as Hz.
  assert (Hs : scanMarketWith rt sigma T r prices market = ([], [])).
  { apply scanMarketWith_excluded. unfold yesPriceOf. rewrite Hz. simpl. lra. }
  split; [intros raw err; apply parseOutcomePrices_catches|].
  repeat split; auto.
  intros before after signals logs.
  rewrite !scanLoopWith_flat_map, !flat_map_app. simpl. rewrite Hs. reflexivity.
Qed.

(** C10, instance: a market whose price text is [n/a]. *)
Lemma malformed_prices_witness :
  notNumbers sampleRuntime (PolymarketMarket.outcomePrices (exampleMarket "n/a")) /\
  scanMarket sampleRuntime [] (exampleMarket "n/a") = ([], []).
Proof.
  assert (H : notNumbers sampleRuntime (PolymarketMarket.outcomePrices (exampleMarket "n/a")))
    by (left; reflexivity).
  split; [exact H|].
  exact (proj1 (proj2 (proj2 (malformed_prices_are_skipped sampleRuntime SIGMA T_EXP R_FREE []
                                (exampleMarket "n/a") H)))).
Defined.

(** C10, as stated, fails: the entries of [["0.45", "0.55"]] are strings,
    not numbers; [Number] converts them, the result is [[0.45, 0.55]], and
    the market is scanned and gives a BUY signal. *)
Lemma string_entries_are_priced :
  JSON_parse sampleRuntime quotedPrices = Some (JArr [JStr "0.45"; JStr "0.55"]) /\
  parseOutcomePrices sampleRuntime quotedPrices = (0.45, 0.55) /\
  exists signal,
    fst (scanMarket sampleRuntime [] (exampleMarket quotedPrices)) = [signal] /\
    EdgeSignal.side signal = BUY.
Proof.
  split; [reflexivity|]. split; [reflexivity|].
  destruct fairValue_shipped as [Hlo Hhi].
  assert (Hy : yesPriceOf sampleRuntime (exampleMarket quotedPrices) = 0.45) by reflexivity.
  unfold scanMarket. rewrite scanMarketWith_signal.
  - eexists. split; [reflexivity|]. cbn [EdgeSignal.side].
    rewrite Hy.
    change (pt_modelFair (priceBinary SIGMA T_EXP R_FREE))
      with (fairValue SIGMA T_EXP R_FREE).
    destruct (Rgt_dec _ _); [reflexivity | lra].
  - rewrite Hy. lra.
  - rewrite Hy. unfold EDGE_THRESHOLD.
    change (pt_modelFair (priceBinary SIGMA T_EXP R_FREE))
      with (fairValue SIGMA T_EXP R_FREE).
    rewrite Rabs_right by lra. lra.
Qed.

(** ** Scanning *)

Section ScanMore.

Variable rt : JsRuntime.
Variable prices : list CoinPrice.t.

(** What one market adds to a scan. *)
Lemma scanMarket_shape market :
  let signals := fst (scanMarket rt prices market) in
  let logs := snd (scanMarket rt prices market) in
  if isPriced rt market then
    map entryOf logs = scanEntries rt prices market /\
    if hasEdge rt market then
      exists signal,
        signals = [signal] /\
        wellFormedSignal signal /\ EdgeSignal.market signal = market /\
        EdgeSignal.mktPrice signal = yesPriceOf rt market * 100 /\
        EdgeSignal.asset signal = assetOf prices market
    else signals = []
  else signals = [] /\ logs = [].
Proof using Type.
  intros signals logs. unfold signals, logs, scanMarket, isPriced, scanEntries, hasEdge.
  destruct (Rle_dec (yesPriceOf rt market) 0.02) as [Hlo | Hlo].
  { rewrite scanMarketWith_excluded by (left; exact Hlo). split; reflexivity. }
  destruct (Rge_dec (yesPriceOf rt market) 0.98) as [Hhi | Hhi].
  { rewrite scanMarketWith_excluded by (right; lra). split; reflexivity. }
  assert (Hy : 0.02 < yesPriceOf rt market < 0.98) by lra.
  change (fairValue SIGMA T_EXP R_FREE)
    with (pt_modelFair (priceBinary SIGMA T_EXP R_FREE)).
  destruct (Rge_dec (Rabs (pt_modelFair (priceBinary SIGMA T_EXP R_FREE)
                           - yesPriceOf rt market * 100)) EDGE_THRESHOLD) as [Hd | Hd].
  - rewrite scanMarketWith_signal by (try assumption; lra).
    split; [reflexivity|]. eexists. split; [reflexivity|].
    split; [|repeat split].
    unfold wellFormedSignal. cbn [EdgeSignal.mktPrice EdgeSignal.modelFair
      EdgeSignal.divergence EdgeSignal.side].
    repeat split; try lra.
  - rewrite scanMarketWith_skip by (try assumption; lra).
    split; reflexivity.
Qed.

Lemma scanLoop_signals markets :
  let signals := fst (scanLoopWith rt SIGMA T_EXP R_FREE prices markets [] []) in
  Forall wellFormedSignal signals /\
  Forall (fun signal =>
            EdgeSignal.mktPrice signal = yesPriceOf rt (EdgeSignal.market signal) * 100 /\
            EdgeSignal.asset signal = assetOf prices (EdgeSignal.market signal)) signals /\
  map EdgeSignal.market signals = filter (hasEdge rt) (scannedMarkets rt markets).
Proof using Type.
  cbv zeta. rewrite scanLoopWith_flat_map. cbn [fst app].
  induction markets as [|m rest IH].
  - simpl. repeat split; constructor.
  - destruct IH as (IH1 & IH2 & IH3).
    cbn [flat_map]. unfold scannedMarkets in *. cbn [filter].
    pose proof (scanMarket_shape m) as Hm. cbv zeta in Hm.
    unfold scanMarket in Hm.
    destruct (isPriced rt m).
    + cbn [filter]. destruct Hm as [_ Hm]. destruct (hasEdge rt m).
      * destruct Hm as (signal & Hs & Hwf & Hmk & Hp & Ha).
        rewrite Hs. cbn [app map]. repeat split.
        -- constructor; assumption.
        -- constructor; [|assumption]. rewrite Hmk. split; assumption.
        -- rewrite Hmk, IH3. reflexivity.
      * rewrite Hm. cbn [app]. repeat split; assumption.
    + destruct Hm as [Hs _]. rewrite Hs. cbn [app]. repeat split; assumption.
Qed.

Lemma scanLoop_logs markets :
  map entryOf (snd (scanLoopWith rt SIGMA T_EXP R_FREE prices markets [] []))
  = flat_map (scanEntries rt prices) (scannedMarkets rt markets).
Proof using Type.
  rewrite scanLoopWith_flat_map. cbn [snd app].
  induction markets as [|m rest IH]; [reflexivity|].
  cbn [flat_map]. unfold scannedMarkets in *. cbn [filter].
  pose proof (scanMarket_shape m) as Hm. cbv zeta in Hm.
  unfold scanMarket in Hm. rewrite map_app, IH.
  destruct (isPriced rt m).
  - destruct Hm as [Hm _]. rewrite Hm. reflexivity.
  - destruct Hm as [_ Hm]. rewrite Hm. reflexivity.
Qed.

Lemma scanEntries_count markets :
  let entries := flat_map (scanEntries rt prices) markets in
  List.length entries = (2 * List.length markets)%nat /\
  List.length (filter (fun e => Action_eqb (fst e) TRADE) entries)
  = List.length (filter (hasEdge rt) markets) /\
  Forall (fun e => fst e = SCAN \/ fst e = TRADE \/ fst e = SKIP) entries.
Proof using Type.
  cbv zeta. induction markets as [|m rest (IH1 & IH2 & IH3)].
  - simpl. repeat split; constructor.
  - cbn [flat_map filter]. unfold scanEntries at 1 3 5.
    destruct (hasEdge rt m); cbn [filter fst Action_eqb List.length app];
      rewrite IH1, IH2; (split; [lia|]); (split; [reflexivity|]);
      (apply Forall_cons; [left; reflexivity|]);
      (apply Forall_cons; [right; cbn [fst]; auto | exact IH3]).
Qed.

End ScanMore.

(** The bands of the priced markets on which the rule is decided. *)

Lemma hasEdge_low rt market :
  yesPriceOf rt market <= 0.467 ->
  hasEdge rt market = true /\
  0 < fairValue SIGMA T_EXP R_FREE - yesPriceOf rt market * 100.
Proof.
  intros Hy. destruct fairValue_shipped as [Hlo Hhi].
  unfold hasEdge, EDGE_THRESHOLD.
  split; [|lra].
  destruct (Rge_dec _ _) as [H | H]; [reflexivity|].
  exfalso. apply H. rewrite Rabs_right by lra. lra.
Qed.

Lemma hasEdge_high rt market :
  0.53 <= yesPriceOf rt market ->
  hasEdge rt market = true /\
  fairValue SIGMA T_EXP R_FREE - yesPriceOf rt market * 100 < 0.
Proof.
  intros Hy. destruct fairValue_shipped as [Hlo Hhi].
  unfold hasEdge, EDGE_THRESHOLD.
  split; [|lra].
  destruct (Rge_dec _ _) as [H | H]; [reflexivity|].
  exfalso. apply H. rewrite Rabs_left by lra. lra.
Qed.

Lemma hasEdge_middle rt market :
  0.47 < yesPriceOf rt market < 0.527 -> hasEdge rt market = false.
Proof.
  intros Hy. destruct fairValue_shipped as [Hlo Hhi].
  unfold hasEdge, EDGE_THRESHOLD.
  destruct (Rge_dec _ _) as [H | H]; [|reflexivity].
  exfalso. unfold Rabs in H. destruct (Rcase_abs _); lra.
Qed.

Lemma isPriced_inside rt market :
  0.02 < yesPriceOf rt market < 0.98 -> isPriced rt market = true.
Proof.
  intros Hy. unfold isPriced.
  destruct (Rle_dec _ _); [lra|]. destruct (Rge_dec _ _); [lra | reflexivity].
Qed.

Lemma wellFormed_side signal :
  wellFormedSignal signal ->
  (EdgeSignal.side signal = BUY /\
   EdgeSignal.mktPrice signal + 3 <= EdgeSignal.modelFair signal) \/
  (EdgeSignal.side signal = SELL /\
   EdgeSignal.modelFair signal + 3 <= EdgeSignal.mktPrice signal).
Proof.
  intros (Hm & Hf & Hd & Ht & Hs). unfold EDGE_THRESHOLD in Ht.
  destruct (Rgt_dec (EdgeSignal.divergence signal) 0) as [Hp | Hp].
  - left. split; [exact Hs|]. rewrite Rabs_right in Ht by lra. lra.
  - right. split; [exact Hs|].
    unfold Rabs in Ht. destruct (Rcase_abs _); lra.
Qed.


(** What a scan returns, market by market, in the words of the rule. *)
Lemma scanMarket_rule rt prices market :
  scanMarket rt prices market
  = if isPriced rt market then
      if hasEdge rt market then
        ([expectedSignal rt prices market],
         [TradingLog.mk SCAN (Some (assetOf prices market))
            (scanLogDetails rt (binary_d2 SIGMA T_EXP R_FREE)
               (normalCDF (binary_d2 SIGMA T_EXP R_FREE)) (yesPriceOf rt market * 100)
               (fairValue SIGMA T_EXP R_FREE));
          TradingLog.mk TRADE (Some (assetOf prices market))
            (edgeLogDetails rt (if Rgt_dec (divergenceOf rt market) 0 then BUY else SELL)
               (divergenceOf rt market) (fairValue SIGMA T_EXP R_FREE)
               (yesPriceOf rt market * 100))])
      else
        ([],
         [TradingLog.mk SCAN (Some (assetOf prices market))
            (scanLogDetails rt (binary_d2 SIGMA T_EXP R_FREE)
               (normalCDF (binary_d2 SIGMA T_EXP R_FREE)) (yesPriceOf rt market * 100)
               (fairValue SIGMA T_EXP R_FREE));
          subThresholdLog rt prices market])
    else ([], []).
Proof.
  unfold scanMarket, isPriced, hasEdge.
  destruct (Rle_dec (yesPriceOf rt market) 0.02) as [Hlo | Hlo].
  { apply scanMarketWith_excluded. left. exact Hlo. }
  destruct (Rge_dec (yesPriceOf rt market) 0.98) as [Hhi | Hhi].
  { apply scanMarketWith_excluded. right. lra. }
  assert (Hy : 0.02 < yesPriceOf rt market < 0.98) by lra.
  destruct (Rge_dec (Rabs (fairValue SIGMA T_EXP R_FREE - yesPriceOf rt market * 100))
                    EDGE_THRESHOLD) as [Hd | Hd].
  - rewrite scanMarketWith_signal; [reflexivity | exact Hy |].
    change (pt_modelFair (priceBinary SIGMA T_EXP R_FREE))
      with (fairValue SIGMA T_EXP R_FREE). lra.
  - rewrite scanMarketWith_skip; [| exact Hy |].
    + unfold subThresholdLog, skipLogDetails, divergenceOf.
      change (pt_modelFair (priceBinary SIGMA T_EXP R_FREE))
        with (fairValue SIGMA T_EXP R_FREE).
      replace EDGE_THRESHOLD with 3 by (unfold EDGE_THRESHOLD; lra).
      reflexivity.
    + change (pt_modelFair (priceBinary SIGMA T_EXP R_FREE))
        with (fairValue SIGMA T_EXP R_FREE). lra.
Qed.

Lemma scanLoop_rule rt prices markets :
  let scan := scanLoopWith rt SIGMA T_EXP R_FREE prices markets [] [] in
  fst scan = map (expectedSignal rt prices)
                 (filter (hasEdge rt) (scannedMarkets rt markets)) /\
  filter (isAction SKIP) (snd scan)
  = map (subThresholdLog rt prices)
        (filter (fun market => negb (hasEdge rt market)) (scannedMarkets rt markets)).
Proof.
  cbv zeta. rewrite scanLoopWith_flat_map. cbn [fst snd app].
  induction markets as [|m rest [IHs IHl]]; [split; reflexivity|].
  cbn [flat_map]. unfold scannedMarkets in *. cbn [filter].
  fold (scanMarket rt prices m). rewrite (scanMarket_rule rt prices m).
  destruct (isPriced rt m); cbn [filter].
  - destruct (hasEdge rt m); cbn [fst snd app negb filter map];
      rewrite IHs; (split; [reflexivity|]); rewrite <- IHl; reflexivity.
  - cbn [fst snd app]. split; assumption.
Qed.

(** C3. The edge detector prices the crypto markets whose yes-price lies
    strictly inside (0.02, 0.98) and no others.  Of these it emits one signal
    for each market with [|fairValue - marketPrice| >= EDGE_THRESHOLD], in
    order, with side BUY if the divergence is positive and SELL otherwise,
    and none for a market below the threshold; for each market below the
    threshold the log holds a SKIP entry that records the edge found and the
    threshold.  Every priced market adds a SCAN entry followed by its TRADE
    or SKIP entry; a market with yes-price at most 0.02 or at least 0.98 adds
    nothing. *)
Theorem edge_rule rt firstToReject prices markets :
  exists signals logs,
    scanForEdge rt firstToReject (Returned prices) (Returned markets)
    = Returned (signals, logs) /\
    signals = map (expectedSignal rt prices)
                  (filter (hasEdge rt) (scannedMarkets rt (crypto markets))) /\
    filter (isAction SKIP) logs
    = map (subThresholdLog rt prices)
          (filter (fun market => negb (hasEdge rt market))
                  (scannedMarkets rt (crypto markets))) /\
    map entryOf logs
    = flat_map (scanEntries rt prices) (scannedMarkets rt (crypto markets)) /\
    (forall market,
        hasEdge rt market = true <->
        EDGE_THRESHOLD <= Rabs (fairValue SIGMA T_EXP R_FREE - yesPriceOf rt market * 100)) /\
    (forall market,
        In market (scannedMarkets rt (crypto markets)) <->
        In market (crypto markets) /\ 0.02 < yesPriceOf rt market < 0.98).
Proof.
  unfold scanForEdge, scanForEdgeWith. cbn [Promise_all bind].
  pose proof (scanLoop_rule rt prices (crypto markets)) as [Hs Hl]. cbv zeta in Hs, Hl.
  pose proof (scanLoop_logs rt prices (crypto markets)) as He.
  destruct (scanLoopWith rt SIGMA T_EXP R_FREE prices (crypto markets) [] [])
    as [signals logs].
  cbn [fst snd] in *. exists signals, logs.
  split; [reflexivity|]. split; [exact Hs|]. split; [exact Hl|]. split; [exact He|].
  split.
  - intros market. unfold hasEdge.
    destruct (Rge_dec _ _) as [H | H]; split; intros H'; try reflexivity;
      try discriminate; lra.
  - intros market. unfold scannedMarkets. rewrite filter_In. unfold isPriced.
    destruct (Rle_dec _ _); [split; [intros [_ H] | intros [_ H]]; try discriminate; lra|].
    destruct (Rge_dec _ _); [split; [intros [_ H] | intros [_ H]]; try discriminate; lra|].
    split; intros [Hin _]; (split; [exact Hin|]); try reflexivity; lra.
Qed.

(** C3, instance: a listing whose only crypto market is quoted at 0.45
    against a fair value near 50. *)
Lemma edge_rule_witness :
  exists signals logs,
    scanForEdge sampleRuntime PricesFetcher (Returned [])
      (Returned {| crypto := [exampleMarket "[0.45,0.55]"]; ai := []; sports := [];
                   politics := [] |}) = Returned (signals, logs) /\
    signals = [expectedSignal sampleRuntime [] (exampleMarket "[0.45,0.55]")] /\
    filter (isAction SKIP) logs = [].
Proof.
  destruct (edge_rule sampleRuntime PricesFetcher []
              {| crypto := [exampleMarket "[0.45,0.55]"]; ai := []; sports := [];
                 politics := [] |}) as (signals & logs & Heq & Hs & Hl & _).
  exists signals, logs. split; [exact Heq|].
  cbn [crypto] in Hs, Hl. unfold scannedMarkets in Hs, Hl. cbn [filter] in Hs, Hl.
  rewrite (isPriced_inside sampleRuntime (exampleMarket "[0.45,0.55]")) in Hs, Hl
    by (rewrite sample_yes_045; lra).
  cbn [filter] in Hs, Hl.
  destruct (hasEdge_low sampleRuntime (exampleMarket "[0.45,0.55]")) as [He _];
    [rewrite sample_yes_045; lra|].
  rewrite He in Hs, Hl. cbn [negb map] in Hs, Hl. split; assumption.
Defined.

(** ** Position sizing *)

Lemma Math_floor_eq (z : Z) (x : R) : IZR z <= x < IZR z + 1 -> Math_floor x = IZR z.
Proof. intros H. unfold Math_floor. rewrite (Zfloor_eq z x H). reflexivity. Qed.

Lemma Math_floor_pos x : 1 <= x -> 0 < Math_floor x.
Proof.
  intros H. unfold Math_floor.
  assert (Hz : (1 <= Zfloor x)%Z) by (apply Zfloor_lub; simpl; lra).
  apply IZR_lt. lia.
Qed.

Lemma Rmax_Rmin_clamp lo hi x : lo <= hi -> Rmax lo (Rmin x hi) = clamp lo hi x.
Proof.
  intros H. unfold clamp.
  destruct (Rlt_dec x lo); [rewrite Rmin_left, Rmax_left by lra; reflexivity|].
  destruct (Rlt_dec hi x); [rewrite Rmin_right, Rmax_right by lra; reflexivity|].
  rewrite Rmin_left, Rmax_right by lra; reflexivity.
Qed.

Lemma nanGe_number e cap : nanGe (Some e) cap = true <-> cap <= e.
Proof.
  unfold nanGe. destruct (Rge_dec e cap); split; intros H; try reflexivity;
    try discriminate; lra.
Qed.

Lemma nanGe_below e cap : e < cap -> nanGe (Some e) cap = false.
Proof. intros H. unfold nanGe. destruct (Rge_dec e cap); [lra | reflexivity]. Qed.

Section Sizing.

Variable rt : JsRuntime.
Variable b : R.

Lemma totalSizeUSD_cons pos positions :
  totalSizeUSD (pos :: positions) = SizedPosition.sizeUSD pos + totalSizeUSD positions.
Proof using Type. reflexivity. Qed.

Lemma sizeUSDOf_le signal : sizeUSDOf b signal <= b * MAX_POSITION_PCT.
Proof using Type. unfold sizeUSDOf. apply Rmin_r. Qed.

(** The [break]: it needs an exposure that is a number. *)
Lemma sizeLoop_halt signal rest e ps ls :
  b * MAX_TOTAL_EXPOSURE_PCT <= e ->
  sizeLoop rt b (signal :: rest) (Some e) ps ls = (ps, ls ++ [haltLog rt e b], Some e).
Proof using Type.
  intros He. cbn [sizeLoop]. rewrite (proj2 (nanGe_number _ _) He). reflexivity.
Qed.

(** The [push] and the two [continue]s, for any exposure below the cap or
    [NaN]. *)
Lemma sizeLoop_keep signal rest e ps ls :
  nanGe e (b * MAX_TOTAL_EXPOSURE_PCT) = false ->
  sizable b signal = true ->
  sizeLoop rt b (signal :: rest) e ps ls
  = sizeLoop rt b rest (nanAdd e (Some (sizeUSDOf b signal)))
             (ps ++ [positionOf b signal]) ls.
Proof using Type.
  intros He Hk. cbn [sizeLoop]. rewrite He. unfold sizable in Hk.
  destruct (Rle_dec (kellyFractionOf signal) 0); [discriminate|].
  destruct (Rle_dec (sharesOf b signal) 0); [discriminate | reflexivity].
Qed.

Lemma sizeLoop_skip signal rest e ps ls :
  nanGe e (b * MAX_TOTAL_EXPOSURE_PCT) = false ->
  sizable b signal = false ->
  sizeLoop rt b (signal :: rest) e ps ls = sizeLoop rt b rest e ps ls.
Proof using Type.
  intros He Hk. cbn [sizeLoop]. rewrite He. unfold sizable in Hk.
  destruct (Rle_dec (kellyFractionOf signal) 0); [reflexivity|].
  destruct (Rle_dec (sharesOf b signal) 0); [reflexivity | discriminate].
Qed.

Lemma sizable_true signal :
  sizable b signal = true <-> 0 < kellyFractionOf signal /\ 0 < sharesOf b signal.
Proof using Type.
  unfold sizable.
  destruct (Rle_dec (kellyFractionOf signal) 0);
    [split; [discriminate | intros [H _]; lra]|].
  destruct (Rle_dec (sharesOf b signal) 0);
    [split; [discriminate | intros [_ H]; lra]|].
  split; [intros _; split; lra | reflexivity].
Qed.

Lemma sizable_false signal :
  sizable b signal = false <-> kellyFractionOf signal <= 0 \/ sharesOf b signal <= 0.
Proof using Type.
  unfold sizable.
  destruct (Rle_dec (kellyFractionOf signal) 0); [split; auto|].
  destruct (Rle_dec (sharesOf b signal) 0); [split; auto|].
  split; [discriminate | intros [H | H]; lra].
Qed.

(** The same, for an exposure that is a number. *)
Lemma sizeLoop_emit signal rest e ps ls :
  e < b * MAX_TOTAL_EXPOSURE_PCT ->
  0 < kellyFractionOf signal -> 0 < sharesOf b signal ->
  sizeLoop rt b (signal :: rest) (Some e) ps ls
  = sizeLoop rt b rest (Some (e + sizeUSDOf b signal)) (ps ++ [positionOf b signal]) ls.
Proof using Type.
  intros He Hk Hs.
  apply (sizeLoop_keep signal rest (Some e) ps ls (nanGe_below _ _ He)).
  apply sizable_true. split; assumption.
Qed.

Lemma sizeLoop_drop signal rest e ps ls :
  e < b * MAX_TOTAL_EXPOSURE_PCT ->
  kellyFractionOf signal <= 0 \/ sharesOf b signal <= 0 ->
  sizeLoop rt b (signal :: rest) (Some e) ps ls = sizeLoop rt b rest (Some e) ps ls.
Proof using Type.
  intros He Hk.
  apply (sizeLoop_skip signal rest (Some e) ps ls (nanGe_below _ _ He)).
  apply sizable_false. exact Hk.
Qed.

(** What one pass adds to its accumulators, from an exposure that is a
    number. *)
Lemma sizeLoop_invariant signals : forall e ps ls,
  exists newps newls,
    sizeLoop rt b signals (Some e) ps ls
    = (ps ++ newps, ls ++ newls, Some (e + totalSizeUSD newps)) /\
    Forall (fun pos => SizedPosition.sizeUSD pos <= b * MAX_POSITION_PCT) newps /\
    (newls = [] \/ exists e', newls = [haltLog rt e' b]) /\
    (forall ps1 pos ps2,
        newps = ps1 ++ pos :: ps2 ->
        e + totalSizeUSD ps1 < b * MAX_TOTAL_EXPOSURE_PCT) /\
    (b * MAX_TOTAL_EXPOSURE_PCT <= e -> newps = []).
Proof using Type.
  induction signals as [|signal rest IH]; intros e ps ls.
  - exists [], []. simpl. rewrite !app_nil_r, Rplus_0_r.
    repeat split; auto. intros ps1 pos ps2 H. destruct ps1; discriminate.
  - destruct (Rle_dec (b * MAX_TOTAL_EXPOSURE_PCT) e) as [He | He].
    { exists [], [haltLog rt e b]. rewrite sizeLoop_halt by assumption.
      simpl. rewrite app_nil_r, Rplus_0_r.
      repeat split; eauto. intros ps1 pos ps2 H. destruct ps1; discriminate. }
    assert (He' : e < b * MAX_TOTAL_EXPOSURE_PCT) by lra.
    destruct (Rle_dec (kellyFractionOf signal) 0) as [Hk | Hk].
    { rewrite sizeLoop_drop by auto. apply IH. }
    destruct (Rle_dec (sharesOf b signal) 0) as [Hs | Hs].
    { rewrite sizeLoop_drop by auto. apply IH. }
    rewrite sizeLoop_emit by lra.
    destruct (IH (e + sizeUSDOf b signal) (ps ++ [positionOf b signal]) ls)
      as (newps & newls & Heq & Hall & Hlog & Hlt & Hge).
    exists (positionOf b signal :: newps), newls.
    assert (Hsz := sizeUSDOf_le signal).
    rewrite Heq, <- app_assoc. simpl.
    repeat split; auto.
    + f_equal. f_equal. lra.
    + intros ps1 pos ps2 Hsplit.
      destruct ps1 as [|p ps1]; [simpl; lra|].
      simpl in Hsplit. injection Hsplit as Hp Hrest.
      specialize (Hlt ps1 pos ps2 Hrest). subst p.
      rewrite totalSizeUSD_cons. cbn [positionOf SizedPosition.sizeUSD]. lra.
    + intros; lra.
Qed.

(** A pass whose exposure is [NaN] never halts: it keeps every signal that
    can be sized and logs nothing. *)
Lemma sizeLoop_nan signals : forall ps ls,
  sizeLoop rt b signals None ps ls
  = (ps ++ map (positionOf b) (filter (sizable b) signals), ls, None).
Proof using Type.
  induction signals as [|signal rest IH]; intros ps ls.
  - cbn. rewrite app_nil_r. reflexivity.
  - cbn [filter]. destruct (sizable b signal) eqn:Hk.
    + rewrite sizeLoop_keep by auto. cbn [nanAdd]. rewrite IH.
      cbn [map]. rewrite <- app_assoc. reflexivity.
    + rewrite sizeLoop_skip by auto. apply IH.
Qed.


End Sizing.

(** The sample signals at a balance of 100. *)
Lemma kellyRaw_buy_at_50 s :
  EdgeSignal.side s = BUY -> EdgeSignal.mktPrice s = 50 ->
  kellyRawOf s = EdgeSignal.modelFair s / 50 - 1.
Proof.
  intros Hs Hm. unfold kellyRawOf. rewrite Hs, Hm.
  replace (1 / (50 / 100) - 1) with 1 by lra. lra.
Qed.

Lemma strong_kelly : kellyFractionOf (exampleSignal 90 50 BUY) = 0.05.
Proof.
  unfold kellyFractionOf. rewrite kellyRaw_buy_at_50 by reflexivity.
  cbn [exampleSignal EdgeSignal.modelFair]. unfold KELLY_FRACTION, MAX_POSITION_PCT.
  rewrite Rmin_right by lra. rewrite Rmax_right by lra. reflexivity.
Qed.


Lemma strong_size : sizeUSDOf 100 (exampleSignal 90 50 BUY) = 5.
Proof.
  unfold sizeUSDOf. rewrite strong_kelly. unfold MAX_POSITION_PCT.
  rewrite Rmin_left by lra. lra.
Qed.


Lemma strong_shares : sharesOf 100 (exampleSignal 90 50 BUY) = 10.
Proof.
  unfold sharesOf. rewrite strong_size.
  cbn [executionPriceOf exampleSignal EdgeSignal.side EdgeSignal.mktPrice].
  apply (Math_floor_eq 10). lra.
Qed.





(** C4. For every signal with model probability p and market-implied
    probability mktP strictly between 0 and 1, the applied Kelly fraction is
    [((p b - q) / b) * 0.25] clamped to [0, 0.05]; for p = 0.55,
    mktP = 0.50 and side BUY the fraction is 0.025 and the size is
    [balance * 0.025], which the sizing loop emits when it buys a share. *)
Theorem kelly_fraction_formula (signal : EdgeSignal.t) :
  let p := EdgeSignal.modelFair signal / 100 in
  let mktP := EdgeSignal.mktPrice signal / 100 in
  0 < p < 1 -> 0 < mktP < 1 ->
  kellyFractionOf signal
  = clamp 0 MAX_POSITION_PCT (kellyStar (EdgeSignal.side signal) p mktP * KELLY_FRACTION) /\
  (p = 0.55 -> mktP = 0.50 -> EdgeSignal.side signal = BUY ->
   kellyFractionOf signal = 0.025 /\
   forall balance, 0 < balance ->
     sizeUSDOf balance signal = balance * 0.025 /\
     (20 <= balance ->
      forall rt totalExposure, totalExposure < balance * MAX_TOTAL_EXPOSURE_PCT ->
        sizeLoop rt balance [signal] (Some totalExposure) [] []
        = ([SizedPosition.mk signal 0.025 (balance * 0.025)
                             (Math_floor (balance * 0.025 / 0.50))],
           [], Some (totalExposure + balance * 0.025)))).
Proof.
  intros p mktP Hp Hm.
  assert (Hform : kellyFractionOf signal
            = clamp 0 MAX_POSITION_PCT
                (kellyStar (EdgeSignal.side signal) p mktP * KELLY_FRACTION)).
  { unfold kellyFractionOf. rewrite Rmax_Rmin_clamp by (unfold MAX_POSITION_PCT; lra).
    reflexivity. }
  split; [exact Hform|].
  intros Hp55 Hm50 Hside.
  assert (Hk : kellyFractionOf signal = 0.025).
  { rewrite Hform, Hside. unfold kellyStar. rewrite Hp55, Hm50.
    unfold clamp, KELLY_FRACTION, MAX_POSITION_PCT.
    replace (1 / 0.50 - 1) with 1 by lra.
    destruct (Rlt_dec _ _); [lra|]. destruct (Rlt_dec _ _); lra. }
  split; [exact Hk|].
  intros balance Hb.
  assert (Hsz : sizeUSDOf balance signal = balance * 0.025).
  { unfold sizeUSDOf. rewrite Hk. unfold MAX_POSITION_PCT. rewrite Rmin_left by lra.
    reflexivity. }
  split; [exact Hsz|].
  intros Hb20 rt e He.
  assert (Hpr : executionPriceOf signal = 0.50).
  { unfold executionPriceOf. rewrite Hside. exact Hm50. }
  assert (Hsh : sharesOf balance signal = Math_floor (balance * 0.025 / 0.50)).
  { unfold sharesOf. rewrite Hsz, Hpr. reflexivity. }
  rewrite sizeLoop_emit.
  - simpl. unfold positionOf. rewrite Hk, Hsz, Hsh. reflexivity.
  - exact He.
  - rewrite Hk. lra.
  - rewrite Hsh. apply Math_floor_pos. lra.
Qed.

(** C4, instance: the scenario of the specification on a balance of 1000. *)
Lemma kelly_fraction_witness :
  (0 < EdgeSignal.modelFair (exampleSignal 55 50 BUY) / 100 < 1 /\
   0 < EdgeSignal.mktPrice (exampleSignal 55 50 BUY) / 100 < 1) /\
  kellyFractionOf (exampleSignal 55 50 BUY) = 0.025 /\
  sizeUSDOf 1000 (exampleSignal 55 50 BUY) = 1000 * 0.025.
Proof.
  assert (H : 0 < EdgeSignal.modelFair (exampleSignal 55 50 BUY) / 100 < 1 /\
              0 < EdgeSignal.mktPrice (exampleSignal 55 50 BUY) / 100 < 1)
    by (simpl; lra).
  split; [exact H|].
  destruct H as [H1 H2].
  destruct (kelly_fraction_formula (exampleSignal 55 50 BUY) H1 H2) as [_ Hscn].
  destruct Hscn as [Hk Hsz]; [simpl; lra | simpl; lra | reflexivity |].
  split; [exact Hk|].
  exact (proj1 (Hsz 1000 ltac:(lra))).
Defined.

(** C8, as amended. When the open-order lookup fails the exposure is seeded
    as zero and sizing continues; nothing is logged for the failure: the
    positions, the log and the running exposure are those of a lookup that
    answered with no open orders. *)
Theorem open_order_failure_is_silent rt getClobBalance err signals :
  seededExposure (Threw err) = Some 0 /\
  sizePositionsState rt getClobBalance (Threw err) signals
  = sizePositionsState rt getClobBalance (Returned []) signals.
Proof. split; reflexivity. Qed.

(** C8, as stated, fails: a sizing pass whose open-order lookup throws sizes
    its signal and returns an empty log. *)
Lemma open_order_failure_leaves_no_log :
  sizePositions sampleRuntime (Returned (Some {| balance := Some 100 |}))
                (Threw (Error "CLOB GET /orders failed (503)"))
                [exampleSignal 90 50 BUY]
  = Returned ([positionOf 100 (exampleSignal 90 50 BUY)], []).
Proof.
  unfold sizePositions, sizePositionsState, readBalance. cbn [bind balance or0].
  destruct (Rle_dec 100 0) as [H | _]; [lra|].
  unfold seededExposure, try_catch, bind.
  rewrite sizeLoop_emit.
  - reflexivity.
  - unfold MAX_TOTAL_EXPOSURE_PCT; lra.
  - rewrite strong_kelly; lra.
  - rewrite strong_shares; lra.
Qed.

(** ** Execution *)

Section Execution.

Variable rt : JsRuntime.
Variable placeOrder : nat -> ClobOrder.t -> Outcome ClobOrderResponse.t.

Lemma executeLoop_success pos rest n results logs response :
  placeOrder n (orderOf rt pos) = Returned response ->
  executeLoop rt placeOrder n (pos :: rest) results logs
  = executeLoop rt placeOrder (S n) rest
      (results ++ [TradeResult.mk pos (ClobOrderResponse.orderID response)
                                  (ClobOrderResponse.status response)])
      (logs ++ [TradingLog.mk TRADE (Some (EdgeSignal.asset (SizedPosition.signal pos)))
                  (tradeLogDetails rt pos (ClobOrderResponse.orderID response))]).
Proof. intros H. simpl. rewrite H. reflexivity. Qed.

Lemma executeLoop_failure pos rest n results logs err :
  placeOrder n (orderOf rt pos) = Threw err ->
  executeLoop rt placeOrder n (pos :: rest) results logs
  = executeLoop rt placeOrder (S n) rest results (logs ++ [orderFailedLog pos err]).
Proof. intros H. simpl. rewrite H. reflexivity. Qed.

(** Every position adds exactly one log entry, whatever its order does. *)
Lemma executeLoop_logs_length positions : forall n results logs,
  List.length (snd (executeLoop rt placeOrder n positions results logs))
  = (List.length logs + List.length positions)%nat.
Proof.
  induction positions as [|pos rest IH]; intros n results logs.
  - simpl. lia.
  - simpl. destruct (placeOrder n (orderOf rt pos)); rewrite IH, length_app; simpl; lia.
Qed.

(** A batch in which every order is accepted. *)
Lemma executeLoop_all_accepted positions : forall n results logs,
  (forall j pos, nth_error positions j = Some pos ->
     exists response, placeOrder (n + j) (orderOf rt pos) = Returned response) ->
  exists newresults newlogs,
    executeLoop rt placeOrder n positions results logs
    = (results ++ newresults, logs ++ newlogs) /\
    map TradeResult.position newresults = positions /\
    filter (isAction ERROR) newlogs = [] /\
    List.length (filter (isAction TRADE) newlogs) = List.length positions /\
    List.length newlogs = List.length positions.
Proof.
  induction positions as [|pos rest IH]; intros n results logs Hok.
  - exists [], []. simpl. rewrite !app_nil_r. auto.
  - destruct (Hok 0%nat pos eq_refl) as [response Hr]. rewrite Nat.add_0_r in Hr.
    rewrite (executeLoop_success _ _ _ _ _ _ Hr).
    edestruct (IH (S n)) as (nr & nl & Heq & Hmap & Herr & Htr & Hlen).
    { intros j p Hj. destruct (Hok (S j) p Hj) as [resp Hresp].
      exists resp. rewrite <- Hresp. f_equal. lia. }
    rewrite Heq. eexists (_ :: nr), (_ :: nl).
    rewrite <- !app_assoc. split; [reflexivity|].
    simpl. rewrite Hmap, Herr, Htr, Hlen. auto.
Qed.

(** A batch in which the [k]-th order, and only it, is refused. *)
Lemma executeLoop_one_refused positions : forall k n results logs failed err,
  nth_error positions k = Some failed ->
  placeOrder (n + k) (orderOf rt failed) = Threw err ->
  (forall j pos, j <> k -> nth_error positions j = Some pos ->
     exists response, placeOrder (n + j) (orderOf rt pos) = Returned response) ->
  exists newresults newlogs,
    executeLoop rt placeOrder n positions results logs
    = (results ++ newresults, logs ++ newlogs) /\
    map TradeResult.position newresults = firstn k positions ++ skipn (S k) positions /\
    filter (isAction ERROR) newlogs = [orderFailedLog failed err] /\
    List.length (filter (isAction TRADE) newlogs) = (List.length positions - 1)%nat /\
    List.length newlogs = List.length positions.
Proof.
  induction positions as [|pos rest IH]; intros k n results logs failed err Hk Herr Hok.
  - destruct k; discriminate.
  - destruct k as [|k].
    + simpl in Hk. inversion Hk; subst pos. rewrite Nat.add_0_r in Herr.
      rewrite (executeLoop_failure _ _ _ _ _ _ Herr).
      edestruct (executeLoop_all_accepted rest (S n))
        as (nr & nl & Heq & Hmap & He & Htr & Hlen).
      { intros j p Hj. destruct (Hok (S j) p ltac:(lia) Hj) as [resp Hresp].
        exists resp. rewrite <- Hresp. f_equal. lia. }
      rewrite Heq. exists nr, (orderFailedLog failed err :: nl).
      rewrite <- !app_assoc. split; [reflexivity|].
      simpl. rewrite Hmap, He, Htr, Hlen. repeat split; auto. lia.
    + simpl in Hk.
      destruct (Hok 0%nat pos ltac:(lia) eq_refl) as [response Hr].
      rewrite Nat.add_0_r in Hr.
      rewrite (executeLoop_success _ _ _ _ _ _ Hr).
      edestruct (IH k (S n)) as (nr & nl & Heq & Hmap & He & Htr & Hlen).
      { exact Hk. }
      { rewrite <- Herr. f_equal. lia. }
      { intros j p Hj Hp. destruct (Hok (S j) p ltac:(lia) Hp) as [resp Hresp].
        exists resp. rewrite <- Hresp. f_equal. lia. }
      rewrite Heq. eexists (_ :: nr), (_ :: nl).
      rewrite <- !app_assoc. split; [reflexivity|].
      simpl. rewrite Hmap, He, Htr, Hlen. repeat split; auto.
      assert (Hlt : (k < List.length rest)%nat) by (apply nth_error_Some; congruence).
      lia.
Qed.

End Execution.

(** C6. For every list of N sized positions in which exactly the k-th order
    placement fails and all others succeed, [executeTrades] returns N-1
    trade results, those of the other positions in order; exactly one ERROR
    entry is logged, carrying the failed position's asset; the positions
    after the failed one are still processed; and there is one TRADE entry
    per result. *)
Theorem execute_isolates_failed_order rt placeOrder positions k failed err :
  nth_error positions k = Some failed ->
  placeOrder k (orderOf rt failed) = Threw err ->
  (forall j pos, j <> k -> nth_error positions j = Some pos ->
     exists response, placeOrder j (orderOf rt pos) = Returned response) ->
  let results := fst (executeTrades rt placeOrder positions) in
  let logs := snd (executeTrades rt placeOrder positions) in
  List.length results = (List.length positions - 1)%nat /\
  map TradeResult.position results = firstn k positions ++ skipn (S k) positions /\
  filter (isAction ERROR) logs = [orderFailedLog failed err] /\
  List.length (filter (isAction TRADE) logs) = List.length results /\
  List.length logs = List.length positions.
Proof.
  intros Hk Herr Hok results logs.
  destruct (executeLoop_one_refused rt placeOrder positions k 0 [] [] failed err Hk Herr Hok)
    as (nr & nl & Heq & Hmap & He & Htr & Hlen).
  unfold results, logs, executeTrades. rewrite Heq. simpl.
  assert (Hn : List.length nr = (List.length positions - 1)%nat).
  { rewrite <- (length_map TradeResult.position), Hmap, length_app,
      length_firstn, length_skipn.
    assert (Hlt : (k < List.length positions)%nat) by (apply nth_error_Some; congruence).
    lia. }
  rewrite Hn. auto.
Qed.

(** C6, instance: two positions, the second order refused by the venue. *)
Lemma execute_isolates_witness :
  (nth_error twoPositions 1 = Some (positionOf 100 (exampleSignal 58 50 BUY)) /\
   secondOrderRefused 1 (orderOf sampleRuntime (positionOf 100 (exampleSignal 58 50 BUY)))
   = Threw (Error "CLOB POST /order failed (400)")) /\
  List.length (fst (executeTrades sampleRuntime secondOrderRefused twoPositions)) = 1%nat /\
  filter (isAction ERROR) (snd (executeTrades sampleRuntime secondOrderRefused twoPositions))
  = [orderFailedLog (positionOf 100 (exampleSignal 58 50 BUY))
                    (Error "CLOB POST /order failed (400)")].
Proof.
  assert (H1 : nth_error twoPositions 1 = Some (positionOf 100 (exampleSignal 58 50 BUY)))
    by reflexivity.
  assert (H2 : secondOrderRefused 1
                 (orderOf sampleRuntime (positionOf 100 (exampleSignal 58 50 BUY)))
               = Threw (Error "CLOB POST /order failed (400)")) by reflexivity.
  assert (H3 : forall j pos, j <> 1%nat -> nth_error twoPositions j = Some pos ->
               exists response,
                 secondOrderRefused j (orderOf sampleRuntime pos) = Returned response).
  { intros j pos Hj _. destruct j as [|[|j]]; [|lia|]; eexists; reflexivity. }
  split; [split; [exact H1 | exact H2]|].
  destruct (execute_isolates_failed_order sampleRuntime secondOrderRefused twoPositions 1
              (positionOf 100 (exampleSignal 58 50 BUY))
              (Error "CLOB POST /order failed (400)") H1 H2 H3)
    as (Hlen & _ & Herr & _).
  split; [exact Hlen | exact Herr].
Defined.

(** ** Full cycle *)

Lemma app_not_nil {A} (l : list A) (x : A) : l ++ [x] <> [].
Proof. destruct l; discriminate. Qed.



(** * Further properties of the engine and of its collaborators *)

(** ** Sub-sequences *)

Lemma subsequence_nil_l {A} (l : list A) : subsequence [] l.
Proof. induction l; constructor; assumption. Qed.

Lemma subsequence_refl {A} (l : list A) : subsequence l l.
Proof. induction l; constructor; assumption. Qed.

Lemma subsequence_app {A} (k k' l l' : list A) :
  subsequence k l -> subsequence k' l' -> subsequence (k ++ k') (l ++ l').
Proof.
  intros H H'. induction H; simpl; try constructor; assumption.
Qed.

Lemma subsequence_length {A} (k l : list A) :
  subsequence k l -> (List.length k <= List.length l)%nat.
Proof. induction 1; simpl; lia. Qed.

Lemma subsequence_In {A} (k l : list A) x : subsequence k l -> In x k -> In x l.
Proof.
  induction 1; simpl; intros Hin; auto.
  destruct Hin; auto.
Qed.

Lemma subsequence_filter {A} (f : A -> bool) (l : list A) : subsequence (filter f l) l.
Proof.
  induction l as [|x l IH]; simpl; [constructor|].
  destruct (f x); constructor; assumption.
Qed.

Lemma subsequence_trans {A} (j k l : list A) :
  subsequence j k -> subsequence k l -> subsequence j l.
Proof.
  intros Hjk Hkl. revert j Hjk.
  induction Hkl; intros j Hjk.
  - exact Hjk.
  - constructor. apply IHHkl. exact Hjk.
  - inversion Hjk; subst.
    + apply subsequence_skip. apply IHHkl. assumption.
    + apply subsequence_keep. apply IHHkl. assumption.
Qed.

(** ** Monitoring *)

Lemma monitorLoop_matched rt orders : forall logs,
  monitorLoop rt orders logs
  = logs ++ map (fun order => TradingLog.mk SCAN None (monitorLogDetails rt order))
                (filter isMatched orders).
Proof.
  induction orders as [|order rest IH]; intros logs; simpl.
  - rewrite app_nil_r. reflexivity.
  - unfold isMatched at 1.
    destruct (nanGt (OpenOrder.size_matched order) 0).
    + rewrite IH, <- app_assoc. reflexivity.
    + apply IH.
Qed.

(** X9. Monitoring never throws.  When the open-order lookup answers, the
    log holds one SCAN entry for each order with a matched size above zero,
    in the order of the answer, and nothing for the other orders; when the
    lookup throws, the log is the single ERROR entry that carries the
    message of the error. *)
Theorem monitor_reports_matched_orders rt :
  (forall orders,
      monitorPositions rt (Returned orders)
      = map (fun order => TradingLog.mk SCAN None (monitorLogDetails rt order))
            (filter isMatched orders)) /\
  (forall err, monitorPositions rt (Threw err) = [monitorFailedLog err]).
Proof.
  split; [|reflexivity].
  intros orders. unfold monitorPositions, try_catch, bind.
  apply (monitorLoop_matched rt orders []).
Qed.

(** ** Sizing *)

Section SizingMore.

Variable rt : JsRuntime.
Variable b : R.

(** The positions of a pass are those of the signals it keeps, in order. *)
Lemma sizeLoop_kept signals : forall e ps ls,
  exists kept,
    subsequence kept signals /\
    fst (fst (sizeLoop rt b signals e ps ls)) = ps ++ map (positionOf b) kept /\
    Forall (fun s => 0 < kellyFractionOf s /\ 0 < sharesOf b s) kept.
Proof using Type.
  induction signals as [|signal rest IH]; intros e ps ls.
  - exists []. simpl. rewrite app_nil_r. repeat split; constructor.
  - destruct (nanGe e (b * MAX_TOTAL_EXPOSURE_PCT)) eqn:He.
    { exists []. cbn [sizeLoop]. rewrite He. cbn [fst map]. rewrite app_nil_r.
      repeat split; [apply subsequence_nil_l | constructor]. }
    destruct (sizable b signal) eqn:Hk.
    + rewrite sizeLoop_keep by auto.
      destruct (IH (nanAdd e (Some (sizeUSDOf b signal))) (ps ++ [positionOf b signal]) ls)
        as (kept & Hsub & Heq & Hall).
      exists (signal :: kept). repeat split.
      * apply subsequence_keep. assumption.
      * rewrite Heq, <- app_assoc. reflexivity.
      * constructor; [apply sizable_true; exact Hk | assumption].
    + rewrite sizeLoop_skip by auto.
      destruct (IH e ps ls) as (kept & Hsub & Heq & Hall).
      exists kept. repeat split; auto. apply subsequence_skip. assumption.
Qed.

Lemma executionPriceOf_pos signal :
  0 < EdgeSignal.mktPrice signal < 100 -> 0 < executionPriceOf signal.
Proof using Type.
  intros [H0 H1]. unfold executionPriceOf. destruct (EdgeSignal.side signal); lra.
Qed.

Lemma kellyFractionOf_le signal : kellyFractionOf signal <= MAX_POSITION_PCT.
Proof using Type.
  unfold kellyFractionOf. apply Rmax_lub; [unfold MAX_POSITION_PCT; lra | apply Rmin_r].
Qed.

Lemma positionOf_well_sized signal :
  0 < b -> 0 < EdgeSignal.mktPrice signal < 100 ->
  0 < kellyFractionOf signal -> 0 < sharesOf b signal ->
  wellSizedPosition b (positionOf b signal).
Proof using Type.
  intros Hb Hm Hk Hs.
  assert (Hle := kellyFractionOf_le signal).
  assert (Hp := executionPriceOf_pos signal Hm).
  assert (Hsz : sizeUSDOf b signal = b * kellyFractionOf signal).
  { unfold sizeUSDOf. apply Rmin_left. apply Rmult_le_compat_l; lra. }
  unfold wellSizedPosition, positionOf.
  cbn [SizedPosition.signal SizedPosition.kellyFraction SizedPosition.sizeUSD
       SizedPosition.shares].
  assert (Hfl := Zfloor_bound (sizeUSDOf b signal / executionPriceOf signal)).
  unfold sharesOf, Math_floor in *.
  set (n := Zfloor (sizeUSDOf b signal / executionPriceOf signal)) in *.
  set (q := sizeUSDOf b signal / executionPriceOf signal) in *.
  assert (Hq : sizeUSDOf b signal = q * executionPriceOf signal).
  { unfold q. field. lra. }
  split; [lra|]. split; [exact Hsz|]. split; [|split].
  - exists n. split; [|reflexivity].
    assert (Hn : (0 < n)%Z) by (apply lt_IZR; exact Hs). lia.
  - rewrite Hq. apply Rmult_le_compat_r; lra.
  - rewrite Hq. apply Rmult_lt_compat_r; lra.
Qed.

End SizingMore.

Lemma sizePositions_kept rt getClobBalance getOpenOrders signals :
  match getClobBalance with
  | Returned None =>
      sizePositions rt getClobBalance getOpenOrders signals
      = Threw (Error "Cannot read properties of null (reading 'balance')")
  | Returned (Some bal) =>
      exists kept logs,
        subsequence kept signals /\
        sizePositions rt getClobBalance getOpenOrders signals
        = Returned (map (positionOf (or0 (balance bal))) kept, logs) /\
        Forall (fun s => 0 < kellyFractionOf s /\ 0 < sharesOf (or0 (balance bal)) s) kept
  | Threw _ =>
      exists logs,
        sizePositions rt getClobBalance getOpenOrders signals = Returned ([], logs)
  end.
Proof.
  unfold sizePositions, sizePositionsState, readBalance.
  destruct getClobBalance as [[bal|] | err]; cbn [bind].
  - destruct (Rle_dec (or0 (balance bal)) 0) as [Hb | Hb]; cbn [bind fst].
    + exists [], [TradingLog.mk HALT None "Zero trading balance"].
      repeat split; [apply subsequence_nil_l | constructor].
    + destruct (sizeLoop_kept rt (or0 (balance bal)) signals
                  (seededExposure getOpenOrders) [] []) as (kept & Hsub & Heq & Hall).
      destruct (sizeLoop rt (or0 (balance bal)) signals
                  (seededExposure getOpenOrders) [] []) as [[ps ls] e].
      cbn [fst app] in *. subst ps. exists kept, ls. repeat split; auto.
  - reflexivity.
  - eexists. reflexivity.
Qed.

(** X4. Sizing keeps the order of the signals and invents none: whatever
    the balance fetch and the open-order lookup do, the signals of the
    positions it returns are the input signals with some of them removed;
    and it throws only when the body of the balance answer is [null]. *)
Theorem positions_follow_signals rt getClobBalance getOpenOrders signals :
  match sizePositions rt getClobBalance getOpenOrders signals with
  | Returned (positions, _) => subsequence (map SizedPosition.signal positions) signals
  | Threw _ => getClobBalance = Returned None
  end.
Proof.
  pose proof (sizePositions_kept rt getClobBalance getOpenOrders signals) as H.
  destruct getClobBalance as [[bal|] | err].
  - destruct H as (kept & logs & Hsub & Heq & _). rewrite Heq, map_map. simpl.
    rewrite map_id. exact Hsub.
  - rewrite H. reflexivity.
  - destruct H as (logs & Heq). rewrite Heq. apply subsequence_nil_l.
Qed.

(** X5. On a positive balance, every position sized from signals quoted
    strictly between 0 and 100 has a Kelly fraction in (0, MAX_POSITION_PCT],
    a size in USD equal to balance times that fraction (the second cap,
    balance times MAX_POSITION_PCT, never binds), and a whole number of
    shares, at least one, that is the largest the size buys at the execution
    price. *)
Theorem positions_are_well_sized rt bal getOpenOrders signals b :
  balance bal = Some b -> 0 < b ->
  Forall (fun signal => 0 < EdgeSignal.mktPrice signal < 100) signals ->
  exists positions logs,
    sizePositions rt (Returned (Some bal)) getOpenOrders signals
    = Returned (positions, logs) /\
    Forall (wellSizedPosition b) positions.
Proof.
  intros Hbal Hb Hsig.
  destruct (sizePositions_kept rt (Returned (Some bal)) getOpenOrders signals)
    as (kept & logs & Hsub & Heq & Hall).
  rewrite Hbal in Heq, Hall. cbn [or0] in Heq, Hall.
  eexists _, _. split; [exact Heq|].
  apply Forall_forall. intros pos Hin.
  apply in_map_iff in Hin. destruct Hin as (s & <- & Hs).
  rewrite Forall_forall in Hall, Hsig.
  destruct (Hall s Hs) as [Hk Hsh].
  apply positionOf_well_sized; auto.
  apply Hsig. eapply subsequence_In; eauto.
Qed.

(** X5, instance: nine signals sized on a balance of 100. *)
Lemma positions_are_well_sized_witness :
  (balance {| balance := Some 100 |} = Some 100 /\ 0 < 100 /\
   Forall (fun signal => 0 < EdgeSignal.mktPrice signal < 100) nineSignals) /\
  exists positions logs,
    sizePositions sampleRuntime (Returned (Some {| balance := Some 100 |}))
                  (Returned []) nineSignals = Returned (positions, logs) /\
    Forall (wellSizedPosition 100) positions.
Proof.
  assert (H : balance {| balance := Some 100 |} = Some 100 /\ 0 < 100 /\
              Forall (fun signal => 0 < EdgeSignal.mktPrice signal < 100) nineSignals).
  { split; [reflexivity|]. split; [lra|].
    unfold nineSignals. simpl. repeat constructor; simpl; lra. }
  split; [exact H|].
  destruct H as (H1 & H2 & H3).
  exact (positions_are_well_sized sampleRuntime {| balance := Some 100 |}
           (Returned []) nineSignals 100 H1 H2 H3).
Defined.

(** X1. When both fetches answer, a scan returns, and its signals are
    exactly the crypto markets that pass the yes-price filter and whose
    divergence reaches the threshold, in the order of the list; the markets
    of the other categories are never read.  Each signal carries the fair
    value of the shipped constants, a market price strictly between 2 and
    98 that is the yes-price of its market times 100, the divergence between
    the two, at least EDGE_THRESHOLD in absolute value, the side BUY exactly
    when the divergence is positive, and the asset matched to its market. *)
Theorem scan_signals_well_formed rt firstToReject prices markets :
  exists signals logs,
    scanForEdge rt firstToReject (Returned prices) (Returned markets) = Returned (signals, logs) /\
    map EdgeSignal.market signals
    = filter (hasEdge rt) (scannedMarkets rt (crypto markets)) /\
    Forall wellFormedSignal signals /\
    Forall (fun signal =>
              EdgeSignal.mktPrice signal = yesPriceOf rt (EdgeSignal.market signal) * 100 /\
              EdgeSignal.asset signal = assetOf prices (EdgeSignal.market signal)) signals.
Proof.
  unfold scanForEdge, scanForEdgeWith. cbn [Promise_all bind].
  pose proof (scanLoop_signals rt prices (crypto markets)) as H. cbv zeta in H.
  destruct (scanLoopWith rt SIGMA T_EXP R_FREE prices (crypto markets) [] [])
    as [signals logs].
  exists signals, logs. cbn [fst] in H. destruct H as (H1 & H2 & H3).
  repeat split; assumption.
Qed.

(** X2. The log of a scan holds two entries for each priced crypto market,
    in the order of the list: a SCAN entry, then a TRADE entry when the
    market has an edge and a SKIP entry otherwise, both with the asset matched
    to the market.  So the log is twice as long as the list of priced
    markets, it has as many TRADE entries as there are signals, and it holds
    no HALT and no ERROR entry. *)
Theorem scan_log_accounting rt firstToReject prices markets :
  exists signals logs,
    scanForEdge rt firstToReject (Returned prices) (Returned markets) = Returned (signals, logs) /\
    map entryOf logs
    = flat_map (scanEntries rt prices) (scannedMarkets rt (crypto markets)) /\
    List.length logs = (2 * List.length (scannedMarkets rt (crypto markets)))%nat /\
    List.length (filter (isAction TRADE) logs) = List.length signals /\
    Forall (fun log => isAction HALT log = false /\ isAction ERROR log = false) logs.
Proof.
  unfold scanForEdge, scanForEdgeWith. cbn [Promise_all bind].
  pose proof (scanLoop_signals rt prices (crypto markets)) as (_ & _ & Hs).
  pose proof (scanLoop_logs rt prices (crypto markets)) as Hl.
  pose proof (scanEntries_count rt prices (scannedMarkets rt (crypto markets)))
    as (Hc1 & Hc2 & Hc3).
  destruct (scanLoopWith rt SIGMA T_EXP R_FREE prices (crypto markets) [] [])
    as [signals logs].
  exists signals, logs. cbn [fst snd] in *.
  rewrite <- Hl in Hc1, Hc2, Hc3.
  split; [reflexivity|]. split; [exact Hl|].
  split; [rewrite length_map in Hc1; exact Hc1|].
  split.
  - rewrite <- (length_map EdgeSignal.market signals), Hs, <- Hc2.
    clear. induction logs as [|l ls IH]; [reflexivity|].
    cbn [map filter]. unfold isAction at 1. unfold entryOf at 1. cbn [fst].
    destruct (Action_eqb (TradingLog.action l) TRADE); cbn [List.length]; rewrite IH; reflexivity.
  - rewrite Forall_map in Hc3. eapply Forall_impl; [|exact Hc3].
    intros l Hl'. unfold isAction, entryOf in *. cbn [fst] in Hl'.
    destruct Hl' as [-> | [-> | ->]]; split; reflexivity.
Qed.

(** ** The bands of the shipped constants *)

(** X3. With the shipped constants the fair value lies between 49.7 and 50,
    so the outcome of a market is decided by its yes-price alone on three
    bands: above 0.02 and up to 0.467 it yields one BUY signal, strictly
    between 0.47 and 0.527 it yields no signal, and from 0.53 to below 0.98
    it yields one SELL signal. *)
Theorem scan_price_bands rt prices market :
  let yesPrice := yesPriceOf rt market in
  let signals := fst (scanMarket rt prices market) in
  (0.02 < yesPrice <= 0.467 ->
     exists signal, signals = [signal] /\ EdgeSignal.side signal = BUY) /\
  (0.47 < yesPrice < 0.527 -> signals = []) /\
  (0.53 <= yesPrice < 0.98 ->
     exists signal, signals = [signal] /\ EdgeSignal.side signal = SELL).
Proof.
  intros yesPrice signals.
  pose proof (scanMarket_shape rt prices market) as Hm. cbv zeta in Hm.
  fold signals in Hm. unfold yesPrice.
  split; [|split]; intros Hy; rewrite isPriced_inside in Hm by lra;
    destruct Hm as [_ Hm].
  - destruct (hasEdge_low rt market) as [He Hd]; [lra|]. rewrite He in Hm.
    destruct Hm as (signal & Hs & Hwf & _ & Hp & _).
    exists signal. split; [exact Hs|].
    destruct (wellFormed_side signal Hwf) as [[Hside _] | [_ Hgap]]; [exact Hside|].
    destruct Hwf as (_ & Hf & _). lra.
  - rewrite hasEdge_middle in Hm by lra. exact Hm.
  - destruct (hasEdge_high rt market) as [He Hd]; [lra|]. rewrite He in Hm.
    destruct Hm as (signal & Hs & Hwf & _ & Hp & _).
    exists signal. split; [exact Hs|].
    destruct (wellFormed_side signal Hwf) as [[_ Hgap] | [Hside _]]; [|exact Hside].
    destruct Hwf as (_ & Hf & _). lra.
Qed.

Lemma constantRuntime_yes yes no market : yesPriceOf (constantRuntime yes no) market = yes.
Proof. reflexivity. Qed.

(** X3, instance: markets quoted at 0.30, 0.50 and 0.60. *)
Lemma scan_price_bands_witness :
  (exists signal,
     fst (scanMarket (constantRuntime 0.30 0.70) [] (exampleMarket "[0.30,0.70]")) = [signal] /\
     EdgeSignal.side signal = BUY) /\
  fst (scanMarket (constantRuntime 0.50 0.50) [] (exampleMarket "[0.50,0.50]")) = [] /\
  (exists signal,
     fst (scanMarket (constantRuntime 0.60 0.40) [] (exampleMarket "[0.60,0.40]")) = [signal] /\
     EdgeSignal.side signal = SELL).
Proof.
  split; [|split].
  - apply (proj1 (scan_price_bands (constantRuntime 0.30 0.70) []
                    (exampleMarket "[0.30,0.70]"))).
    rewrite constantRuntime_yes. lra.
  - apply (proj1 (proj2 (scan_price_bands (constantRuntime 0.50 0.50) []
                           (exampleMarket "[0.50,0.50]")))).
    rewrite constantRuntime_yes. lra.
  - apply (proj2 (proj2 (scan_price_bands (constantRuntime 0.60 0.40) []
                           (exampleMarket "[0.60,0.40]")))).
    rewrite constantRuntime_yes. lra.
Defined.

(** ** From scanning to sizing *)

Lemma wellFormed_kelly signal :
  wellFormedSignal signal -> 0 < kellyFractionOf signal <= MAX_POSITION_PCT.
Proof.
  intros Hwf. split; [|apply kellyFractionOf_le].
  destruct (wellFormed_side signal Hwf) as [[Hside Hgap] | [Hside Hgap]];
    destruct Hwf as (Hm & Hf & _);
    destruct fairValue_shipped as [Hlo Hhi]; rewrite <- Hf in Hlo, Hhi.
  - assert (Hraw : 0 < kellyRawOf signal).
    { unfold kellyRawOf. rewrite Hside.
      set (p := EdgeSignal.modelFair signal / 100).
      set (m := EdgeSignal.mktPrice signal / 100).
      assert (Hp : m + 0.03 <= p) by (unfold p, m; lra).
      assert (Hm0 : 0 < m < 1) by (unfold m; lra).
      assert (Hi : 1 < 1 / m).
      { unfold Rdiv. rewrite Rmult_1_l. rewrite <- Rinv_1 at 1.
        apply Rinv_lt_contravar; lra. }
      assert (Hmi : m * (1 / m) = 1) by (field; lra).
      apply Rdiv_lt_0_compat; [|lra].
      assert (Hpi : 1 < p * (1 / m)) by nra.
      lra. }
    unfold kellyFractionOf, KELLY_FRACTION, MAX_POSITION_PCT.
    apply Rlt_le_trans with (Rmin (kellyRawOf signal * 0.25) 0.05); [|apply Rmax_r].
    apply Rmin_glb_lt; lra.
  - assert (Hraw : 0 < kellyRawOf signal).
    { unfold kellyRawOf. rewrite Hside.
      set (p := EdgeSignal.modelFair signal / 100).
      set (m := EdgeSignal.mktPrice signal / 100).
      assert (Hp : p + 0.03 <= m) by (unfold p, m; lra).
      assert (Hp0 : 0.497 <= p) by (unfold p; lra).
      assert (Hm0 : 0 < 1 - m < 1) by (unfold m; lra).
      assert (Hi : 1 < 1 / (1 - m)).
      { unfold Rdiv. rewrite Rmult_1_l. rewrite <- Rinv_1 at 1.
        apply Rinv_lt_contravar; lra. }
      assert (Hmi : (1 - m) * (1 / (1 - m)) = 1) by (field; lra).
      apply Rdiv_lt_0_compat; [|lra].
      assert (Hpi : 1 < p * (1 / (1 - m))) by nra.
      lra. }
    unfold kellyFractionOf, KELLY_FRACTION, MAX_POSITION_PCT.
    apply Rlt_le_trans with (Rmin (kellyRawOf signal * 0.25) 0.05); [|apply Rmax_r].
    apply Rmin_glb_lt; lra.
Qed.

(** X6. Scanning and sizing compose: every signal a scan emits has a Kelly
    fraction that is strictly positive and at most MAX_POSITION_PCT, so
    sizing never drops a scanned signal for its fraction, and on a positive
    balance every position sized from the signals of a scan is well sized,
    with no assumption on the markets. *)
Theorem scanned_signals_are_sized_within_bounds
    rt firstToReject prices markets bal getOpenOrders b :
  balance bal = Some b -> 0 < b ->
  exists signals logs positions sizeLogs,
    scanForEdge rt firstToReject (Returned prices) (Returned markets)
    = Returned (signals, logs) /\
    Forall (fun signal => 0 < kellyFractionOf signal <= MAX_POSITION_PCT) signals /\
    sizePositions rt (Returned (Some bal)) getOpenOrders signals
    = Returned (positions, sizeLogs) /\
    Forall (wellSizedPosition b) positions.
Proof.
  intros Hbal Hb.
  unfold scanForEdge, scanForEdgeWith. cbn [Promise_all bind].
  pose proof (scanLoop_signals rt prices (crypto markets)) as (Hwf & _ & _).
  destruct (scanLoopWith rt SIGMA T_EXP R_FREE prices (crypto markets) [] [])
    as [signals logs].
  cbn [fst] in Hwf.
  destruct (sizePositions_kept rt (Returned (Some bal)) getOpenOrders signals)
    as (kept & sizeLogs & Hsub & Heq & Hall).
  rewrite Hbal in Heq, Hall. cbn [or0] in Heq, Hall.
  exists signals, logs, (map (positionOf b) kept), sizeLogs.
  split; [reflexivity|].
  split.
  { eapply Forall_impl; [|exact Hwf]. intros s Hs. apply wellFormed_kelly. exact Hs. }
  split; [exact Heq|].
  apply Forall_forall. intros pos Hin.
  apply in_map_iff in Hin. destruct Hin as (s & <- & Hs).
  rewrite Forall_forall in Hall, Hwf.
  destruct (Hall s Hs) as [Hk Hsh].
  apply positionOf_well_sized; auto.
  assert (Hw : wellFormedSignal s) by (apply Hwf; eapply subsequence_In; eauto).
  destruct Hw as (Hm & _). lra.
Qed.

(** X6, instance: one market quoted at 0.45, sized on a balance of 100. *)
Lemma scanned_signals_are_sized_within_bounds_witness :
  (balance {| balance := Some 100 |} = Some 100 /\ 0 < 100) /\
  exists signals logs positions sizeLogs,
    scanForEdge sampleRuntime PricesFetcher (Returned [])
      (Returned {| crypto := [exampleMarket "[0.45,0.55]"]; ai := []; sports := [];
                   politics := [] |}) = Returned (signals, logs) /\
    Forall (fun signal => 0 < kellyFractionOf signal <= MAX_POSITION_PCT) signals /\
    sizePositions sampleRuntime (Returned (Some {| balance := Some 100 |}))
                  (Returned []) signals = Returned (positions, sizeLogs) /\
    Forall (wellSizedPosition 100) positions.
Proof.
  assert (H : balance {| balance := Some 100 |} = Some 100 /\ 0 < 100)
    by (split; [reflexivity | lra]).
  split; [exact H|]. destruct H as [H1 H2].
  exact (scanned_signals_are_sized_within_bounds sampleRuntime PricesFetcher []
           {| crypto := [exampleMarket "[0.45,0.55]"]; ai := []; sports := [];
              politics := [] |}
           {| balance := Some 100 |} (Returned []) 100 H1 H2).
Defined.

(** ** Execution *)

Section ExecutionMore.

Variable rt : JsRuntime.
Variable placeOrder : nat -> ClobOrder.t -> Outcome ClobOrderResponse.t.

Lemma executeLoop_accounting positions : forall n results logs,
  exists newresults newlogs,
    executeLoop rt placeOrder n positions results logs
    = (results ++ newresults, logs ++ newlogs) /\
    map TradingLog.asset newlogs
    = map (fun pos => Some (EdgeSignal.asset (SizedPosition.signal pos))) positions /\
    subsequence (map TradeResult.position newresults) positions /\
    List.length (filter (isAction TRADE) newlogs) = List.length newresults /\
    (List.length newresults + List.length (filter (isAction ERROR) newlogs))%nat
    = List.length positions /\
    Forall (fun log => TradingLog.action log = TRADE \/ TradingLog.action log = ERROR)
           newlogs.
Proof using Type.
  induction positions as [|pos rest IH]; intros n results logs.
  - exists [], []. simpl. rewrite !app_nil_r. repeat split; constructor.
  - destruct (placeOrder n (orderOf rt pos)) as [response | err] eqn:Hr.
    + rewrite (executeLoop_success _ _ _ _ _ _ _ _ Hr).
      edestruct (IH (S n)) as (nr & nl & Heq & Ha & Hsub & Htr & Hsum & Hall).
      rewrite Heq. eexists (_ :: nr), (_ :: nl).
      rewrite <- !app_assoc. split; [reflexivity|].
      cbn [map filter isAction TradingLog.action TradingLog.asset Action_eqb
           List.length TradeResult.position].
      fold (isAction TRADE). fold (isAction ERROR).
      rewrite Ha, Htr. repeat split.
      * apply subsequence_keep. exact Hsub.
      * lia.
      * constructor; [left; reflexivity | exact Hall].
    + rewrite (executeLoop_failure _ _ _ _ _ _ _ _ Hr).
      edestruct (IH (S n)) as (nr & nl & Heq & Ha & Hsub & Htr & Hsum & Hall).
      rewrite Heq. exists nr. eexists (_ :: nl).
      rewrite <- !app_assoc. split; [reflexivity|].
      unfold orderFailedLog.
      cbn [map filter isAction TradingLog.action TradingLog.asset Action_eqb
           List.length].
      fold (isAction TRADE). fold (isAction ERROR).
      rewrite Ha, Htr. repeat split.
      * apply subsequence_skip. exact Hsub.
      * lia.
      * constructor; [right; reflexivity | exact Hall].
Qed.

(** The loop calls the venue once per position, with the numbers of the
    calls in sequence, and what it appends is decided by the answers. *)
Lemma executeLoop_calls positions : forall n results logs,
  executeLoop rt placeOrder n positions results logs
  = (results ++ flat_map (acceptedResult rt placeOrder)
                         (combine (seq n (List.length positions)) positions),
     logs ++ map (orderLog rt placeOrder)
                 (combine (seq n (List.length positions)) positions)).
Proof using Type.
  induction positions as [|pos rest IH]; intros n results logs.
  - simpl. rewrite !app_nil_r. reflexivity.
  - cbn [List.length seq combine flat_map map].
    unfold acceptedResult at 1, orderLog at 1. cbn [fst snd].
    destruct (placeOrder n (orderOf rt pos)) as [response | err] eqn:Hr.
    + rewrite (executeLoop_success _ _ _ _ _ _ _ _ Hr), IH, <- !app_assoc.
      unfold tradeLogDetails, askedPrice, yesPriceOf.
      destruct (EdgeSignal.side (SizedPosition.signal pos)); reflexivity.
    + rewrite (executeLoop_failure _ _ _ _ _ _ _ _ Hr), IH, <- !app_assoc.
      reflexivity.
Qed.

End ExecutionMore.

(** X7. Execution accounts for every position, whatever each order does.
    The venue is called once per position, in order; the results are exactly
    the accepted orders, in order, each with its position and the order id
    and status the venue answered with; the log is exactly one entry per
    position, in order: the TRADE entry of an accepted order, with its side,
    price, size, edge, Kelly fraction and order id, or the ERROR entry of a
    refused one, with the message of its error.  So each entry carries the
    asset of its position, there are as many results as TRADE entries, and
    results and ERROR entries together are as many as the positions. *)
Theorem execution_accounts_for_every_position rt placeOrder positions :
  let results := fst (executeTrades rt placeOrder positions) in
  let logs := snd (executeTrades rt placeOrder positions) in
  results = flat_map (acceptedResult rt placeOrder) (numbered positions) /\
  logs = map (orderLog rt placeOrder) (numbered positions) /\
  map TradingLog.asset logs
  = map (fun pos => Some (EdgeSignal.asset (SizedPosition.signal pos))) positions /\
  subsequence (map TradeResult.position results) positions /\
  List.length (filter (isAction TRADE) logs) = List.length results /\
  (List.length results + List.length (filter (isAction ERROR) logs))%nat
  = List.length positions /\
  Forall (fun log => TradingLog.action log = TRADE \/ TradingLog.action log = ERROR) logs.
Proof.
  cbv zeta.
  assert (Hcalls := executeLoop_calls rt placeOrder positions 0 [] []).
  fold (numbered positions) in Hcalls. cbn [app] in Hcalls.
  destruct (executeLoop_accounting rt placeOrder positions 0 [] [])
    as (nr & nl & Heq & H).
  unfold executeTrades. rewrite Heq. rewrite Heq in Hcalls. cbn [app fst snd] in *.
  injection Hcalls as Hr Hl.
  split; [exact Hr|]. split; [exact Hl|]. exact H.
Qed.

Lemma Math_round_bounds x : x - 0.5 < Math_round x <= x + 0.5.
Proof.
  unfold Math_round. pose proof (Zfloor_bound (x + 0.5)) as H. lra.
Qed.

(** X8. For a position on a market whose yes-price lies strictly inside
    (0.02, 0.98), the order sent to the venue has a price that is a whole
    number of cents between 2 and 98, within half a cent of the price asked
    (the yes-price for BUY, one minus the yes-price for SELL); its size is
    the share count of the position, its side the side of the signal and its
    token the id of the market. *)
Theorem order_price_is_whole_cents rt pos :
  0.02 < yesPriceOf rt (EdgeSignal.market (SizedPosition.signal pos)) < 0.98 ->
  let order := orderOf rt pos in
  (exists cents : Z, (2 <= cents <= 98)%Z /\ ClobOrder.price order = IZR cents / 100) /\
  Rabs (ClobOrder.price order - askedPrice rt pos) <= 0.005 /\
  ClobOrder.size order = SizedPosition.shares pos /\
  ClobOrder.side order = EdgeSignal.side (SizedPosition.signal pos) /\
  ClobOrder.tokenID order = PolymarketMarket.id (EdgeSignal.market (SizedPosition.signal pos)).
Proof.
  intros Hy order.
  assert (Hp : 0.02 < askedPrice rt pos < 0.98).
  { unfold askedPrice. destruct (EdgeSignal.side _); lra. }
  assert (Hprice : ClobOrder.price order = Math_round (askedPrice rt pos * 100) / 100).
  { unfold order, orderOf, askedPrice, yesPriceOf. cbn [ClobOrder.price].
    destruct (EdgeSignal.side _); reflexivity. }
  pose proof (Math_round_bounds (askedPrice rt pos * 100)) as Hb.
  split; [|split; [|repeat split]].
  - exists (Zfloor (askedPrice rt pos * 100 + 0.5)). split; [|exact Hprice].
    unfold Math_round in Hb.
    split.
    + assert (H : (1 < Zfloor (askedPrice rt pos * 100 + 0.5))%Z)
        by (apply lt_IZR; lra). lia.
    + assert (H : (Zfloor (askedPrice rt pos * 100 + 0.5) < 99)%Z)
        by (apply lt_IZR; lra). lia.
  - rewrite Hprice. apply Rabs_le. lra.
Qed.

(** X8, instance: a BUY position on a market quoted at 0.50. *)
Lemma order_price_is_whole_cents_witness :
  let pos := positionOf 100 (exampleSignal 90 50 BUY) in
  let order := orderOf sampleRuntime pos in
  (exists cents : Z, (2 <= cents <= 98)%Z /\ ClobOrder.price order = IZR cents / 100) /\
  Rabs (ClobOrder.price order - askedPrice sampleRuntime pos) <= 0.005 /\
  ClobOrder.size order = SizedPosition.shares pos /\
  ClobOrder.side order = EdgeSignal.side (SizedPosition.signal pos) /\
  ClobOrder.tokenID order = PolymarketMarket.id (EdgeSignal.market (SizedPosition.signal pos)).
Proof.
  apply (order_price_is_whole_cents sampleRuntime (positionOf 100 (exampleSignal 90 50 BUY))).
  change (yesPriceOf sampleRuntime
            (EdgeSignal.market (SizedPosition.signal (positionOf 100 (exampleSignal 90 50 BUY)))))
    with 0.50.
  lra.
Defined.

(** ** A cycle without signals *)

(** X10. A cycle in which every crypto market is outside the yes-price
    filter or quoted strictly between 0.47 and 0.527 finds no signal: it
    returns the log of the scan, made of SCAN and SKIP entries only, followed
    by the entry [No edge signals found], and what the venue would have
    answered plays no part in it. *)
Theorem cycle_without_edge_never_reaches_the_venue rt w prices markets :
  fetchPrices w = Returned prices ->
  fetchCategorizedMarkets w = Returned markets ->
  Forall (fun market =>
            yesPriceOf rt market <= 0.02 \/ 0.47 < yesPriceOf rt market < 0.527 \/
            0.98 <= yesPriceOf rt market) (crypto markets) ->
  exists scanLogs,
    scanForEdge rt (firstToReject w) (Returned prices) (Returned markets) = Returned ([], scanLogs) /\
    runTradingCycle rt w = Returned (scanLogs ++ [noSignalsLog]) /\
    Forall (fun log => TradingLog.action log = SCAN \/ TradingLog.action log = SKIP)
           scanLogs.
Proof.
  intros Hp Hm Hq.
  assert (Hnone : filter (hasEdge rt) (scannedMarkets rt (crypto markets)) = []).
  { unfold scannedMarkets. induction (crypto markets) as [|m rest IH]; [reflexivity|].
    inversion Hq as [|? ? Hm1 Hrest]; subst.
    cbn [filter]. destruct (isPriced rt m) eqn:Ep.
    - cbn [filter]. destruct Hm1 as [Hlo | [Hmid | Hhi]].
      + unfold isPriced in Ep. destruct (Rle_dec _ _); [discriminate | lra].
      + rewrite hasEdge_middle by assumption. apply IH. assumption.
      + unfold isPriced in Ep. destruct (Rle_dec _ _); [discriminate|].
        destruct (Rge_dec _ _); [discriminate | lra].
    - apply IH. assumption. }
  pose proof (scanLoop_signals rt prices (crypto markets)) as (_ & _ & Hs).
  pose proof (scanLoop_logs rt prices (crypto markets)) as Hl.
  unfold runTradingCycle. rewrite Hp, Hm.
  unfold scanForEdge, scanForEdgeWith. cbn [Promise_all bind].
  destruct (scanLoopWith rt SIGMA T_EXP R_FREE prices (crypto markets) [] [])
    as [signals logs].
  cbn [fst snd] in *. rewrite Hnone in Hs.
  destruct signals; [|discriminate].
  exists logs. split; [reflexivity|]. split; [reflexivity|].
  clear Hs. revert logs Hl.
  assert (Hent : Forall (fun e => fst e = SCAN \/ fst e = SKIP)
                   (flat_map (scanEntries rt prices) (scannedMarkets rt (crypto markets)))).
  { induction (scannedMarkets rt (crypto markets)) as [|m rest IH]; [constructor|].
    cbn [filter] in Hnone. destruct (hasEdge rt m) eqn:Ee; [discriminate|].
    cbn [flat_map]. unfold scanEntries at 1. rewrite Ee. cbn [app].
    repeat (apply Forall_cons; [cbn [fst]; auto|]). apply IH. exact Hnone. }
  intros logs Hl. rewrite <- Hl in Hent. rewrite Forall_map in Hent. exact Hent.
Qed.

(** X10, instance: one market quoted at 0.50 and a venue that is down. *)
Lemma cycle_without_edge_witness :
  exists scanLogs,
    scanForEdge sampleRuntime PricesFetcher (Returned [])
      (Returned {| crypto := [exampleMarket "[0.50,0.50]"]; ai := []; sports := [];
                   politics := [] |}) = Returned ([], scanLogs) /\
    runTradingCycle sampleRuntime quietWorld = Returned (scanLogs ++ [noSignalsLog]) /\
    Forall (fun log => TradingLog.action log = SCAN \/ TradingLog.action log = SKIP)
           scanLogs.
Proof.
  apply (cycle_without_edge_never_reaches_the_venue sampleRuntime quietWorld []
           {| crypto := [exampleMarket "[0.50,0.50]"]; ai := []; sports := [];
              politics := [] |}).
  - reflexivity.
  - reflexivity.
  - constructor; [|constructor]. right. left.
    change (yesPriceOf sampleRuntime (exampleMarket "[0.50,0.50]")) with 0.50. lra.
Defined.

(** ** Picking and listing markets *)

Section Listing.

Variable rt : JsRuntime.
Variable BLOCKLIST_test : string -> bool.
Variable CATEGORY_ALLOW_test : MarketApi.MarketCategory -> string -> bool.

Lemma pickBestLoop_spec mkts : forall best bestScore,
  exists finalScore,
    bestScore <= finalScore /\
    (forall m y, In m mkts -> eligible rt m y -> MarketApi.scoreOf rt y m <= finalScore) /\
    ((MarketApi.pickBestLoop rt mkts best bestScore = best /\ finalScore = bestScore) \/
     (exists b y, MarketApi.pickBestLoop rt mkts best bestScore = Some b /\ In b mkts /\
                  eligible rt b y /\ MarketApi.scoreOf rt y b = finalScore /\
                  bestScore < finalScore)).
Proof using Type.
  induction mkts as [|m rest IH]; intros best bestScore.
  - exists bestScore. split; [lra|]. split; [intros ? ? []|]. left. split; reflexivity.
  - assert (Hskip : (forall y, ~ eligible rt m y) ->
              MarketApi.pickBestLoop rt (m :: rest) best bestScore
              = MarketApi.pickBestLoop rt rest best bestScore ->
              exists finalScore,
                bestScore <= finalScore /\
                (forall m0 y, In m0 (m :: rest) -> eligible rt m0 y ->
                              MarketApi.scoreOf rt y m0 <= finalScore) /\
                ((MarketApi.pickBestLoop rt (m :: rest) best bestScore = best /\
                  finalScore = bestScore) \/
                 (exists b y, MarketApi.pickBestLoop rt (m :: rest) best bestScore = Some b /\
                              In b (m :: rest) /\ eligible rt b y /\
                              MarketApi.scoreOf rt y b = finalScore /\
                              bestScore < finalScore))).
    { intros Hne Heq. rewrite Heq.
      destruct (IH best bestScore) as (fs & Hle & Hall & Hres).
      exists fs. split; [exact Hle|]. split.
      - intros m0 y [<- | Hin] He; [exfalso; exact (Hne y He) | eauto].
      - destruct Hres as [Hl | (b & y & Hb & Hin & He & Hs & Hlt)]; [left; exact Hl|].
        right. exists b, y. repeat split; try assumption; try (right; assumption);
          apply He. }
    destruct (MarketApi.pickYes_try rt (PolymarketMarket.outcomePrices m))
      as [yes | err] eqn:Ey.
    2:{ apply Hskip.
        - intros y [Hy _]. congruence.
        - cbn [MarketApi.pickBestLoop]. rewrite Ey. reflexivity. }
    destruct (Rle_dec yes 0.02) as [Hlo | Hlo].
    { apply Hskip.
      - intros y [Hy Hr]. assert (y = yes) by congruence. subst. lra.
      - cbn [MarketApi.pickBestLoop]. rewrite Ey.
        destruct (Rle_dec yes 0.02); [reflexivity | contradiction]. }
    destruct (Rge_dec yes 0.98) as [Hhi | Hhi].
    { apply Hskip.
      - intros y [Hy Hr]. assert (y = yes) by congruence. subst. lra.
      - cbn [MarketApi.pickBestLoop]. rewrite Ey.
        destruct (Rle_dec yes 0.02); [contradiction|].
        destruct (Rge_dec yes 0.98); [reflexivity | contradiction]. }
    assert (Hel : eligible rt m yes) by (split; [exact Ey | lra]).
    cbn [MarketApi.pickBestLoop]. rewrite Ey.
    destruct (Rle_dec yes 0.02); [contradiction|].
    destruct (Rge_dec yes 0.98); [contradiction|].
    destruct (Rgt_dec (MarketApi.scoreOf rt yes m) bestScore) as [Hgt | Hgt].
    + destruct (IH (Some m) (MarketApi.scoreOf rt yes m)) as (fs & Hle & Hall & Hres).
      exists fs. split; [lra|]. split.
      * intros m0 y [<- | Hin] He; [|eauto].
        destruct He as [Hy _]. assert (y = yes) by congruence. subst. exact Hle.
      * right. destruct Hres as [[Hl Hfs] | (b & y & Hb & Hin & He & Hs & Hlt)].
        -- exists m, yes. rewrite Hl, Hfs. repeat split; try (left; reflexivity);
             try apply Hel; lra.
        -- exists b, y. repeat split; try assumption; try (right; assumption);
             try apply He. lra.
    + destruct (IH best bestScore) as (fs & Hle & Hall & Hres).
      exists fs. split; [exact Hle|]. split.
      * intros m0 y [<- | Hin] He; [|eauto].
        destruct He as [Hy _]. assert (y = yes) by congruence. subst. lra.
      * destruct Hres as [Hl | (b & y & Hb & Hin & He & Hs & Hlt)]; [left; exact Hl|].
        right. exists b, y. repeat split; try assumption; try (right; assumption);
          apply He.
Qed.

Lemma scoreOf_floor y m :
  0.02 < y < 0.98 -> 0 <= or0 (StringToNumber rt (PolymarketMarket.volume m)) ->
  0 < MarketApi.scoreOf rt y m.
Proof using Type.
  intros Hy Hv. unfold MarketApi.scoreOf.
  assert (Ha : Rabs (y - 0.5) < 0.48) by (apply Rabs_def1; lra).
  assert (Hm : 0 <= Rmin (or0 (StringToNumber rt (PolymarketMarket.volume m)) / 10000000) 1.0).
  { apply Rmin_glb; [|lra]. apply Rmult_le_pos; [exact Hv|].
    apply Rlt_le, Rinv_0_lt_compat. lra. }
  lra.
Qed.

Lemma eligible_isPriced m y :
  eligible rt m y -> yesPriceOf rt m = y /\ isPriced rt m = true.
Proof using Type.
  intros [Hy Hr].
  assert (Hyes : yesPriceOf rt m = y).
  { unfold yesPriceOf, parseOutcomePrices, parseOutcomePrices_try.
    unfold MarketApi.pickYes_try in Hy.
    destruct (JSON_parse_call rt (PolymarketMarket.outcomePrices m)) as [arr | err];
      [|discriminate].
    cbn [bind] in *.
    destruct arr; cbn [js_index bind try_catch fst] in *;
      try discriminate; injection Hy as Hy; exact Hy. }
  split; [exact Hyes|]. apply isPriced_inside. rewrite Hyes. exact Hr.
Qed.

Lemma pickBestMarket_eligible mkts best :
  MarketApi.pickBestMarket rt mkts = Some best ->
  exists yes, In best mkts /\ eligible rt best yes /\ -1 < MarketApi.scoreOf rt yes best /\
    forall m y, In m mkts -> eligible rt m y ->
                MarketApi.scoreOf rt y m <= MarketApi.scoreOf rt yes best.
Proof using Type.
  unfold MarketApi.pickBestMarket. intros Hb.
  destruct (pickBestLoop_spec mkts None (-1)) as (fs & Hle & Hall & Hres).
  destruct Hres as [[Hn _] | (b & y & Hp & Hin & He & Hs & Hlt)]; [congruence|].
  rewrite Hp in Hb. injection Hb as <-.
  exists y. rewrite Hs. repeat split; try assumption; apply He.
Qed.

Lemma getCategory_push result cat best cat' :
  MarketApi.getCategory (MarketApi.pushCategory result cat best) cat'
  = MarketApi.getCategory result cat' \/
  (cat' = cat /\
   MarketApi.getCategory (MarketApi.pushCategory result cat best) cat'
   = MarketApi.getCategory result cat ++ [best]).
Proof using Type.
  destruct cat, cat'; cbn; auto.
Qed.

Lemma totalListed_push result cat best :
  totalListed (MarketApi.pushCategory result cat best) = S (totalListed result).
Proof using Type.
  unfold totalListed. destruct cat; cbn; rewrite length_app; cbn; lia.
Qed.

(** One event lists at most one market, in a category that had room and
    whose pattern matches the title. *)
Lemma categorizeInto_cases cats title ms result :
  MarketApi.categorizeInto rt CATEGORY_ALLOW_test cats title ms result = result \/
  exists cat best,
    In cat cats /\
    (List.length (MarketApi.getCategory result cat) < MarketApi.PER_CATEGORY)%nat /\
    CATEGORY_ALLOW_test cat title = true /\
    MarketApi.pickBestMarket rt ms = Some best /\
    MarketApi.categorizeInto rt CATEGORY_ALLOW_test cats title ms result
    = MarketApi.pushCategory result cat best.
Proof using Type.
  induction cats as [|cat more IH]; [left; reflexivity|].
  cbn [MarketApi.categorizeInto].
  assert (Hnext :
    MarketApi.categorizeInto rt CATEGORY_ALLOW_test more title ms result = result \/
    exists cat0 best,
      In cat0 (cat :: more) /\
      (List.length (MarketApi.getCategory result cat0) < MarketApi.PER_CATEGORY)%nat /\
      CATEGORY_ALLOW_test cat0 title = true /\
      MarketApi.pickBestMarket rt ms = Some best /\
      MarketApi.categorizeInto rt CATEGORY_ALLOW_test more title ms result
      = MarketApi.pushCategory result cat0 best).
  { destruct IH as [IH | (c & b & Hin & IH)]; [left; exact IH|].
    right. exists c, b. split; [right; exact Hin | exact IH]. }
  destruct (Nat.leb MarketApi.PER_CATEGORY
              (List.length (MarketApi.getCategory result cat))) eqn:Hfull;
    [exact Hnext|].
  destruct (CATEGORY_ALLOW_test cat title) eqn:Hallow; cbn [negb]; [|exact Hnext].
  destruct (MarketApi.pickBestMarket rt ms) as [best|] eqn:Hbest; [|exact Hnext].
  right. exists cat, best. apply Nat.leb_gt in Hfull.
  repeat split; try assumption; try reflexivity. left. reflexivity.
Qed.

Lemma sourcedFrom_cons evt events cat m :
  sourcedFrom rt BLOCKLIST_test CATEGORY_ALLOW_test events cat m ->
  sourcedFrom rt BLOCKLIST_test CATEGORY_ALLOW_test (evt :: events) cat m.
Proof using Type.
  intros (e & Hin & H). exists e. split; [right; exact Hin | exact H].
Qed.

Lemma categorizeEvents_inv events : forall result,
  let final := MarketApi.categorizeEvents rt BLOCKLIST_test CATEGORY_ALLOW_test
                 events result in
  (forall cat, exists added,
      MarketApi.getCategory final cat = MarketApi.getCategory result cat ++ added /\
      Forall (sourcedFrom rt BLOCKLIST_test CATEGORY_ALLOW_test events cat) added /\
      ((List.length (MarketApi.getCategory result cat) <= MarketApi.PER_CATEGORY)%nat ->
       (List.length (MarketApi.getCategory final cat) <= MarketApi.PER_CATEGORY)%nat)) /\
  (totalListed final
   <= totalListed result
      + List.length (filter (fun evt => negb (BLOCKLIST_test (MarketApi.titleOf evt))) events))%nat.
Proof using Type.
  induction events as [|evt rest IH]; intros result; cbv zeta.
  - cbn [MarketApi.categorizeEvents filter List.length]. split; [|lia].
    intros cat. exists []. rewrite app_nil_r. repeat split; auto.
  - cbn [MarketApi.categorizeEvents filter].
    destruct (BLOCKLIST_test (MarketApi.titleOf evt)) eqn:Hblock; cbn [negb].
    + destruct (IH result) as [Hcat Htot]. split; [|exact Htot].
      intros cat. destruct (Hcat cat) as (added & Heq & Hsrc & Hcap).
      exists added. repeat split; try assumption.
      eapply Forall_impl; [|exact Hsrc]. intros m. apply sourcedFrom_cons.
    + destruct (categorizeInto_cases MarketApi.allCategories (MarketApi.titleOf evt)
                  (MarketApi.marketsOf evt) result)
        as [Hsame | (c & best & _ & Hroom & Hallow & Hbest & Hpush)].
      * rewrite Hsame. destruct (IH result) as [Hcat Htot]. split; [|cbn [List.length]; lia].
        intros cat. destruct (Hcat cat) as (added & Heq & Hsrc & Hcap).
        exists added. repeat split; try assumption.
        eapply Forall_impl; [|exact Hsrc]. intros m. apply sourcedFrom_cons.
      * rewrite Hpush.
        destruct (IH (MarketApi.pushCategory result c best)) as [Hcat Htot].
        split; [|rewrite totalListed_push in Htot; cbn [List.length]; lia].
        intros cat. destruct (Hcat cat) as (added & Heq & Hsrc & Hcap).
        assert (Hsrc' : Forall (sourcedFrom rt BLOCKLIST_test CATEGORY_ALLOW_test
                                  (evt :: rest) cat) added).
        { eapply Forall_impl; [|exact Hsrc]. intros m. apply sourcedFrom_cons. }
        destruct (getCategory_push result c best cat) as [Hg | [-> Hg]].
        -- rewrite Hg in Heq, Hcap. exists added. repeat split; assumption.
        -- rewrite Hg in Heq, Hcap. exists (best :: added).
           split; [rewrite Heq, <- app_assoc; reflexivity|]. split.
           ++ constructor; [|exact Hsrc'].
              exists evt. repeat split; try assumption. left. reflexivity.
           ++ intros _. apply Hcap.
              rewrite length_app. cbn [List.length].
              unfold MarketApi.PER_CATEGORY in *. lia.
Qed.

End Listing.

(** X11. The market picked from an event is one of its markets, has a
    yes-price that parses and lies strictly inside (0.02, 0.98), has a score
    above -1, and no eligible market of the event scores higher.  No market
    is picked only when every eligible market has a negative volume and a
    score of at most -1; in particular an event with no eligible market
    yields none. *)
Theorem pickBestMarket_picks_the_best_eligible rt mkts :
  match MarketApi.pickBestMarket rt mkts with
  | Some best =>
      exists yes,
        In best mkts /\ eligible rt best yes /\ -1 < MarketApi.scoreOf rt yes best /\
        forall m y, In m mkts -> eligible rt m y ->
                    MarketApi.scoreOf rt y m <= MarketApi.scoreOf rt yes best
  | None =>
      forall m y, In m mkts -> eligible rt m y ->
                  MarketApi.scoreOf rt y m <= -1 /\
                  or0 (StringToNumber rt (PolymarketMarket.volume m)) < 0
  end.
Proof.
  destruct (MarketApi.pickBestMarket rt mkts) as [best|] eqn:Hb.
  - apply pickBestMarket_eligible. exact Hb.
  - unfold MarketApi.pickBestMarket in Hb.
    destruct (pickBestLoop_spec rt mkts None (-1)) as (fs & Hle & Hall & Hres).
    destruct Hres as [[_ Hfs] | (b & y & Hp & _)]; [|congruence].
    intros m y Hin He. specialize (Hall m y Hin He). rewrite Hfs in Hall.
    split; [exact Hall|].
    destruct (Rlt_dec (or0 (StringToNumber rt (PolymarketMarket.volume m))) 0)
      as [Hv | Hv]; [exact Hv|].
    exfalso. pose proof (scoreOf_floor rt y m (proj2 He) ltac:(lra)). lra.
Qed.

(** X12. In the listing built from an answer of the events endpoint, every
    category holds at most PER_CATEGORY markets; every market listed under a
    category is the best market of an event of the answer whose title is not
    blocked and matches the pattern of that category; and the listing holds
    at most one market per event that is not blocked. *)
Theorem listing_is_capped_and_sourced rt BLOCKLIST_test CATEGORY_ALLOW_test events :
  let result := MarketApi.categorizeEvents rt BLOCKLIST_test CATEGORY_ALLOW_test
                  events MarketApi.emptyResult in
  (forall cat,
      (List.length (MarketApi.getCategory result cat) <= MarketApi.PER_CATEGORY)%nat /\
      Forall (sourcedFrom rt BLOCKLIST_test CATEGORY_ALLOW_test events cat)
             (MarketApi.getCategory result cat)) /\
  (totalListed result
   <= List.length (filter (fun evt => negb (BLOCKLIST_test (MarketApi.titleOf evt))) events))%nat.
Proof.
  cbv zeta.
  destruct (categorizeEvents_inv rt BLOCKLIST_test CATEGORY_ALLOW_test events
              MarketApi.emptyResult) as [Hcat Htot].
  split; [|exact Htot].
  intros cat. destruct (Hcat cat) as (added & Heq & Hsrc & Hcap).
  split.
  - apply Hcap. destruct cat; cbn; lia.
  - rewrite Heq. destruct cat; cbn [MarketApi.getCategory MarketApi.emptyResult crypto ai
      sports politics app]; exact Hsrc.
Qed.

(** X13. Listing and scanning use the same filter: every crypto market of a
    freshly built listing is priced by the scan, so a scan of a fresh listing
    logs exactly two entries per listed crypto market, at most six entries,
    and emits at most three signals. *)
Theorem listed_crypto_markets_are_all_scanned rt BLOCKLIST_test CATEGORY_ALLOW_test
    firstToReject events prices :
  let result := MarketApi.categorizeEvents rt BLOCKLIST_test CATEGORY_ALLOW_test
                  events MarketApi.emptyResult in
  scannedMarkets rt (crypto result) = crypto result /\
  exists signals logs,
    scanForEdge rt firstToReject (Returned prices) (Returned result) = Returned (signals, logs) /\
    List.length logs = (2 * List.length (crypto result))%nat /\
    (List.length logs <= 6)%nat /\ (List.length signals <= 3)%nat.
Proof.
  cbv zeta.
  destruct (categorizeEvents_inv rt BLOCKLIST_test CATEGORY_ALLOW_test events
              MarketApi.emptyResult) as [Hcat _].
  destruct (Hcat MarketApi.Crypto) as (added & Heq & Hsrc & Hcap).
  cbn [MarketApi.getCategory MarketApi.emptyResult crypto app] in Heq, Hcap.
  set (result := MarketApi.categorizeEvents rt BLOCKLIST_test CATEGORY_ALLOW_test
                   events MarketApi.emptyResult) in *.
  assert (Hlen : (List.length (crypto result) <= 3)%nat).
  { apply Hcap. cbn. lia. }
  assert (Hall : scannedMarkets rt (crypto result) = crypto result).
  { rewrite Heq. clear Heq Hcap Hlen. unfold scannedMarkets.
    induction Hsrc as [|m l (evt & _ & _ & _ & Hbest) _ IH]; [reflexivity|].
    cbn [filter].
    destruct (pickBestMarket_eligible rt _ _ Hbest) as (yes & _ & Hel & _).
    destruct (eligible_isPriced rt m yes Hel) as [_ Hp]. rewrite Hp, IH. reflexivity. }
  split; [exact Hall|].
  unfold scanForEdge, scanForEdgeWith. cbn [Promise_all bind].
  pose proof (scanLoop_signals rt prices (crypto result)) as (_ & _ & Hs).
  pose proof (scanLoop_logs rt prices (crypto result)) as Hl.
  pose proof (scanEntries_count rt prices (scannedMarkets rt (crypto result)))
    as (Hc1 & _ & _).
  destruct (scanLoopWith rt SIGMA T_EXP R_FREE prices (crypto result) [] [])
    as [signals logs].
  cbn [fst snd] in *. exists signals, logs.
  rewrite <- Hl, length_map, Hall in Hc1.
  assert (Hsl : (List.length signals <= List.length (crypto result))%nat).
  { rewrite <- (length_map EdgeSignal.market signals), Hs, Hall.
    apply subsequence_length, subsequence_filter. }
  repeat split; try assumption; lia.
Qed.

(** ** The caches of the market data *)

(** X14. The cache of the market listing.  What [fetchCategorizedMarkets]
    returns is what the cache holds afterwards, and it throws only when the
    cache is empty, leaving it empty.  A cache younger than 60 seconds is
    returned whatever the network does.  The cache changes only when the
    endpoint answered with a 2xx status and a body that parsed, and then it
    holds the listing built from that body, stamped with the clock. *)
Theorem markets_cache_protocol rt BLOCKLIST_test CATEGORY_ALLOW_test
    polyGrouped now1 now2 http :
  let answer := fst (MarketApi.fetchCategorizedMarkets rt BLOCKLIST_test
                       CATEGORY_ALLOW_test polyGrouped now1 now2 http) in
  let cache := snd (MarketApi.fetchCategorizedMarkets rt BLOCKLIST_test
                      CATEGORY_ALLOW_test polyGrouped now1 now2 http) in
  match answer with
  | Returned markets => exists c, cache = Some c /\ data c = markets
  | Threw _ => polyGrouped = None /\ cache = None
  end /\
  (forall c, polyGrouped = Some c -> (now1 - ts c < 60000)%Z ->
             answer = Returned (data c) /\ cache = polyGrouped) /\
  (cache = polyGrouped \/
   exists status events,
     http = Response status (Returned events) /\ res_ok status = true /\
     cache = Some {| data := MarketApi.categorizeEvents rt BLOCKLIST_test
                               CATEGORY_ALLOW_test events MarketApi.emptyResult;
                     ts := now2 |}).
Proof.
  cbv zeta. unfold MarketApi.fetchCategorizedMarkets, MarketApi.fetchCategorizedMarkets_try.
  split; [|split].
  - destruct polyGrouped as [c|].
    + destruct (now1 - ts c <? 60000)%Z; cbn [fst snd]; [eauto|].
      destruct http as [e | status json]; cbn [fst snd]; [eauto|].
      destruct (Z.eqb status 429); cbn [fst snd]; [eauto|].
      destruct (negb (res_ok status)); cbn [fst snd]; [eauto|].
      destruct json as [events | e]; cbn [bind fst snd]; eauto.
    + destruct http as [e | status json]; cbn [fst snd]; [auto|].
      destruct (Z.eqb status 429); cbn [fst snd];
        (destruct (negb (res_ok status)); cbn [fst snd]; [auto|]);
        (destruct json as [events | e]; cbn [bind fst snd]; eauto).
  - intros c -> Hfresh. apply Z.ltb_lt in Hfresh. rewrite Hfresh. split; reflexivity.
  - destruct polyGrouped as [c|].
    + destruct (now1 - ts c <? 60000)%Z; cbn [fst snd]; [auto|].
      destruct http as [e | status json]; cbn [fst snd]; [auto|].
      destruct (Z.eqb status 429); cbn [fst snd]; [auto|].
      destruct (negb (res_ok status)) eqn:Hok; cbn [fst snd]; [auto|].
      destruct json as [events | e]; cbn [bind fst snd]; [|auto].
      right. exists status, events. apply negb_false_iff in Hok. auto.
    + destruct http as [e | status json]; cbn [fst snd]; [auto|].
      destruct (Z.eqb status 429); cbn [fst snd];
        (destruct (negb (res_ok status)) eqn:Hok; cbn [fst snd]; [auto|]);
        (destruct json as [events | e]; cbn [bind fst snd]; [|auto]);
        right; exists status, events; apply negb_false_iff in Hok; auto.
Qed.

(** X15. The cache of the spot prices.  What [fetchPrices] returns is what
    the cache holds afterwards, and it throws only when the cache is empty,
    leaving it empty.  A cache younger than 30 seconds is returned whatever
    the network does.  The cache changes only on a 2xx answer whose body
    parsed; the list then built has the five coins BTC, ETH, SOL, XRP and
    GOLD in that order, a coin missing from the answer being priced 0. *)
Theorem prices_cache_protocol rt prices now1 now2 http :
  let answer := fst (MarketApi.fetchPrices rt prices now1 now2 http) in
  let cache := snd (MarketApi.fetchPrices rt prices now1 now2 http) in
  match answer with
  | Returned coins => exists c, cache = Some c /\ data c = coins
  | Threw _ => prices = None /\ cache = None
  end /\
  (forall c, prices = Some c -> (now1 - ts c < 30000)%Z ->
             answer = Returned (data c) /\ cache = prices) /\
  (cache = prices \/
   exists status json coins,
     http = Response status (Returned json) /\ res_ok status = true /\
     answer = Returned coins /\ cache = Some {| data := coins; ts := now2 |} /\
     map CoinPrice.symbol coins = ["BTC"; "ETH"; "SOL"; "XRP"; "GOLD"]%string /\
     map CoinPrice.id coins
     = ["bitcoin"; "ethereum"; "solana"; "ripple"; "pax-gold"]%string /\
     Forall (fun coin => json (CoinPrice.id coin) = None -> CoinPrice.usd coin = 0) coins).
Proof.
  cbv zeta. unfold MarketApi.fetchPrices, MarketApi.fetchPrices_try.
  assert (Hfresh : forall (json : string -> option MarketApi.CoinQuote),
    map CoinPrice.symbol (map (MarketApi.coinOf json) MarketApi.SYMBOL_MAP)
    = ["BTC"; "ETH"; "SOL"; "XRP"; "GOLD"]%string /\
    map CoinPrice.id (map (MarketApi.coinOf json) MarketApi.SYMBOL_MAP)
    = ["bitcoin"; "ethereum"; "solana"; "ripple"; "pax-gold"]%string /\
    Forall (fun coin => json (CoinPrice.id coin) = None -> CoinPrice.usd coin = 0)
           (map (MarketApi.coinOf json) MarketApi.SYMBOL_MAP)).
  { intros json. split; [reflexivity|]. split; [reflexivity|].
    unfold MarketApi.SYMBOL_MAP. cbn [map MarketApi.coinOf].
    repeat (apply Forall_cons;
            [cbn [CoinPrice.id CoinPrice.usd]; intros ->; reflexivity|]).
    constructor. }
  split; [|split].
  - destruct prices as [c|].
    + destruct (now1 - ts c <? 30000)%Z; cbn [fst snd]; [eauto|].
      destruct http as [e | status json]; cbn [fst snd]; [eauto|].
      destruct (Z.eqb status 429); cbn [fst snd]; [eauto|].
      destruct (negb (res_ok status)); cbn [fst snd]; [eauto|].
      destruct json as [j | e]; cbn [bind fst snd]; eauto.
    + destruct http as [e | status json]; cbn [fst snd]; [auto|].
      destruct (Z.eqb status 429); cbn [fst snd];
        (destruct (negb (res_ok status)); cbn [fst snd]; [auto|]);
        (destruct json as [j | e]; cbn [bind fst snd]; eauto).
  - intros c -> Hf. apply Z.ltb_lt in Hf. rewrite Hf. split; reflexivity.
  - destruct prices as [c|].
    + destruct (now1 - ts c <? 30000)%Z; cbn [fst snd]; [auto|].
      destruct http as [e | status json]; cbn [fst snd]; [auto|].
      destruct (Z.eqb status 429); cbn [fst snd]; [auto|].
      destruct (negb (res_ok status)) eqn:Hok; cbn [fst snd]; [auto|].
      destruct json as [j | e]; cbn [bind fst snd]; [|auto].
      right. exists status, j. eexists. apply negb_false_iff in Hok.
      repeat split; try reflexivity; try assumption; apply Hfresh.
    + destruct http as [e | status json]; cbn [fst snd]; [auto|].
      destruct (Z.eqb status 429); cbn [fst snd];
        (destruct (negb (res_ok status)) eqn:Hok; cbn [fst snd]; [auto|]);
        (destruct json as [j | e]; cbn [bind fst snd]; [|auto]);
        right; exists status, j; eexists; apply negb_false_iff in Hok;
        repeat split; try reflexivity; try assumption; apply Hfresh.
Qed.

(** ** The cycle behind the caches and the client *)

Lemma sizePositions_answers rt bal getOpenOrders signals :
  exists positions sizeLogs,
    sizePositions rt (Returned (Some bal)) getOpenOrders signals
    = Returned (positions, sizeLogs).
Proof.
  destruct (sizePositions_kept rt (Returned (Some bal)) getOpenOrders signals)
    as (kept & logs & _ & Heq & _).
  eexists _, _. exact Heq.
Qed.

Lemma runTradingCycle_answers rt w prices markets :
  fetchPrices w = Returned prices ->
  fetchCategorizedMarkets w = Returned markets ->
  match fst (scanLoopWith rt SIGMA T_EXP R_FREE prices (crypto markets) [] []),
        getClobBalance w with
  | _ :: _, Returned None =>
      runTradingCycle rt w
      = Threw (Error "Cannot read properties of null (reading 'balance')")
  | _, _ => exists logs, runTradingCycle rt w = Returned logs /\ logs <> []
  end.
Proof.
  intros Hp Hm. unfold runTradingCycle, scanForEdge, scanForEdgeWith.
  rewrite Hp, Hm. cbn [Promise_all bind].
  destruct (scanLoopWith rt SIGMA T_EXP R_FREE prices (crypto markets) [] [])
    as [signals scanLogs].
  cbn [fst].
  destruct signals as [|signal signals].
  { cbn [List.length Nat.eqb]. eexists. split; [reflexivity | apply app_not_nil]. }
  cbn [List.length Nat.eqb].
  destruct (getClobBalance w) as [[bal|] | err].
  - destruct (sizePositions_answers rt bal (getOpenOrders w 0%nat) (signal :: signals))
      as (positions & sizeLogs & Hret).
    rewrite Hret. cbn [bind].
    destruct (Nat.eqb (List.length positions) 0) eqn:Hpos.
    { eexists. split; [reflexivity | apply app_not_nil]. }
    destruct (executeTrades rt (placeOrder w) positions) as [results execLogs] eqn:He.
    eexists. split; [reflexivity|].
    assert (Hlen : List.length execLogs = List.length positions).
    { pose proof (executeLoop_logs_length rt (placeOrder w) positions 0 [] []) as Hl.
      unfold executeTrades in He. rewrite He in Hl. exact Hl. }
    destruct positions as [|pos positions]; [discriminate|].
    destruct execLogs as [|l ls]; [discriminate|].
    intros Habs. apply (f_equal (@List.length _)) in Habs.
    rewrite !length_app in Habs. cbn [List.length] in Habs. lia.
  - reflexivity.
  - cbn [sizePositions sizePositionsState bind fst List.length Nat.eqb].
    eexists. split; [reflexivity | apply app_not_nil].
Qed.

(** X16. Once both caches are populated, neither fetch can make a cycle
    throw: whatever the clocks and the two endpoints do, both fetches answer,
    with fresh data or with the stale cache.  Over listings whose markets
    have the declared shape, the cycle then returns a non-empty log, for
    every outcome of the open-order fetches and of the order placements,
    whenever the balance fetch throws or answers with an object.  One throw
    is left: when the scan found a signal and the balance answer has the
    body [null], reading its balance throws a TypeError outside the [try] of
    [sizePositions], and the cycle throws it. *)
Theorem warm_caches_keep_the_cycle_running rt BLOCKLIST_test CATEGORY_ALLOW_test
    pricesCache marketsCache nowP1 nowP2 httpP nowM1 nowM2 httpM
    firstToReject getClobBalance getOpenOrders placeOrder :
  let w := {|
    firstToReject := firstToReject;
    fetchPrices := fst (MarketApi.fetchPrices rt (Some pricesCache) nowP1 nowP2 httpP);
    fetchCategorizedMarkets :=
      fst (MarketApi.fetchCategorizedMarkets rt BLOCKLIST_test CATEGORY_ALLOW_test
             (Some marketsCache) nowM1 nowM2 httpM);
    getClobBalance := getClobBalance;
    getOpenOrders := getOpenOrders;
    placeOrder := placeOrder |} in
  exists prices markets,
    fetchPrices w = Returned prices /\
    fetchCategorizedMarkets w = Returned markets /\
    match fst (scanLoopWith rt SIGMA T_EXP R_FREE prices (crypto markets) [] []),
          getClobBalance with
    | _ :: _, Returned None =>
        runTradingCycle rt w
        = Threw (Error "Cannot read properties of null (reading 'balance')")
    | _, _ => exists logs, runTradingCycle rt w = Returned logs /\ logs <> []
    end.
Proof.
  intros w.
  assert (Hp : exists prices, fetchPrices w = Returned prices).
  { unfold w. cbn [fetchPrices]. unfold MarketApi.fetchPrices, MarketApi.fetchPrices_try.
    destruct (nowP1 - ts pricesCache <? 30000)%Z; cbn [fst]; [eauto|].
    destruct httpP as [e | status json]; cbn [fst]; [eauto|].
    destruct (Z.eqb status 429); cbn [fst]; [eauto|].
    destruct (negb (res_ok status)); cbn [fst]; [eauto|].
    destruct json as [j | e]; cbn [bind fst]; eauto. }
  assert (Hm : exists markets, fetchCategorizedMarkets w = Returned markets).
  { unfold w. cbn [fetchCategorizedMarkets].
    unfold MarketApi.fetchCategorizedMarkets, MarketApi.fetchCategorizedMarkets_try.
    destruct (nowM1 - ts marketsCache <? 60000)%Z; cbn [fst]; [eauto|].
    destruct httpM as [e | status json]; cbn [fst]; [eauto|].
    destruct (Z.eqb status 429); cbn [fst]; [eauto|].
    destruct (negb (res_ok status)); cbn [fst]; [eauto|].
    destruct json as [j | e]; cbn [bind fst]; eauto. }
  destruct Hp as [prices Hp]. destruct Hm as [markets Hm].
  exists prices, markets. split; [exact Hp|]. split; [exact Hm|].
  exact (runTradingCycle_answers rt w prices markets Hp Hm).
Qed.

(** ** The client of the venue *)

Section Client.

Variable rt : JsRuntime.
Variable platform : Clob.Platform.
Variable env : Clob.Env.

Lemma clobFetch_without_config {A} now (fetch : Clob.Request -> Outcome (Clob.Answer A))
    method path body err :
  Clob.getConfig env = Threw err ->
  Clob.clobFetch rt platform env now fetch method path body = Threw err.
Proof using Type.
  intros H. unfold Clob.clobFetch. rewrite H. reflexivity.
Qed.

Lemma getConfig_missing :
  (falsy (Clob.POLYMARKET_CLOB_API_KEY env) || falsy (Clob.POLYMARKET_CLOB_SECRET env) ||
   falsy (Clob.POLYMARKET_CLOB_PASSPHRASE env) ||
   falsy (Clob.POLYMARKET_PROXY_WALLET env))%bool = true ->
  Clob.getConfig env = Threw (Error Clob.missingCredentials).
Proof using Type.
  intros H. unfold Clob.getConfig. rewrite H. reflexivity.
Qed.

End Client.

(** X17. When one of the four credentials of the venue is unset or empty,
    every call of the client ([getClobBalance], [getOpenOrders],
    [placeOrder]) throws the missing-credentials error, whatever the network
    would answer.  A cycle run through such a client still returns: the log
    of the scan followed by [No edge signals found] when the scan found no
    signal, and by the balance ERROR entry and the no-positions SKIP entry
    otherwise. *)
Theorem missing_credentials_stop_every_call rt platform env :
  (falsy (Clob.POLYMARKET_CLOB_API_KEY env) || falsy (Clob.POLYMARKET_CLOB_SECRET env) ||
   falsy (Clob.POLYMARKET_CLOB_PASSPHRASE env) ||
   falsy (Clob.POLYMARKET_PROXY_WALLET env))%bool = true ->
  (forall now fetch,
      Clob.getClobBalance rt platform env now fetch = Threw (Error Clob.missingCredentials)) /\
  (forall now fetch market,
      Clob.getOpenOrders rt platform env now fetch market
      = Threw (Error Clob.missingCredentials)) /\
  (forall now fetch order,
      Clob.placeOrder rt platform env now fetch order
      = Threw (Error Clob.missingCredentials)) /\
  (forall net firstToReject prices markets,
      exists signals scanLogs,
        scanForEdge rt firstToReject (Returned prices) (Returned markets)
        = Returned (signals, scanLogs) /\
        runTradingCycle rt (clientWorld rt platform env net firstToReject
                                        (Returned prices) (Returned markets))
        = Returned (scanLogs ++ match signals with
                                | [] => [noSignalsLog]
                                | _ :: _ => [balanceFailedLog; noPositionsLog]
                                end)).
Proof.
  intros Hmiss. pose proof (getConfig_missing env Hmiss) as Hcfg.
  split; [|split; [|split]].
  - intros now fetch. unfold Clob.getClobBalance.
    rewrite (clobFetch_without_config rt platform env now fetch _ _ _ _ Hcfg). reflexivity.
  - intros now fetch market. unfold Clob.getOpenOrders.
    rewrite (clobFetch_without_config rt platform env now fetch _ _ _ _ Hcfg). reflexivity.
  - intros now fetch order. unfold Clob.placeOrder.
    rewrite (clobFetch_without_config rt platform env now fetch _ _ _ _ Hcfg). reflexivity.
  - intros net firstToReject prices markets.
    unfold runTradingCycle, scanForEdge, scanForEdgeWith, clientWorld.
    cbn [fetchPrices fetchCategorizedMarkets getClobBalance
         getOpenOrders Promise_all bind].
    destruct (scanLoopWith rt SIGMA T_EXP R_FREE prices (crypto markets) [] [])
      as [signals scanLogs].
    exists signals, scanLogs. split; [reflexivity|].
    destruct signals as [|signal signals]; [reflexivity|].
    cbn [List.length Nat.eqb].
    unfold Clob.getClobBalance.
    rewrite (clobFetch_without_config rt platform env _ _ _ _ _ _ Hcfg).
    cbn [bind sizePositions sizePositionsState fst List.length Nat.eqb].
    rewrite <- app_assoc. reflexivity.
Qed.

(** X17, instance: an environment without the API key. *)
Lemma missing_credentials_witness :
  (forall now fetch,
      Clob.getClobBalance sampleRuntime samplePlatform noCredentials now fetch
      = Threw (Error Clob.missingCredentials)) /\
  (forall now fetch market,
      Clob.getOpenOrders sampleRuntime samplePlatform noCredentials now fetch market
      = Threw (Error Clob.missingCredentials)) /\
  (forall now fetch order,
      Clob.placeOrder sampleRuntime samplePlatform noCredentials now fetch order
      = Threw (Error Clob.missingCredentials)) /\
  (forall net firstToReject prices markets,
      exists signals scanLogs,
        scanForEdge sampleRuntime firstToReject (Returned prices) (Returned markets)
        = Returned (signals, scanLogs) /\
        runTradingCycle sampleRuntime
          (clientWorld sampleRuntime samplePlatform noCredentials net firstToReject
                       (Returned prices) (Returned markets))
        = Returned (scanLogs ++ match signals with
                                | [] => [noSignalsLog]
                                | _ :: _ => [balanceFailedLog; noPositionsLog]
                                end)).
Proof.
  apply (missing_credentials_stop_every_call sampleRuntime samplePlatform noCredentials).
  reflexivity.
Defined.

(** X18. [placeOrder] returns a response only if the credentials were
    complete and the venue answered a POST to /order with a 2xx status and a
    body that parsed to that response; the request carried the API key, the
    passphrase, the timestamp in whole seconds and the HMAC of
    timestamp, method, path and body under the secret. *)
Theorem acknowledged_order_was_a_signed_post rt platform env now fetch order response :
  Clob.placeOrder rt platform env now fetch order = Returned response ->
  exists config request answer,
    Clob.getConfig env = Returned config /\
    fetch request = Returned answer /\
    res_ok (Clob.status answer) = true /\
    Clob.json answer = Returned response /\
    Clob.url request = (Clob.CLOB_BASE_URL ++ "/order")%string /\
    Clob.method request = "POST"%string /\
    let timestamp := NumberToString rt (IZR (now / 1000)) in
    let bodyStr := Clob.JSON_stringify platform (Clob.orderBody order) in
    Clob.headers request
    = [("Content-Type", "application/json");
       ("POLY-API-KEY", Clob.apiKey config);
       ("POLY-SIGNATURE",
        Clob.hmac_sha256_base64 platform (Clob.secret config)
          (timestamp ++ "POST" ++ "/order" ++ bodyStr));
       ("POLY-TIMESTAMP", timestamp);
       ("POLY-PASSPHRASE", Clob.passphrase config)]%string.
Proof.
  unfold Clob.placeOrder, Clob.clobFetch. intros H.
  destruct (Clob.getConfig env) as [config | err]; [|discriminate].
  cbn [bind] in H.
  match type of H with
  | context [fetch ?r] => destruct (fetch r) as [answer | err] eqn:Hf; [|discriminate]
  end.
  cbn [bind] in H.
  destruct (negb (res_ok (Clob.status answer))) eqn:Hok; [discriminate|].
  cbn [bind] in H. apply negb_false_iff in Hok.
  exists config. eexists. exists answer.
  split; [reflexivity|]. split; [exact Hf|].
  split; [exact Hok|]. split; [exact H|].
  cbn [Clob.url Clob.method Clob.headers]. repeat split; reflexivity.
Qed.

(** X18, instance: complete credentials and a venue that accepts. *)
Lemma acknowledged_order_witness :
  exists config request answer,
    Clob.getConfig fullCredentials = Returned config /\
    acceptingFetch request = Returned answer /\
    res_ok (Clob.status answer) = true /\
    Clob.json answer = Returned (ClobOrderResponse.mk "order-1" "live") /\
    Clob.url request = (Clob.CLOB_BASE_URL ++ "/order")%string /\
    Clob.method request = "POST"%string /\
    let timestamp := NumberToString sampleRuntime (IZR (1700000000123 / 1000)) in
    let bodyStr := Clob.JSON_stringify samplePlatform
                     (Clob.orderBody (ClobOrder.mk "token-1" 0.5 10 BUY)) in
    Clob.headers request
    = [("Content-Type", "application/json");
       ("POLY-API-KEY", Clob.apiKey config);
       ("POLY-SIGNATURE",
        Clob.hmac_sha256_base64 samplePlatform (Clob.secret config)
          (timestamp ++ "POST" ++ "/order" ++ bodyStr));
       ("POLY-TIMESTAMP", timestamp);
       ("POLY-PASSPHRASE", Clob.passphrase config)]%string.
Proof.
  apply (acknowledged_order_was_a_signed_post sampleRuntime samplePlatform fullCredentials
           1700000000123%Z acceptingFetch (ClobOrder.mk "token-1" 0.5 10 BUY)
           (ClobOrderResponse.mk "order-1" "live")).
  reflexivity.
Defined.

(** ** POST /api/treasury/trade *)

Lemma countAction_partition logs :
  (TradeRoute.countAction SCAN logs + TradeRoute.countAction TRADE logs +
   TradeRoute.countAction SKIP logs + TradeRoute.countAction HALT logs +
   TradeRoute.countAction ERROR logs)%nat = List.length logs.
Proof.
  unfold TradeRoute.countAction, isAction.
  induction logs as [|l ls IH]; [reflexivity|].
  cbn [filter List.length].
  destruct (TradingLog.action l); cbn [Action_eqb List.length]; lia.
Qed.

(** X19. The reply of POST /api/treasury/trade is one of three, and the
    execution-log store ([_lastLogs] and [_lastPositions] of
    lib/execution-log-store) follows it.  Either the reply is 401
    Unauthorized and the store is left as it was; or the cycle returned, the
    reply is 200 with the log, the store now holds exactly that log and no
    positions, so that GET /api/treasury/execution-logs answers with them,
    the summary counts the TRADE, SKIP and ERROR entries of the log,
    [totalLogs] is the length of the log, and the three counts together with
    the SCAN and HALT entries add up to it; or the cycle threw, the reply is
    500 with the message of the error and the store is left as it was. *)
Theorem route_reply_accounts_for_the_cycle rt authorization CRON_SECRET w store :
  let reply := fst (TradeRoute.POST rt authorization CRON_SECRET w store) in
  let stored := snd (TradeRoute.POST rt authorization CRON_SECRET w store) in
  (TradeRoute.status reply = 401%Z /\ TradeRoute.body reply = TradeRoute.Unauthorized /\
   stored = store) \/
  (exists logs summary,
     runTradingCycle rt w = Returned logs /\
     TradeRoute.status reply = 200%Z /\
     TradeRoute.body reply = TradeRoute.Success summary logs /\
     stored = {| ExecutionLogStore._lastLogs := logs;
                 ExecutionLogStore._lastPositions := [] |} /\
     TradeRoute.GET stored = (logs, []) /\
     TradeRoute.trades summary = List.length (filter (isAction TRADE) logs) /\
     TradeRoute.skips summary = List.length (filter (isAction SKIP) logs) /\
     TradeRoute.errors summary = List.length (filter (isAction ERROR) logs) /\
     TradeRoute.totalLogs summary = List.length logs /\
     (TradeRoute.trades summary + TradeRoute.skips summary + TradeRoute.errors summary
      + TradeRoute.countAction SCAN logs + TradeRoute.countAction HALT logs)%nat
     = TradeRoute.totalLogs summary) \/
  (exists err,
     runTradingCycle rt w = Threw err /\
     TradeRoute.status reply = 500%Z /\
     TradeRoute.body reply
     = TradeRoute.Failed (match err with
                          | Error message => message
                          | Thrown => "Trading cycle failed"%string
                          end) /\
     stored = store).
Proof.
  cbv zeta. unfold TradeRoute.POST.
  match goal with
  | |- context [if ?c then _ else _] => destruct c
  end; [left; repeat split|].
  destruct (runTradingCycle rt w) as [logs | err].
  - right. left. eexists. eexists. split; [reflexivity|].
    cbn [fst snd TradeRoute.status TradeRoute.body TradeRoute.totalLogs TradeRoute.trades
         TradeRoute.skips TradeRoute.errors].
    repeat split.
    cbn [TradeRoute.totalLogs TradeRoute.trades TradeRoute.skips TradeRoute.errors].
    rewrite <- (countAction_partition logs). lia.
  - right. right. exists err. repeat split.
Qed.

(** X20. A request is refused with 401, without running a cycle, when
    CRON_SECRET is unset, when it is empty (even for the header [Bearer ]
    followed by nothing), when the request has no authorization header, and
    when the header differs from [Bearer ] followed by the secret. *)
Theorem route_refuses_without_the_secret rt authorization CRON_SECRET w store :
  (CRON_SECRET = None \/ CRON_SECRET = Some ""%string \/
   authorization = None \/
   exists secret header,
     CRON_SECRET = Some secret /\ authorization = Some header /\
     header <> ("Bearer " ++ secret)%string) ->
  TradeRoute.POST rt authorization CRON_SECRET w store
  = ({| TradeRoute.status := 401; TradeRoute.body := TradeRoute.Unauthorized |}, store).
Proof.
  intros H. unfold TradeRoute.POST.
  destruct H as [-> | [-> | [-> | (secret & header & -> & -> & Hne)]]].
  - reflexivity.
  - reflexivity.
  - destruct CRON_SECRET as [s|]; [|reflexivity].
    rewrite orb_true_r. reflexivity.
  - apply String.eqb_neq in Hne. rewrite Hne. cbn [negb]. rewrite orb_true_r. reflexivity.
Qed.

(** X20, instance: an empty secret and the header [Bearer ]. *)
Lemma route_refuses_witness :
  TradeRoute.POST sampleRuntime (Some "Bearer "%string) (Some ""%string) quietWorld
                  ExecutionLogStore.initial
  = ({| TradeRoute.status := 401; TradeRoute.body := TradeRoute.Unauthorized |},
     ExecutionLogStore.initial).
Proof.
  apply (route_refuses_without_the_secret sampleRuntime (Some "Bearer "%string)
           (Some ""%string) quietWorld ExecutionLogStore.initial).
  right. left. reflexivity.
Defined.

(** ** The treasury page *)

Lemma jitter_range u base scale :
  0 <= u < 1 -> 0 <= scale ->
  base - scale <= TreasuryPage.jitter u base scale <= base + scale.
Proof.
  intros Hu Hs. unfold TreasuryPage.jitter. split; nra.
Qed.

(** The drift term of the page, for a volatility within the jitter. *)
Lemma page_d2_range sigma :
  0.495 <= sigma <= 0.505 ->
  -0.001 <= (R_FREE - 0.5 * sigma * sigma) * T_EXP / (sigma * sqrt T_EXP) < 0.
Proof.
  intros Hs.
  destruct sqrt_T_EXP_bound as [Hq0 Hq1].
  assert (Hqq := sqrt_sqrt T_EXP ltac:(unfold T_EXP; lra)).
  set (s := sqrt T_EXP) in *. clearbody s.
  rewrite <- Hqq.
  set (n := R_FREE - 0.5 * sigma * sigma).
  assert (Hn : -0.085 <= n <= -0.079) by (unfold n, R_FREE; nra).
  replace (n * (s * s) / (sigma * s)) with (n * / sigma * s) by (field; lra).
  assert (Hi : 0 < / sigma <= 2.03).
  { split; [apply Rinv_0_lt_compat; lra|].
    assert (H : / sigma <= / 0.495) by (apply Rinv_le_contravar; lra).
    assert (H' : / 0.495 <= 2.03).
    { apply Rmult_le_reg_l with 0.495; [lra|]. rewrite Rinv_r by lra. lra. }
    lra. }
  set (i := / sigma) in *. clearbody i.
  assert (Hni : -0.18 <= n * i < 0) by nra.
  nra.
Qed.

Lemma page_fair_range sigma :
  0.495 <= sigma <= 0.505 ->
  0.497 <= exp (- R_FREE * T_EXP)
           * normalCDF ((R_FREE - 0.5 * sigma * sigma) * T_EXP / (sigma * sqrt T_EXP))
        <= 0.5.
Proof.
  intros Hs. destruct (page_d2_range sigma Hs) as [Hd0 Hd1].
  set (d2 := (R_FREE - 0.5 * sigma * sigma) * T_EXP / (sigma * sqrt T_EXP)) in *.
  rewrite normalCDF_neg by assumption.
  assert (Ht := AStail_near_0 d2 ltac:(rewrite Rabs_left by assumption; lra)).
  assert (Ht1 := AStail_le_1 d2).
  destruct discount_shipped as [He0 He1].
  nra.
Qed.

Lemma findBtcMarket_pos rt polymarkets yes :
  TreasuryPage.findBtcMarket rt polymarkets = Some yes -> 0 < yes.
Proof.
  unfold TreasuryPage.findBtcMarket.
  destruct polymarkets as [m|]; [|discriminate].
  destruct (find _ (crypto m)) as [found|]; [|discriminate].
  destruct (Rgt_dec _ 0) as [H | H]; [|discriminate].
  intros Heq. injection Heq as <-. lra.
Qed.

(** X21. Whatever the random draws of the treasury page, the values it
    derives are well formed: the jittered volatility stays within 0.005 of
    SIGMA, the drift term is negative and small, the fair probability lies
    between 0.497 and 0.5, the half-spread is positive and the quotes satisfy
    [0 < p_bid < p_t < p_ask < 1]; the model fair value lies between 49.7 and
    50, the fee between 31.24 and 31.25, and the market price shown is
    positive. *)
Theorem page_quotes_bracket_the_fair_value rt draws prices polymarkets :
  0 <= TreasuryPage.u_sigma draws < 1 ->
  let d := TreasuryPage.derived rt draws prices polymarkets in
  0.495 <= TreasuryPage.d_sigma d <= 0.505 /\
  -0.001 <= TreasuryPage.d_d2 d < 0 /\
  0.497 <= TreasuryPage.d_p_t d <= 0.5 /\
  0 < TreasuryPage.d_delta_x d /\
  0 < TreasuryPage.d_p_bid d /\ TreasuryPage.d_p_bid d < TreasuryPage.d_p_t d /\
  TreasuryPage.d_p_t d < TreasuryPage.d_p_ask d /\ TreasuryPage.d_p_ask d < 1 /\
  49.7 <= TreasuryPage.d_model_fair d <= 50 /\
  31.24 <= TreasuryPage.d_fee d <= 31.25 /\
  0 < TreasuryPage.d_mkt_price d.
Proof.
  intros Hu d.
  assert (Hs : 0.495 <= TreasuryPage.d_sigma d <= 0.505).
  { unfold d, TreasuryPage.derived. cbn [TreasuryPage.d_sigma].
    pose proof (jitter_range (TreasuryPage.u_sigma draws) SIGMA 0.005 Hu ltac:(lra)) as H.
    unfold SIGMA in *. lra. }
  pose proof (page_d2_range _ Hs) as Hd2.
  pose proof (page_fair_range _ Hs) as Hp.
  assert (Hpt : TreasuryPage.d_p_t d
                = exp (- R_FREE * T_EXP)
                  * normalCDF ((R_FREE - 0.5 * TreasuryPage.d_sigma d * TreasuryPage.d_sigma d)
                               * T_EXP / (TreasuryPage.d_sigma d * sqrt T_EXP)))
    by reflexivity.
  rewrite <- Hpt in Hp.
  assert (Hdx : TreasuryPage.d_delta_x d
                = delta_x GAMMA (TreasuryPage.d_sigma_b d) T_EXP K_DECAY) by reflexivity.
  assert (Hdelta : 0 < TreasuryPage.d_delta_x d).
  { rewrite Hdx. apply delta_x_pos; unfold GAMMA, K_DECAY, T_EXP; lra. }
  assert (Hbid : TreasuryPage.d_p_bid d
                 = logistic (logit (TreasuryPage.d_p_t d) - TreasuryPage.d_delta_x d))
    by reflexivity.
  assert (Hask : TreasuryPage.d_p_ask d
                 = logistic (logit (TreasuryPage.d_p_t d) + TreasuryPage.d_delta_x d))
    by reflexivity.
  assert (Hpp : logistic (logit (TreasuryPage.d_p_t d)) = TreasuryPage.d_p_t d)
    by (apply logistic_logit; lra).
  destruct (logistic_range (logit (TreasuryPage.d_p_t d) - TreasuryPage.d_delta_x d))
    as [Hb0 _].
  destruct (logistic_range (logit (TreasuryPage.d_p_t d) + TreasuryPage.d_delta_x d))
    as [_ Ha1].
  assert (H1 := logistic_increasing
                  (logit (TreasuryPage.d_p_t d) - TreasuryPage.d_delta_x d)
                  (logit (TreasuryPage.d_p_t d)) ltac:(lra)).
  assert (H2 := logistic_increasing
                  (logit (TreasuryPage.d_p_t d))
                  (logit (TreasuryPage.d_p_t d) + TreasuryPage.d_delta_x d) ltac:(lra)).
  rewrite Hpp in H1, H2. rewrite <- Hbid in Hb0, H1. rewrite <- Hask in Ha1, H2.
  assert (Hfair : TreasuryPage.d_model_fair d = TreasuryPage.d_p_t d * 100) by reflexivity.
  assert (Hfee : TreasuryPage.d_fee d
                 = (TreasuryPage.d_p_t d * (1 - TreasuryPage.d_p_t d) + 0.0625) * 100)
    by reflexivity.
  assert (Hmkt : 0 < TreasuryPage.d_mkt_price d).
  { unfold d, TreasuryPage.derived. cbn [TreasuryPage.d_mkt_price].
    destruct (TreasuryPage.findBtcMarket rt polymarkets) as [yes|] eqn:Hf.
    - exact (findBtcMarket_pos rt polymarkets yes Hf).
    - unfold TreasuryPage.FALLBACK_MKT_PRICE. lra. }
  split; [exact Hs|]. split; [exact Hd2|]. split; [exact Hp|].
  split; [exact Hdelta|]. split; [exact Hb0|]. split; [exact H1|].
  split; [exact H2|]. split; [exact Ha1|].
  split; [rewrite Hfair; lra|]. split; [rewrite Hfee; nra | exact Hmkt].
Qed.

(** X21, instance: every draw at 0.5, no prices and no listing. *)
Lemma page_quotes_witness :
  let d := TreasuryPage.derived sampleRuntime evenDraws None None in
  0.495 <= TreasuryPage.d_sigma d <= 0.505 /\
  -0.001 <= TreasuryPage.d_d2 d < 0 /\
  0.497 <= TreasuryPage.d_p_t d <= 0.5 /\
  0 < TreasuryPage.d_delta_x d /\
  0 < TreasuryPage.d_p_bid d /\ TreasuryPage.d_p_bid d < TreasuryPage.d_p_t d /\
  TreasuryPage.d_p_t d < TreasuryPage.d_p_ask d /\ TreasuryPage.d_p_ask d < 1 /\
  49.7 <= TreasuryPage.d_model_fair d <= 50 /\
  31.24 <= TreasuryPage.d_fee d <= 31.25 /\
  0 < TreasuryPage.d_mkt_price d.
Proof.
  apply (page_quotes_bracket_the_fair_value sampleRuntime evenDraws None None).
  cbn [TreasuryPage.u_sigma evenDraws]. lra.
Defined.

(** X22. When no BTC market is found (no listing, no BTC question, or a
    first BTC question without a positive yes-price), the page falls back to
    the market price 53.78; the divergence then lies between -4.08 and -3.78
    and the signal shown is TRADE, whatever the draws. *)
Theorem page_signals_trade_without_a_market rt draws prices polymarkets :
  0 <= TreasuryPage.u_sigma draws < 1 ->
  TreasuryPage.findBtcMarket rt polymarkets = None ->
  let d := TreasuryPage.derived rt draws prices polymarkets in
  TreasuryPage.d_mkt_price d = TreasuryPage.FALLBACK_MKT_PRICE /\
  -4.08 <= TreasuryPage.d_divergence d <= -3.78 /\
  TreasuryPage.d_signal d = TRADE.
Proof.
  intros Hu Hnone d.
  assert (Hs : 0.495 <= TreasuryPage.d_sigma d <= 0.505).
  { unfold d, TreasuryPage.derived. cbn [TreasuryPage.d_sigma].
    pose proof (jitter_range (TreasuryPage.u_sigma draws) SIGMA 0.005 Hu ltac:(lra)) as H.
    unfold SIGMA in *. lra. }
  pose proof (page_fair_range _ Hs) as Hp.
  assert (Hmkt : TreasuryPage.d_mkt_price d = TreasuryPage.FALLBACK_MKT_PRICE).
  { unfold d, TreasuryPage.derived. cbn [TreasuryPage.d_mkt_price].
    rewrite Hnone. reflexivity. }
  assert (Hdiv : TreasuryPage.d_divergence d
                 = exp (- R_FREE * T_EXP)
                   * normalCDF ((R_FREE - 0.5 * TreasuryPage.d_sigma d * TreasuryPage.d_sigma d)
                                * T_EXP / (TreasuryPage.d_sigma d * sqrt T_EXP)) * 100
                   - TreasuryPage.d_mkt_price d) by reflexivity.
  assert (Hrange : -4.08 <= TreasuryPage.d_divergence d <= -3.78).
  { rewrite Hdiv, Hmkt. unfold TreasuryPage.FALLBACK_MKT_PRICE. lra. }
  split; [exact Hmkt|]. split; [exact Hrange|].
  assert (Hsig : TreasuryPage.d_signal d
                 = if Rgt_dec (Rabs (TreasuryPage.d_divergence d)) EDGE_THRESHOLD
                   then TRADE else SKIP) by reflexivity.
  rewrite Hsig. destruct (Rgt_dec _ _) as [H | H]; [reflexivity|].
  exfalso. apply H. rewrite Rabs_left by lra. unfold EDGE_THRESHOLD. lra.
Qed.

(** X22, instance: every draw at 0.5, no prices and no listing. *)
Lemma page_signals_trade_witness :
  let d := TreasuryPage.derived sampleRuntime evenDraws None None in
  TreasuryPage.d_mkt_price d = TreasuryPage.FALLBACK_MKT_PRICE /\
  -4.08 <= TreasuryPage.d_divergence d <= -3.78 /\
  TreasuryPage.d_signal d = TRADE.
Proof.
  apply (page_signals_trade_without_a_market sampleRuntime evenDraws None None).
  - cbn [TreasuryPage.u_sigma evenDraws]. lra.
  - reflexivity.
Defined.

(** ** Order flow *)

Lemma flowLoop_spec trades : forall bc sc bv sv,
  Forall (fun t => 0 <= or0 (TreasuryPage.size t)) trades ->
  exists bc' sc' bv' sv',
    TreasuryPage.flowLoop trades bc sc bv sv = (bc', sc', bv', sv') /\
    (bc' + sc' = bc + sc + List.length trades)%nat /\
    bv <= bv' /\ sv <= sv'.
Proof.
  induction trades as [|t rest IH]; intros bc sc bv sv Hall.
  - exists bc, sc, bv, sv. cbn. repeat split; try lra; lia.
  - inversion Hall as [|? ? Ht Hrest]; subst.
    cbn [TreasuryPage.flowLoop]. destruct (TreasuryPage.side t).
    + destruct (IH (S bc) sc (bv + or0 (TreasuryPage.size t)) sv Hrest)
        as (bc' & sc' & bv' & sv' & Heq & Hc & Hb & Hs).
      exists bc', sc', bv', sv'. cbn [List.length]. repeat split; try assumption; try lra; lia.
    + destruct (IH bc (S sc) bv (sv + or0 (TreasuryPage.size t)) Hrest)
        as (bc' & sc' & bv' & sv' & Heq & Hc & Hb & Hs).
      exists bc', sc', bv', sv'. cbn [List.length]. repeat split; try assumption; try lra; lia.
Qed.

Lemma price_sum_bounds trades : forall a,
  Forall (fun t => 0 <= orDefault 0.5 (TreasuryPage.price t) <= 1) trades ->
  a <= fold_left (fun s t => s + orDefault 0.5 (TreasuryPage.price t)) trades a
    <= a + INR (List.length trades).
Proof.
  induction trades as [|t rest IH]; intros a Hall.
  - cbn. lra.
  - inversion Hall as [|? ? Ht Hrest]; subst.
    cbn [fold_left]. specialize (IH (a + orDefault 0.5 (TreasuryPage.price t)) Hrest).
    change (List.length (t :: rest)) with (S (List.length rest)). rewrite S_INR. lra.
Qed.

(** X23. For trades whose sizes are not negative and whose prices (0.5
    where the price is missing or 0) lie in [0, 1], the order-flow metrics
    are consistent: the buy and sell counts add up to the number of trades,
    the volumes are not negative, the taker buy ratio lies in [0, 1], the
    maker edge estimate lies between 0.77 and 1.25, at most eight recent
    trades are listed, and without volume the ratio is 0.5 and the flow
    NEUTRAL. *)
Theorem flow_metrics_are_bounded rt trades :
  Forall (fun t => 0 <= or0 (TreasuryPage.size t) /\
                   0 <= orDefault 0.5 (TreasuryPage.price t) <= 1) trades ->
  let m := TreasuryPage.computeFlowMetrics rt trades in
  (TreasuryPage.takerBuyCount m + TreasuryPage.takerSellCount m
   = TreasuryPage.totalTrades m)%nat /\
  TreasuryPage.totalTrades m = List.length trades /\
  0 <= TreasuryPage.takerBuyVolume m /\ 0 <= TreasuryPage.takerSellVolume m /\
  0 <= TreasuryPage.takerBuyRatio m <= 1 /\
  0.77 <= TreasuryPage.makerEdgeEstimate m <= 1.25 /\
  (List.length (TreasuryPage.recentTrades m) <= 8)%nat /\
  (TreasuryPage.takerBuyVolume m + TreasuryPage.takerSellVolume m = 0 ->
   TreasuryPage.takerBuyRatio m = 0.5 /\ TreasuryPage.flowDirection m = TreasuryPage.NEUTRAL).
Proof.
  intros Hall m.
  assert (Hsize : Forall (fun t => 0 <= or0 (TreasuryPage.size t)) trades).
  { eapply Forall_impl; [|exact Hall]. intros t [H _]. exact H. }
  assert (Hprice : Forall (fun t => 0 <= orDefault 0.5 (TreasuryPage.price t) <= 1) trades).
  { eapply Forall_impl; [|exact Hall]. intros t [_ H]. exact H. }
  destruct (flowLoop_spec trades 0%nat 0%nat 0 0 Hsize)
    as (bc & sc & bv & sv & Heq & Hc & Hb & Hs).
  pose proof (price_sum_bounds trades 0 Hprice) as Hsum.
  unfold m, TreasuryPage.computeFlowMetrics. rewrite Heq.
  cbn [TreasuryPage.takerBuyCount TreasuryPage.takerSellCount TreasuryPage.totalTrades
       TreasuryPage.takerBuyVolume TreasuryPage.takerSellVolume TreasuryPage.takerBuyRatio
       TreasuryPage.makerEdgeEstimate TreasuryPage.recentTrades TreasuryPage.flowDirection].
  split; [lia|]. split; [reflexivity|]. split; [exact Hb|]. split; [exact Hs|].
  split; [|split; [|split]].
  - destruct (Rgt_dec (bv + sv) 0) as [Ht | Ht]; [|lra].
    assert (Hi : 0 < / (bv + sv)) by (apply Rinv_0_lt_compat; lra).
    unfold Rdiv. split; [apply Rmult_le_pos; lra|].
    apply Rmult_le_reg_r with (bv + sv); [lra|].
    rewrite Rmult_assoc, Rinv_l by lra. lra.
  - set (avg := if Nat.ltb 0 (List.length trades) then _ else 0.5).
    assert (Havg : 0 <= avg <= 1).
    { unfold avg. destruct (Nat.ltb 0 (List.length trades)) eqn:Hn; [|lra].
      apply Nat.ltb_lt in Hn.
      assert (Hpos : 0 < INR (List.length trades)) by (apply lt_0_INR; exact Hn).
      assert (Hi : 0 < / INR (List.length trades)) by (apply Rinv_0_lt_compat; lra).
      unfold Rdiv. split; [apply Rmult_le_pos; lra|].
      apply Rmult_le_reg_r with (INR (List.length trades)); [lra|].
      rewrite Rmult_assoc, Rinv_l by lra. lra. }
    assert (Hdist : 0 <= Rabs (avg - 0.5) <= 0.5).
    { split; [apply Rabs_pos | apply Rabs_le; lra]. }
    lra.
  - rewrite length_map, length_firstn. lia.
  - intros Hzero. destruct (Rgt_dec (bv + sv) 0) as [Ht | Ht]; [lra|].
    split; [reflexivity|].
    destruct (Rgt_dec 0.5 0.55); [lra|]. destruct (Rlt_dec 0.5 0.45); [lra | reflexivity].
Qed.

(** X23, instance: one BUY of 10 at 0.6 and one SELL of 30 without a price. *)
Lemma flow_metrics_witness :
  let m := TreasuryPage.computeFlowMetrics sampleRuntime sampleTrades in
  (TreasuryPage.takerBuyCount m + TreasuryPage.takerSellCount m
   = TreasuryPage.totalTrades m)%nat /\
  TreasuryPage.totalTrades m = List.length sampleTrades /\
  0 <= TreasuryPage.takerBuyVolume m /\ 0 <= TreasuryPage.takerSellVolume m /\
  0 <= TreasuryPage.takerBuyRatio m <= 1 /\
  0.77 <= TreasuryPage.makerEdgeEstimate m <= 1.25 /\
  (List.length (TreasuryPage.recentTrades m) <= 8)%nat /\
  (TreasuryPage.takerBuyVolume m + TreasuryPage.takerSellVolume m = 0 ->
   TreasuryPage.takerBuyRatio m = 0.5 /\ TreasuryPage.flowDirection m = TreasuryPage.NEUTRAL).
Proof.
  apply (flow_metrics_are_bounded sampleRuntime sampleTrades).
  unfold sampleTrades.
  repeat (apply Forall_cons;
          [cbn [TreasuryPage.size TreasuryPage.price or0 orDefault];
           try destruct (Req_dec_T _ _); lra|]).
  constructor.
Defined.

(** ** Exposure after a pass *)

Lemma totalSizeUSD_app ps qs :
  totalSizeUSD (ps ++ qs) = totalSizeUSD ps + totalSizeUSD qs.
Proof.
  induction ps as [|p ps IH].
  - cbn [app]. unfold totalSizeUSD at 2. cbn [fold_right]. lra.
  - cbn [app]. rewrite !totalSizeUSD_cons, IH. lra.
Qed.

(** X24. The bound the exposure test does give.  On a positive balance,
    for signals quoted strictly between 0 and 100 (so that the Kelly odds
    are defined) and a seeded exposure that is a number below
    [balance * MAX_TOTAL_EXPOSURE_PCT], a sizing pass returns, and the
    exposure it ends with (the seeded exposure plus the sizes of the
    positions emitted) stays strictly below
    [balance * (MAX_TOTAL_EXPOSURE_PCT + MAX_POSITION_PCT)]: the cap can be
    passed, but by less than one position. *)
Theorem exposure_overshoot_is_bounded rt bal getOpenOrders signals b e :
  balance bal = Some b -> 0 < b ->
  Forall (fun signal => 0 < EdgeSignal.mktPrice signal < 100) signals ->
  seededExposure getOpenOrders = Some e ->
  e < b * MAX_TOTAL_EXPOSURE_PCT ->
  exists positions logs,
    sizePositionsState rt (Returned (Some bal)) getOpenOrders signals
    = Returned (positions, logs, Some (e + totalSizeUSD positions)) /\
    sizePositions rt (Returned (Some bal)) getOpenOrders signals
    = Returned (positions, logs) /\
    e + totalSizeUSD positions < b * (MAX_TOTAL_EXPOSURE_PCT + MAX_POSITION_PCT).
Proof.
  intros Hbal Hb _ Hseed He.
  unfold sizePositions, sizePositionsState, readBalance. cbn [bind].
  rewrite Hbal, Hseed. cbn [or0]. destruct (Rle_dec b 0) as [H0 | _]; [lra|].
  destruct (sizeLoop_invariant rt b signals e [] [])
    as (newps & newls & Heq & Hall & _ & Hlt & _).
  rewrite Heq. cbn [bind fst app]. exists newps, newls.
  split; [reflexivity|]. split; [reflexivity|].
  destruct newps as [|p ps] using rev_ind.
  - cbn [totalSizeUSD fold_right]. unfold MAX_POSITION_PCT. nra.
  - clear IHps. rewrite totalSizeUSD_app, totalSizeUSD_cons.
    specialize (Hlt ps p [] eq_refl).
    apply Forall_app in Hall. destruct Hall as [_ Hlast].
    inversion Hlast as [|? ? Hp _]; subst.
    cbn [totalSizeUSD fold_right]. lra.
Qed.

(** X24, instance: nine signals sized on a balance of 100 with no open
    orders. *)
Lemma exposure_overshoot_witness :
  (balance {| balance := Some 100 |} = Some 100 /\ 0 < 100 /\
   Forall (fun signal => 0 < EdgeSignal.mktPrice signal < 100) nineSignals /\
   seededExposure (Returned []) = Some 0 /\
   0 < 100 * MAX_TOTAL_EXPOSURE_PCT) /\
  exists positions logs,
    sizePositionsState sampleRuntime (Returned (Some {| balance := Some 100 |}))
                       (Returned []) nineSignals
    = Returned (positions, logs, Some (0 + totalSizeUSD positions)) /\
    sizePositions sampleRuntime (Returned (Some {| balance := Some 100 |}))
                  (Returned []) nineSignals
    = Returned (positions, logs) /\
    0 + totalSizeUSD positions < 100 * (MAX_TOTAL_EXPOSURE_PCT + MAX_POSITION_PCT).
Proof.
  assert (H1 : balance {| balance := Some 100 |} = Some 100) by reflexivity.
  assert (H2 : 0 < 100) by lra.
  assert (H3 : Forall (fun signal => 0 < EdgeSignal.mktPrice signal < 100) nineSignals).
  { unfold nineSignals. simpl. repeat constructor; simpl; lra. }
  assert (H4 : seededExposure (Returned []) = Some 0) by reflexivity.
  assert (H5 : 0 < 100 * MAX_TOTAL_EXPOSURE_PCT) by (unfold MAX_TOTAL_EXPOSURE_PCT; lra).
  split; [repeat split; assumption|].
  exact (exposure_overshoot_is_bounded sampleRuntime {| balance := Some 100 |}
           (Returned []) nineSignals 100 0 H1 H2 H3 H4 H5).
Defined.

(** ** What the summary of a cycle counts *)

Lemma count_app a (l l' : list TradingLog.t) :
  TradeRoute.countAction a (l ++ l')
  = (TradeRoute.countAction a l + TradeRoute.countAction a l')%nat.
Proof.
  unfold TradeRoute.countAction. rewrite filter_app, length_app. reflexivity.
Qed.

Lemma count_none a (l : list TradingLog.t) :
  Forall (fun log => TradingLog.action log <> a) l -> TradeRoute.countAction a l = 0%nat.
Proof.
  unfold TradeRoute.countAction. induction 1 as [|log l Hlog _ IH]; [reflexivity|].
  cbn [filter]. unfold isAction at 1.
  destruct (Action_eqb (TradingLog.action log) a) eqn:E; [|exact IH].
  exfalso. apply Hlog. destruct (TradingLog.action log), a; try discriminate; reflexivity.
Qed.

Lemma scanLoop_trade_count rt prices markets :
  TradeRoute.countAction TRADE (snd (scanLoopWith rt SIGMA T_EXP R_FREE prices markets [] []))
  = List.length (fst (scanLoopWith rt SIGMA T_EXP R_FREE prices markets [] [])).
Proof.
  pose proof (scanLoop_signals rt prices markets) as (_ & _ & Hs).
  pose proof (scanLoop_logs rt prices markets) as Hl.
  pose proof (scanEntries_count rt prices (scannedMarkets rt markets)) as (_ & Hc & _).
  destruct (scanLoopWith rt SIGMA T_EXP R_FREE prices markets [] []) as [signals logs].
  cbn [fst snd] in *. rewrite <- Hl in Hc.
  rewrite <- (length_map EdgeSignal.market signals), Hs, <- Hc.
  unfold TradeRoute.countAction.
  clear. induction logs as [|l ls IH]; [reflexivity|].
  cbn [map filter]. unfold isAction at 1. unfold entryOf at 1. cbn [fst].
  destruct (Action_eqb (TradingLog.action l) TRADE); cbn [List.length]; rewrite IH;
    reflexivity.
Qed.

Lemma sizePositions_logs rt getClobBalance getOpenOrders signals positions logs :
  sizePositions rt getClobBalance getOpenOrders signals = Returned (positions, logs) ->
  Forall (fun log => TradingLog.action log <> TRADE) logs /\
  (signals = [] -> positions = []).
Proof.
  unfold sizePositions, sizePositionsState, readBalance.
  destruct getClobBalance as [[bal|] | err]; cbn [bind].
  - destruct (Rle_dec (or0 (balance bal)) 0); cbn [bind fst].
    + intros H. injection H as <- <-.
      split; [constructor; [discriminate | constructor] | reflexivity].
    + destruct (seededExposure getOpenOrders) as [e|].
      * destruct (sizeLoop_invariant rt (or0 (balance bal)) signals e [] [])
          as (newps & newls & Heq & _ & Hlog & _).
        rewrite Heq. cbn [bind fst app]. intros H. injection H as <- <-.
        split.
        -- destruct Hlog as [-> | [e' ->]]; [constructor|].
           constructor; [discriminate | constructor].
        -- intros ->. cbn in Heq. injection Heq as <- _ _. reflexivity.
      * rewrite sizeLoop_nan. cbn [bind fst app]. intros H. injection H as <- <-.
        split; [constructor|]. intros ->. reflexivity.
  - discriminate.
  - cbn [bind fst]. intros H. injection H as <- <-.
    split; [constructor; [discriminate | constructor] | reflexivity].
Qed.

Lemma monitorPositions_logs rt getOpenOrders :
  Forall (fun log => TradingLog.action log <> TRADE) (monitorPositions rt getOpenOrders).
Proof.
  destruct getOpenOrders as [orders | err].
  - unfold monitorPositions, try_catch, bind.
    rewrite (monitorLoop_matched rt orders []). cbn [app].
    apply Forall_map. apply Forall_forall. intros; discriminate.
  - cbn. constructor; [discriminate | constructor].
Qed.

(** X25. What the summary of a cycle counts as trades.  When both fetches
    answer and sizing returns, the cycle returns and the TRADE entries of its
    log are as many as the signals of the scan plus the orders the venue
    accepted: every edge found is counted, whether or not an order was placed
    for it, and a cycle without signals counts no trade.  Sizing throws only
    on a balance answer with the body [null]: a cycle without signals never
    sizes and still counts no trade, and a cycle with signals throws the
    error of sizing. *)
Theorem summary_trades_count_signals_and_orders rt w prices markets :
  fetchPrices w = Returned prices ->
  fetchCategorizedMarkets w = Returned markets ->
  exists signals scanLogs,
    scanForEdge rt (firstToReject w) (Returned prices) (Returned markets)
    = Returned (signals, scanLogs) /\
    match sizePositions rt (getClobBalance w) (getOpenOrders w 0%nat) signals with
    | Returned (positions, _) =>
        exists logs,
          runTradingCycle rt w = Returned logs /\
          let results := fst (executeTrades rt (placeOrder w) positions) in
          (signals = [] -> results = []) /\
          TradeRoute.countAction TRADE logs
          = (List.length signals + List.length results)%nat
    | Threw err =>
        getClobBalance w = Returned None /\
        match signals with
        | [] => exists logs,
                  runTradingCycle rt w = Returned logs /\
                  TradeRoute.countAction TRADE logs = 0%nat
        | _ :: _ => runTradingCycle rt w = Threw err
        end
    end.
Proof.
  intros Hp Hm. unfold runTradingCycle, scanForEdge, scanForEdgeWith.
  rewrite Hp, Hm. cbn [Promise_all bind].
  pose proof (scanLoop_trade_count rt prices (crypto markets)) as Hscan.
  destruct (scanLoopWith rt SIGMA T_EXP R_FREE prices (crypto markets) [] [])
    as [signals scanLogs].
  cbn [fst snd] in Hscan.
  exists signals, scanLogs. split; [reflexivity|].
  destruct (sizePositions rt (getClobBalance w) (getOpenOrders w 0%nat) signals)
    as [[positions sizeLogs] | err] eqn:Hsized.
  - destruct (sizePositions_logs _ _ _ _ _ _ Hsized) as [Hsize Hnil].
    cbn [bind].
    destruct (executeLoop_accounting rt (placeOrder w) positions 0 [] [])
      as (results & execLogs & Heq & _ & Hres & Htr & _).
    assert (Hexec : executeTrades rt (placeOrder w) positions = (results, execLogs))
      by exact Heq.
    rewrite Hexec. cbn [fst].
    assert (Hempty : signals = [] -> results = []).
    { intros Hs. specialize (Hnil Hs). subst positions.
      apply subsequence_length in Hres. cbn in Hres.
      destruct results; [reflexivity | cbn in Hres; lia]. }
    destruct signals as [|signal signals].
    { eexists. split; [reflexivity|].
      split; [exact Hempty|]. rewrite (Hempty eq_refl).
      cbn [List.length Nat.eqb]. rewrite count_app, Hscan. reflexivity. }
    cbn [List.length Nat.eqb].
    destruct positions as [|pos positions].
    { cbn [List.length Nat.eqb]. eexists. split; [reflexivity|].
      split; [exact Hempty|].
      apply subsequence_length in Hres. cbn in Hres.
      destruct results; [|cbn in Hres; lia].
      rewrite !count_app, Hscan, (count_none TRADE sizeLogs Hsize).
      cbn. lia. }
    cbn [List.length Nat.eqb].
    eexists. split; [reflexivity|].
    split; [exact Hempty|].
    rewrite !count_app, Hscan, (count_none TRADE sizeLogs Hsize),
      (count_none TRADE _ (monitorPositions_logs rt (getOpenOrders w 1%nat))).
    unfold TradeRoute.countAction at 1. rewrite Htr. cbn [List.length]. lia.
  - pose proof (sizePositions_kept rt (getClobBalance w) (getOpenOrders w 0%nat) signals)
      as Hkept.
    destruct (getClobBalance w) as [[bal|] | err'].
    + destruct Hkept as (kept & logs & _ & Heq & _). rewrite Heq in Hsized. discriminate.
    + split; [reflexivity|].
      destruct signals as [|signal signals].
      * cbn [List.length Nat.eqb]. eexists. split; [reflexivity|].
        rewrite count_app, Hscan. reflexivity.
      * cbn [List.length Nat.eqb bind]. reflexivity.
    + destruct Hkept as (logs & Heq). rewrite Heq in Hsized. discriminate.
Qed.

(** X25, instance: one market quoted at 0.45 and a venue that is down. *)
Lemma summary_trades_witness :
  (fetchPrices edgeWorld = Returned [] /\
   fetchCategorizedMarkets edgeWorld
   = Returned {| crypto := [exampleMarket "[0.45,0.55]"]; ai := []; sports := [];
                 politics := [] |}) /\
  exists signals scanLogs logs,
    scanForEdge sampleRuntime PricesFetcher (Returned [])
      (Returned {| crypto := [exampleMarket "[0.45,0.55]"]; ai := []; sports := [];
                   politics := [] |}) = Returned (signals, scanLogs) /\
    runTradingCycle sampleRuntime edgeWorld = Returned logs /\
    TradeRoute.countAction TRADE logs = List.length signals.
Proof.
  split; [split; reflexivity|].
  destruct (summary_trades_count_signals_and_orders sampleRuntime edgeWorld []
              {| crypto := [exampleMarket "[0.45,0.55]"]; ai := []; sports := [];
                 politics := [] |} eq_refl eq_refl)
    as (signals & scanLogs & Hscan & Hrest).
  exists signals, scanLogs.
  change (sizePositions sampleRuntime (getClobBalance edgeWorld)
            (getOpenOrders edgeWorld 0%nat) signals)
    with (Returned (@nil SizedPosition.t, [balanceFailedLog])) in Hrest.
  destruct Hrest as (logs & Hrun & _ & Hcount).
  exists logs. split; [exact Hscan|]. split; [exact Hrun|].
  rewrite Hcount. cbn [executeTrades executeLoop fst List.length]. lia.
Defined.
